(** * GitHub activity README generator: a shallow embedding

    The development follows the JavaScript sources of the repository:
    the event analyzer and the contribution aggregator ([github-api.js]),
    the summary synthesizer ([activity-summarizer.js]), the card renderer
    ([card-generator.js]) and the serverless entry point ([api/index.js]).

    Modelling conventions.
    - JavaScript numbers that hold counts, sizes and pixel offsets are
      integers below 2^53, where IEEE doubles are exact: they are [Z].
    - A plain object used as a dictionary is an insertion-ordered
      association list with unique keys ([dict]): [Object.keys] and
      [Object.entries] enumerate it in insertion order.  Keys that name
      members of [Object.prototype], and keys that are canonical array
      indices (which the engine enumerates first), are outside the model.
    - Strings are sequences of 8-bit characters; every string the sources
      manipulate by character is ASCII.
    - Numbers that need not be integers (a border radius, an animation
      delay, a percentage) are exact rationals with the three special
      values of IEEE arithmetic ([jsnum]); the rounding of doubles is not
      modelled.
    - What an engine decides on its own (how [Date] reads a string, the
      local time zone), and the built-in conversions between strings and
      numbers whose grammar is not reproduced here, are parameters: the
      class [JsEngine]. *)

From Stdlib Require Import ZArith QArith Qabs Qround.
From Stdlib Require Import List String Ascii Bool Lia.
From Stdlib Require Import Sorting.Sorted Sorting.Permutation.
Import ListNotations.

Open Scope string_scope.
Open Scope Z_scope.

(* ================================================================== *)
(** * Part I: definitions *)
(* ================================================================== *)

(** ** Objects used as dictionaries *)

Module Dict.

Definition dict (V : Type) : Type := list (string * V).

Fixpoint lookup {V : Type} (k : string) (d : dict V) : option V :=
  match d with
  | [] => None
  | (k', v) :: d' => if String.eqb k k' then Some v else lookup k d'
  end.

(** [obj[k] = v]: an existing key keeps its position, a new key goes last. *)
Fixpoint store {V : Type} (k : string) (v : V) (d : dict V) : dict V :=
  match d with
  | [] => [(k, v)]
  | (k', v') :: d' =>
      if String.eqb k k' then (k, v) :: d' else (k', v') :: store k v d'
  end.

Definition keys {V : Type} (d : dict V) : list string := map fst d.
Definition values {V : Type} (d : dict V) : list V := map snd d.

(** [x || 0] for a counter read off a dictionary. *)
Definition or_zero (o : option Z) : Z :=
  match o with
  | Some v => v
  | None => 0
  end.

(** [obj[k] = (obj[k] || 0) + n]. *)
Definition bump (k : string) (n : Z) (d : dict Z) : dict Z :=
  store k (or_zero (lookup k d) + n) d.

Definition sum (l : list Z) : Z := fold_right Z.add 0 l.

End Dict.
Import Dict.

(** ** Optional string fields of the upstream JSON *)

Inductive jsfield : Type :=
| Undefined
| Null
| Str (s : string).

(** JavaScript truthiness of such a field: only a non-empty string. *)
Definition truthy (f : jsfield) : option string :=
  match f with
  | Str s => if String.eqb s "" then None else Some s
  | _ => None
  end.

(** ** Numbers *)

Inductive jsnum : Type :=
| NaN
| PInf
| NInf
| Fin (q : Q).

(** ** The engine: [Date], the local time zone, numeric conversions *)

Class JsEngine : Type := {
  (** [Date.parse]: the time value in milliseconds since the epoch, or
      [None] for [NaN]. *)
  Date_parse : string -> option Z;
  (** [LocalTZA(t, true)]: the local offset, in milliseconds, at UTC time
      [t]. *)
  LocalTZA : Z -> Z;
  (** [ToNumber] on a string ([StringToNumber]). *)
  StringToNumber : string -> jsnum;
  (** [parseFloat] and [parseInt] ([None] for [NaN]) on a string. *)
  parseFloat : string -> jsnum;
  parseInt : string -> option Z;
  (** [Number::toString] on a finite number that is not an integer. *)
  fraction_toString : Q -> string;
  (** The message of the [TypeError] for [undefined.length]. *)
  undefined_length_message : string
}.

Definition msPerDay : Z := 1000 * 60 * 60 * 24.
Definition msPerHour : Z := 3600000.

(** [new Date(v)] for a field of the JSON: [undefined] gives an invalid
    date, [null] converts to the number 0, a string is parsed. *)
Definition Date_new `{JsEngine} (v : jsfield) : option Z :=
  match v with
  | Undefined => None
  | Null => Some 0
  | Str s => Date_parse s
  end.

(** [getHours()]: [HourFromTime(LocalTime(t))]. *)
Definition getHours `{JsEngine} (t : Z) : Z :=
  ((t + LocalTZA t) / msPerHour) mod 24.

(** [Math.round(n / d)] for integers [n] and [d > 0]: [floor(n/d + 1/2)]. *)
Definition Math_round_div (n d : Z) : Z := (2 * n + d) / (2 * d).

(** ** The calendar of ECMAScript (proleptic Gregorian, days since 1970) *)

Module Calendar.

Definition DayFromYear (y : Z) : Z :=
  365 * (y - 1970) + (y - 1969) / 4 - (y - 1901) / 100 + (y - 1601) / 400.

Definition is_leap (y : Z) : bool :=
  (y mod 4 =? 0) && (negb (y mod 100 =? 0) || (y mod 400 =? 0)).

Definition days_in_month (y m : Z) : Z :=
  if m =? 2 then (if is_leap y then 29 else 28)
  else if (m =? 4) || (m =? 6) || (m =? 9) || (m =? 11) then 30
  else 31.

(** Days of the year [y] before the first of month [m]. *)
Definition days_before_month (y m : Z) : Z :=
  fold_right Z.add 0
    (map (days_in_month y) (map Z.of_nat (seq 1 (Z.to_nat (m - 1))))).

Definition valid_date (y m d : Z) : bool :=
  (0 <=? y) && (y <=? 9999) && (1 <=? m) && (m <=? 12) &&
  (1 <=? d) && (d <=? days_in_month y m).

(** [MakeDay]: the day number of a calendar date. *)
Definition day_number (y m d : Z) : Z :=
  DayFromYear y + days_before_month y m + (d - 1).

Definition digit_val (c : ascii) : option Z :=
  let n := Z.of_N (N_of_ascii c) in
  if (48 <=? n) && (n <=? 57) then Some (n - 48) else None.

Definition num2 (a b : ascii) : option Z :=
  match digit_val a, digit_val b with
  | Some x, Some y => Some (10 * x + y)
  | _, _ => None
  end.

Definition num4 (a b c d : ascii) : option Z :=
  match num2 a b, num2 c d with
  | Some x, Some y => Some (100 * x + y)
  | _, _ => None
  end.

Definition is_char (c : ascii) (n : N) : bool := N.eqb (N_of_ascii c) n.

(** The date-only form [YYYY-MM-DD] of the date-time string format, read
    as year, month and day. *)
Definition parse_ymd (s : string) : option (Z * Z * Z) :=
  match s with
  | String y1 (String y2 (String y3 (String y4 (String h1
    (String m1 (String m2 (String h2 (String d1 (String d2 EmptyString))))))))) =>
      if is_char h1 45 && is_char h2 45 then
        match num4 y1 y2 y3 y4, num2 m1 m2, num2 d1 d2 with
        | Some y, Some m, Some d =>
            if valid_date y m d then Some (y, m, d) else None
        | _, _, _ => None
        end
      else None
  | _ => None
  end.

(** The calendar day a date key denotes, when it denotes one. *)
Definition calendar_day (s : string) : option Z :=
  match parse_ymd s with
  | Some (y, m, d) => Some (day_number y m d)
  | None => None
  end.

Definition hms (a1 a2 b1 b2 e1 e2 : ascii) : option Z :=
  match num2 a1 a2, num2 b1 b2, num2 e1 e2 with
  | Some h, Some mi, Some sec =>
      if (h <=? 23) && (mi <=? 59) && (sec <=? 59)
      then Some (h * msPerHour + mi * 60000 + sec * 1000)
      else None
  | _, _, _ => None
  end.

(** The time of day [HH:mm:ssZ] or [HH:mm:ss.sssZ], in milliseconds. *)
Definition parse_hmsZ (s : string) : option Z :=
  match s with
  | String a1 (String a2 (String c1 (String b1 (String b2 (String c2
    (String e1 (String e2 (String z EmptyString)))))))) =>
      if is_char c1 58 && is_char c2 58 && is_char z 90
      then hms a1 a2 b1 b2 e1 e2
      else None
  | String a1 (String a2 (String c1 (String b1 (String b2 (String c2
    (String e1 (String e2 (String dot (String f1 (String f2 (String f3
    (String z EmptyString)))))))))))) =>
      if is_char c1 58 && is_char c2 58 && is_char dot 46 && is_char z 90
      then
        match hms a1 a2 b1 b2 e1 e2, digit_val f1, num2 f2 f3 with
        | Some t, Some x, Some y => Some (t + 100 * x + y)
        | _, _, _ => None
        end
      else None
  | _ => None
  end.

End Calendar.
Import Calendar.

(** A reference engine for closed examples: it reads the two forms of
    the date-time string format that the upstream API, [toISOString] and
    the analyzer produce, [YYYY-MM-DD] (UTC midnight) and
    [YYYY-MM-DDTHH:mm:ss(.sss)Z], rejects every other string, and runs in
    the time zone UTC. *)
Definition iso_parse (s : string) : option Z :=
  match calendar_day (substring 0 10 s) with
  | Some day =>
      if Nat.eqb (length s) 10 then Some (day * msPerDay)
      else
        match get 10 s with
        | Some c =>
            if is_char c 84 then
              match parse_hmsZ (substring 11 (length s - 11) s) with
              | Some ms => Some (day * msPerDay + ms)
              | None => None
              end
            else None
        | None => None
        end
  | None => None
  end.

(** ** Printing integers ([Number::toString] on an integral value) *)

Definition digit_char (d : Z) : ascii := ascii_of_N (Z.to_N (48 + d)).

Fixpoint digits_of (fuel : nat) (n : Z) (acc : string) : string :=
  let acc' := String (digit_char (n mod 10)) acc in
  match fuel with
  | O => acc'
  | S f => if n <? 10 then acc' else digits_of f (n / 10) acc'
  end.

Definition Number_toString (z : Z) : string :=
  if z <? 0
  then String "-" (digits_of (Z.to_nat (Z.log2 (- z))) (- z) EmptyString)
  else digits_of (Z.to_nat (Z.log2 z)) z EmptyString.

(** The reference printing of a fraction: the decimal expansion, cut
    after 17 places. *)
Fixpoint frac_digits (fuel : nat) (num den : Z) : string :=
  match fuel with
  | O => EmptyString
  | S f =>
      if num =? 0 then EmptyString
      else String (digit_char (10 * num / den))
                  (frac_digits f ((10 * num) mod den) den)
  end.

Definition ref_fraction_toString (q : Q) : string :=
  let n := Z.abs (Qnum q) in
  let d := Z.pos (Qden q) in
  (if Qnum q <? 0 then "-" else "")
  ++ Number_toString (n / d) ++ "." ++ frac_digits 17 (n mod d) d.

(** White space of the language among the 8-bit characters. *)
Definition is_space (c : ascii) : bool :=
  let n := N_of_ascii c in
  ((9 <=? n) && (n <=? 13))%N || (n =? 32)%N || (n =? 160)%N.

Fixpoint drop_space (s : string) : string :=
  match s with
  | EmptyString => EmptyString
  | String c s' => if is_space c then drop_space s' else s
  end.

Fixpoint string_rev_onto (s acc : string) : string :=
  match s with
  | EmptyString => acc
  | String c s' => string_rev_onto s' (String c acc)
  end.

Definition string_rev (s : string) : string := string_rev_onto s EmptyString.

(** [String.prototype.trim] *)
Definition trim (s : string) : string :=
  string_rev (drop_space (string_rev (drop_space s))).

(** The value of a string of decimal digits, most significant first. *)
Fixpoint decimal_value (s : string) (acc : Z) : option Z :=
  match s with
  | EmptyString => Some acc
  | String c s' =>
      match digit_val c with
      | Some d => decimal_value s' (10 * acc + d)
      | None => None
      end
  end.

(** The reference reading of a numeric string: white space around a
    run of decimal digits; the empty run is 0; nothing else is read. *)
Definition ref_StringToNumber (s : string) : jsnum :=
  match decimal_value (trim s) 0 with
  | Some z => Fin (inject_Z z)
  | None => NaN
  end.

(** The reference [parseInt] reads a non-empty run of decimal digits,
    the reference [parseFloat] such a run with an optional fraction, and
    nothing else. *)
Definition ref_parseInt (s : string) : option Z :=
  match s with
  | EmptyString => None
  | _ => decimal_value s 0
  end.

(** The text before and after the first full stop, if there is one. *)
Fixpoint split_dot (s : string) : string * option string :=
  match s with
  | EmptyString => (EmptyString, None)
  | String c s' =>
      if is_char c 46 then (EmptyString, Some s')
      else let r := split_dot s' in (String c (fst r), snd r)
  end.

Definition ref_parseFloat (s : string) : jsnum :=
  match split_dot s with
  | (ip, None) =>
      match ref_parseInt ip with
      | Some z => Fin (inject_Z z)
      | None => NaN
      end
  | (ip, Some fp) =>
      match ref_parseInt ip, ref_parseInt fp with
      | Some z, Some f =>
          Fin (inject_Z z
               + inject_Z f / inject_Z (10 ^ Z.of_nat (String.length fp)))
      | _, _ => NaN
      end
  end.

Definition utc_engine : JsEngine :=
  {| Date_parse := iso_parse; LocalTZA := fun _ => 0;
     StringToNumber := ref_StringToNumber;
     parseFloat := ref_parseFloat; parseInt := ref_parseInt;
     fraction_toString := ref_fraction_toString;
     undefined_length_message :=
       "Cannot read properties of undefined (reading 'length')" |}.

(** The same reader in a zone five and a half hours east of UTC. *)
Definition east_engine : JsEngine :=
  {| Date_parse := iso_parse; LocalTZA := fun _ => 19800000;
     StringToNumber := ref_StringToNumber;
     parseFloat := ref_parseFloat; parseInt := ref_parseInt;
     fraction_toString := ref_fraction_toString;
     undefined_length_message :=
       "Cannot read properties of undefined (reading 'length')" |}.

(** ** The event analyzer ([analyzeEvents]) *)

(** The fields of [event.payload] that the sources read. *)
Record payload : Type := {
  commits : option nat;               (* [payload.commits.length] *)
  pull_request : option jsfield;      (* [payload.pull_request.title] *)
  issue : option jsfield;             (* [payload.issue.title] *)
  ref_type : jsfield
}.

Record event : Type := {
  type : string;
  repo_name : jsfield;                (* [event.repo?.name] *)
  created_at : jsfield;
  event_payload : option payload      (* [event.payload] *)
}.

(** [s.split(c)] for a separator of one character: never empty. *)
Fixpoint split_on (c : N) (s : string) : list string :=
  match s with
  | EmptyString => [EmptyString]
  | String a s' =>
      if is_char a c then EmptyString :: split_on c s'
      else
        match split_on c s' with
        | h :: t => String a h :: t
        | [] => [String a EmptyString]
        end
  end.

(** [event.created_at?.split('T')[0]] *)
Definition date_part (e : event) : jsfield :=
  match created_at e with
  | Str s =>
      match split_on 84 s with
      | h :: _ => Str h
      | [] => Undefined
      end
  | _ => Undefined
  end.

(** The date key under which an event is tracked, when [if (date)]
    passes. *)
Definition date_key (e : event) : option string := truthy (date_part e).

(** [new Date(event.created_at).getHours()], [None] for [NaN]. *)
Definition event_hour `{JsEngine} (e : event) : option Z :=
  match Date_new (created_at e) with
  | Some t => Some (getHours t)
  | None => None
  end.

(** [event.repo?.name || 'unknown']. *)
Definition repo_key (e : event) : string :=
  match truthy (repo_name e) with
  | Some n => n
  | None => "unknown"
  end.

(** [hourlyActivity[hour]++] on the 24 slots. *)
Fixpoint incr_at (i : nat) (l : list Z) : list Z :=
  match l with
  | [] => []
  | x :: r =>
      match i with
      | O => (x + 1) :: r
      | S j => x :: incr_at j r
      end
  end.

Record tally : Type := {
  t_eventCounts : dict Z;
  t_repoActivity : dict Z;
  t_dailyActivity : dict Z;
  t_hourlyActivity : list Z
}.

Definition tally0 : tally :=
  {| t_eventCounts := []; t_repoActivity := []; t_dailyActivity := [];
     t_hourlyActivity := repeat 0 24 |}.

(** One turn of the loop [for (const event of events)]. *)
Definition tally_step `{JsEngine} (t : tally) (e : event) : tally :=
  {| t_eventCounts := bump (type e) 1 (t_eventCounts t);
     t_repoActivity := bump (repo_key e) 1 (t_repoActivity t);
     t_dailyActivity :=
       match date_key e with
       | Some date => bump date 1 (t_dailyActivity t)
       | None => t_dailyActivity t
       end;
     t_hourlyActivity :=
       match event_hour e with
       | Some hour => incr_at (Z.to_nat hour) (t_hourlyActivity t)
       | None => t_hourlyActivity t
       end |}.

Definition tally_events `{JsEngine} (events : list event) : tally :=
  fold_left tally_step events tally0.

(** [Math.max(...l)]; [None] stands for [-Infinity] on no argument. *)
Definition Math_max (l : list Z) : option Z :=
  match l with
  | [] => None
  | x :: r => Some (fold_left Z.max r x)
  end.

Fixpoint indexOf_from (v : Z) (l : list Z) (i : Z) : Z :=
  match l with
  | [] => -1
  | x :: r => if x =? v then i else indexOf_from v r (i + 1)
  end.

Definition indexOf (v : Z) (l : list Z) : Z := indexOf_from v l 0.

(** [hourlyActivity.indexOf(Math.max(...hourlyActivity))]. *)
Definition peak_of (hourly : list Z) : Z :=
  match Math_max hourly with
  | Some m => indexOf m hourly
  | None => -1
  end.

(** [Array.prototype.sort] is stable; insertion from the right keeps the
    order of entries that compare equal. *)
Fixpoint insert_by {A : Type} (le : A -> A -> bool) (x : A) (l : list A)
  : list A :=
  match l with
  | [] => [x]
  | y :: r => if le x y then x :: y :: r else y :: insert_by le x r
  end.

Definition sort_by {A : Type} (le : A -> A -> bool) (l : list A) : list A :=
  fold_right (insert_by le) [] l.

(** The comparator [(a, b) => b[1] - a[1]]: [a] stays before [b] unless
    the difference is positive. *)
Definition count_desc (a b : string * Z) : bool := snd b - snd a <=? 0.

(** [.sort()] on strings: ascending by code units. *)
Definition sort_strings (l : list string) : list string :=
  sort_by String.leb l.

(** [Math.round((currDate - prevDate) / (1000*60*60*24))], [None] for
    [NaN]. *)
Definition diffDays `{JsEngine} (prev curr : string) : option Z :=
  match Date_parse curr, Date_parse prev with
  | Some c, Some p => Some (Math_round_div (c - p) msPerDay)
  | _, _ => None
  end.

Definition is_one (o : option Z) : bool :=
  match o with
  | Some d => d =? 1
  | None => false
  end.

(** The loop [for (let i = 1; i < dates.length; i++)], with
    [prev = dates[i - 1]], followed by the closing [Math.max]. *)
Fixpoint streak_loop `{JsEngine} (prev : string) (rest : list string)
  (currentStreak maxStreak : Z) : Z :=
  match rest with
  | [] => Z.max maxStreak currentStreak
  | curr :: rest' =>
      if is_one (diffDays prev curr)
      then streak_loop curr rest' (currentStreak + 1) maxStreak
      else streak_loop curr rest' 1 (Z.max maxStreak currentStreak)
  end.

Definition streak_of `{JsEngine} (dates : list string) : Z :=
  match dates with
  | [] => 0
  | d0 :: rest => streak_loop d0 rest 1 0
  end.

Record eventAnalysis : Type := {
  eventCounts : dict Z;
  repoActivity : list (string * Z);
  peakHour : Z;
  activityStreak : Z;
  totalEvents : Z;
  mostActiveRepo : option string;
  dailyActivity : dict Z
}.

Definition analyzeEvents `{JsEngine} (events : list event) : eventAnalysis :=
  let t := tally_events events in
  let sortedRepos := sort_by count_desc (t_repoActivity t) in
  {| eventCounts := t_eventCounts t;
     repoActivity := firstn 5 sortedRepos;
     peakHour := peak_of (t_hourlyActivity t);
     activityStreak := streak_of (sort_strings (keys (t_dailyActivity t)));
     totalEvents := Z.of_nat (List.length events);
     mostActiveRepo :=
       match sortedRepos with
       | (name, _) :: _ => if String.eqb name "" then None else Some name
       | [] => None
       end;
     dailyActivity := t_dailyActivity t |}.

(** ** The contribution aggregator ([fetchContributionStats]) *)

Record repo : Type := {
  repo_full_name : string;
  language : jsfield;
  size : Z;
  stargazers_count : Z;
  forks_count : Z
}.

Record contributionStats : Type := {
  totalStars : Z;
  totalForks : Z;
  totalRepos : Z;
  languages : dict Z;
  recentRepos : list repo
}.

(** One turn of [for (const repo of repos.slice(0, 20))]. *)
Definition language_step (languageStats : dict Z) (r : repo) : dict Z :=
  match truthy (language r) with
  | Some l => bump l (size r) languageStats
  | None => languageStats
  end.

(** [fetchContributionStats], from the reply of [fetchUserRepos] on. *)
Definition fetchContributionStats (repos : list repo) : contributionStats :=
  {| totalStars := fold_left (fun sum r => sum + stargazers_count r) repos 0;
     totalForks := fold_left (fun sum r => sum + forks_count r) repos 0;
     totalRepos := Z.of_nat (List.length repos);
     languages := fold_left language_step (firstn 20 repos) [];
     recentRepos := firstn 10 repos |}.

(** ** The summary synthesizer ([generateActivitySummary]) *)

Record profile : Type := {
  login : string;
  name : jsfield;
  avatar_url : jsfield;
  html_url : jsfield
}.

Record activityData : Type := {
  ad_profile : profile;
  ad_events : list event;
  ad_eventAnalysis : eventAnalysis;
  ad_contributionStats : contributionStats
}.

Inductive patternType : Type := streak | schedule.
Inductive severityLevel : Type := exceptional | notable.

Record pattern : Type := {
  p_type : patternType;
  severity : option severityLevel;
  description : string
}.

Record project : Type := {
  pr_name : string;
  pr_fullName : string;
  pr_activityType : string;
  pr_lastActive : jsfield;
  pr_detail : jsfield
}.

Record stats : Type := {
  s_totalEvents : Z;
  s_totalRepos : Z;
  s_totalStars : Z;
  s_activityStreak : Z
}.

(** An element of [summaryData.languages]: the synthesizer stores names,
    the tests of the languages card pass [[name, size]] pairs. *)
Inductive langEntry : Type :=
| LName (n : string)
| LPair (n : string) (sz : Z).

Record summaryData : Type := {
  username : string;
  displayName : string;
  avatarUrl : jsfield;
  profileUrl : jsfield;
  notablePatterns : list pattern;
  achievements : list string;
  activityHighlights : list string;
  primaryLanguage : option string;
  sd_languages : list langEntry;
  recentProjects : list project;
  summary : string;
  sd_stats : stats
}.

Definition EVENT_DESCRIPTIONS (ty : string) : option string :=
  if String.eqb ty "PushEvent" then Some "code commits"
  else if String.eqb ty "PullRequestEvent" then Some "pull requests"
  else if String.eqb ty "IssuesEvent" then Some "issues"
  else if String.eqb ty "CreateEvent" then Some "repository/branch creations"
  else if String.eqb ty "DeleteEvent" then Some "branch deletions"
  else if String.eqb ty "WatchEvent" then Some "repository stars"
  else if String.eqb ty "ForkEvent" then Some "repository forks"
  else if String.eqb ty "IssueCommentEvent" then Some "issue comments"
  else if String.eqb ty "PullRequestReviewEvent" then Some "code reviews"
  else if String.eqb ty "PullRequestReviewCommentEvent"
       then Some "review comments"
  else if String.eqb ty "CommitCommentEvent" then Some "commit comments"
  else if String.eqb ty "ReleaseEvent" then Some "releases"
  else if String.eqb ty "PublicEvent" then Some "repository publications"
  else if String.eqb ty "MemberEvent" then Some "collaborator additions"
  else if String.eqb ty "GollumEvent" then Some "wiki updates"
  else None.

(** [s.split('/')[1] || s] *)
Definition short_name (s : string) : string :=
  let second := nth 1 (split_on 47 s) EmptyString in
  if String.eqb second "" then s else second.

(** [profile.name || profile.login] *)
Definition display_name (p : profile) : string :=
  match truthy (name p) with
  | Some n => n
  | None => login p
  end.

(** The streak detector of [generateActivitySummary]. *)
Definition streak_patterns (ea : eventAnalysis) : list pattern :=
  if 7 <=? activityStreak ea
  then [ {| p_type := streak;
            severity := Some (if 30 <=? activityStreak ea
                              then exceptional else notable);
            description :=
              Number_toString (activityStreak ea) ++ "-day activity streak" |} ]
  else [].

Definition timeDescription (peakHour : Z) : string :=
  if (0 <=? peakHour) && (peakHour <? 6)
  then "a night owl, most active in the early morning hours"
  else if (6 <=? peakHour) && (peakHour <? 12)
  then "an early bird, most productive in the morning"
  else if (12 <=? peakHour) && (peakHour <? 18)
  then "most active during afternoon hours"
  else "an evening coder, most active in the late hours".

Definition schedule_pattern (ea : eventAnalysis) : pattern :=
  {| p_type := schedule; severity := None;
     description := timeDescription (peakHour ea) |}.

(** [n / total > 0.5] on integers. *)
Definition ratio_gt_half (n total : Z) : bool :=
  if 0 <? total then total <? 2 * n
  else if total =? 0 then 0 <? n
  else 2 * n <? total.

Definition count_of (k : string) (ea : eventAnalysis) : Z :=
  or_zero (lookup k (eventCounts ea)).

Definition highlights (ea : eventAnalysis) : list string :=
  (match mostActiveRepo ea with
   | Some r =>
       if String.eqb r "" then []
       else [String.append "Heavily focused on " (String (ascii_of_N 34)
               (short_name r ++ String (ascii_of_N 34) EmptyString))]
   | None => []
   end)
  ++ (if negb (count_of "PushEvent" ea =? 0)
         && ratio_gt_half (count_of "PushEvent" ea) (totalEvents ea)
      then ["Primarily focused on pushing code"] else [])
  ++ (if 5 <? count_of "PullRequestReviewEvent" ea
      then ["Active code reviewer"] else [])
  ++ (if 10 <? count_of "IssuesEvent" ea
      then ["Active issue tracker"] else []).

Definition achievements_of (ea : eventAnalysis) (cs : contributionStats)
  : list string :=
  (if 5 <? count_of "PullRequestReviewEvent" ea
   then ["Code Review Champion"] else [])
  ++ (if 100 <=? totalStars cs
      then ["Earned " ++ Number_toString (totalStars cs) ++ " stars"] else [])
  ++ (if 50 <=? totalRepos cs
      then ["Prolific creator with 50+ repositories"] else [])
  ++ (if (5 <=? List.length (keys (languages cs)))%nat
      then ["Polyglot developer using "
              ++ Number_toString (Z.of_nat (List.length (keys (languages cs))))
              ++ " languages"]
      else []).

(** [Object.entries(languages).sort((a, b) => b[1] - a[1])[0]?.[0]] *)
Definition primary_language (cs : contributionStats) : option string :=
  match sort_by count_desc (languages cs) with
  | (l, _) :: _ => Some l
  | [] => None
  end.

Definition has_project (fullName : string) (ps : list project) : bool :=
  existsb (fun p => String.eqb (pr_fullName p) fullName) ps.

(** The detail line of a project, by kind of its first event. *)
Definition project_detail (e : event) : jsfield :=
  match event_payload e with
  | None => Undefined
  | Some p =>
      if String.eqb (type e) "PushEvent" then
        match commits p with
        | Some commitCount =>
            Str (Number_toString (Z.of_nat commitCount) ++ " commit"
                 ++ (if (1 <? commitCount)%nat then "s" else ""))
        | None => Undefined
        end
      else if String.eqb (type e) "PullRequestEvent" then
        match pull_request p with
        | Some title => title
        | None => Undefined
        end
      else if String.eqb (type e) "IssuesEvent" then
        match issue p with
        | Some title => title
        | None => Undefined
        end
      else if String.eqb (type e) "CreateEvent" then
        match truthy (ref_type p) with
        | Some rt => Str ("Created " ++ rt)
        | None => Undefined
        end
      else Undefined
  end.

(** One turn of the loop of [extractRecentProjects]; the [Map] keeps the
    projects in order of insertion. *)
Definition project_step (projectMap : list project) (e : event)
  : list project :=
  match truthy (repo_name e) with
  | None => projectMap
  | Some repoName =>
      if has_project repoName projectMap then projectMap
      else projectMap ++
        [ {| pr_name := short_name repoName;
             pr_fullName := repoName;
             pr_activityType :=
               match EVENT_DESCRIPTIONS (type e) with
               | Some d => d
               | None => type e
               end;
             pr_lastActive := created_at e;
             pr_detail := project_detail e |} ]
  end.

Definition extractRecentProjects (events : list event) : list project :=
  firstn 5 (fold_left project_step events []).

Definition nonempty (o : option string) : option string :=
  match o with
  | Some s => if String.eqb s "" then None else Some s
  | None => None
  end.

Definition is_schedule (p : pattern) : bool :=
  match p_type p with schedule => true | streak => false end.

Definition is_streak (p : pattern) : bool :=
  match p_type p with streak => true | schedule => false end.

(** The array [lines] of [generateHumanReadableSummary]. *)
Definition summary_lines (p : profile)
  (notablePatterns : list pattern) (achievements : list string)
  (primaryLanguage : option string) (recentProjects : list project)
  (cs : contributionStats) : list string :=
  let name := display_name p in
    [ match nonempty primaryLanguage with
      | Some l =>
          name ++ " is a developer who primarily works with " ++ l ++ "."
      | None => name ++ " is an active developer on GitHub."
      end ]
    ++ (match find is_schedule notablePatterns with
        | Some sp => ["They are " ++ description sp ++ "."]
        | None => []
        end)
    ++ (match find is_streak notablePatterns with
        | Some sp =>
            match severity sp with
            | Some exceptional =>
                ["Impressively, they've maintained a " ++ description sp
                   ++ "!"]
            | _ => ["They've been on a " ++ description sp ++ "."]
            end
        | None => []
        end)
    ++ (match recentProjects with
        | [] => []
        | _ =>
            ["Recently active on: "
               ++ String.concat ", " (map pr_name (firstn 3 recentProjects))
               ++ "."]
        end)
    ++ (match achievements with
        | [] => []
        | _ => ["Notable: " ++ String.concat ", " achievements ++ "."]
        end)
    ++ (if (0 <? totalRepos cs) || (0 <? totalStars cs)
        then
          ["Stats: "
             ++ String.concat ", "
                  ((if 0 <? totalRepos cs
                    then [Number_toString (totalRepos cs) ++ " repositories"]
                    else [])
                   ++ (if 0 <? totalStars cs
                       then [Number_toString (totalStars cs)
                               ++ " stars earned"]
                       else []))
             ++ "."]
        else []).

Definition generateHumanReadableSummary (p : profile)
  (notablePatterns : list pattern) (achievements : list string)
  (primaryLanguage : option string) (recentProjects : list project)
  (cs : contributionStats) : string :=
  String.concat " "
    (summary_lines p notablePatterns achievements primaryLanguage
       recentProjects cs).

Definition generateActivitySummary (a : activityData) : summaryData :=
  let p := ad_profile a in
  let ea := ad_eventAnalysis a in
  let cs := ad_contributionStats a in
  let notablePatterns := app (streak_patterns ea) [schedule_pattern ea] in
  let achievements := achievements_of ea cs in
  let activityHighlights := highlights ea in
  let languages := keys (languages cs) in
  let primaryLanguage := primary_language cs in
  let recentProjects := extractRecentProjects (ad_events a) in
  {| username := login p;
     displayName := display_name p;
     avatarUrl := avatar_url p;
     profileUrl := html_url p;
     notablePatterns := notablePatterns;
     achievements := achievements;
     activityHighlights := activityHighlights;
     primaryLanguage := primaryLanguage;
     sd_languages := map LName (firstn 5 languages);
     recentProjects := recentProjects;
     summary :=
       generateHumanReadableSummary p notablePatterns achievements
         primaryLanguage recentProjects cs;
     sd_stats :=
       {| s_totalEvents := totalEvents ea;
          s_totalRepos := totalRepos cs;
          s_totalStars := totalStars cs;
          s_activityStreak := activityStreak ea |} |}.

(** The short form ([generateShortSummary]). *)
Definition generateShortSummary (a : activityData) : string :=
  let name := display_name (ad_profile a) in
  let streakDays := activityStreak (ad_eventAnalysis a) in
  match nonempty (primary_language (ad_contributionStats a)) with
  | Some l =>
      if 7 <=? streakDays
      then name ++ ": " ++ l ++ " developer on a "
             ++ Number_toString streakDays ++ "-day streak"
      else name ++ ": Active " ++ l ++ " developer"
  | None => name ++ ": Active GitHub contributor"
  end.

(** ** The card renderer ([card-generator.js]) *)

Definition nl : string := String (ascii_of_N 10) EmptyString.
Definition dq : string := String (ascii_of_N 34) EmptyString.

Record theme : Type := {
  th_background : string;
  th_border : string;
  th_title : string;
  th_text : string;
  th_icon : string;
  th_accent : string
}.

(** The table [themes] of [themes/index.js]. *)
Definition themes : dict theme :=
  [ ("default",
      {| th_background := "#ffffff"; th_border := "#e4e2e2"; th_title := "#2f80ed";
         th_text := "#434d58"; th_icon := "#4c71f2"; th_accent := "#2f80ed" |});
    ("dark",
      {| th_background := "#151515"; th_border := "#e4e2e2"; th_title := "#fff";
         th_text := "#9f9f9f"; th_icon := "#79ff97"; th_accent := "#79ff97" |});
    ("radical",
      {| th_background := "#141321"; th_border := "#e4e2e2"; th_title := "#fe428e";
         th_text := "#a9fef7"; th_icon := "#f8d847"; th_accent := "#fe428e" |});
    ("merko",
      {| th_background := "#0a0f0b"; th_border := "#e4e2e2"; th_title := "#abd200";
         th_text := "#68b587"; th_icon := "#b7d364"; th_accent := "#abd200" |});
    ("gruvbox",
      {| th_background := "#282828"; th_border := "#e4e2e2"; th_title := "#fabd2f";
         th_text := "#8ec07c"; th_icon := "#fe8019"; th_accent := "#fabd2f" |});
    ("tokyonight",
      {| th_background := "#1a1b27"; th_border := "#e4e2e2"; th_title := "#70a5fd";
         th_text := "#38bdae"; th_icon := "#bf91f3"; th_accent := "#70a5fd" |});
    ("onedark",
      {| th_background := "#282c34"; th_border := "#e4e2e2"; th_title := "#e4bf7a";
         th_text := "#df6d74"; th_icon := "#8eb573"; th_accent := "#e4bf7a" |});
    ("cobalt",
      {| th_background := "#193549"; th_border := "#e4e2e2"; th_title := "#e683d9";
         th_text := "#75eeb2"; th_icon := "#0480ef"; th_accent := "#e683d9" |});
    ("synthwave",
      {| th_background := "#2b213a"; th_border := "#e4e2e2"; th_title := "#e2e9ec";
         th_text := "#e5289e"; th_icon := "#ef8539"; th_accent := "#f97583" |});
    ("highcontrast",
      {| th_background := "#000000"; th_border := "#e4e2e2"; th_title := "#e7f216";
         th_text := "#fff"; th_icon := "#00ffff"; th_accent := "#e7f216" |});
    ("dracula",
      {| th_background := "#282a36"; th_border := "#e4e2e2"; th_title := "#ff79c6";
         th_text := "#f8f8f2"; th_icon := "#bd93f9"; th_accent := "#ff79c6" |});
    ("monokai",
      {| th_background := "#272822"; th_border := "#e4e2e2"; th_title := "#f92672";
         th_text := "#f8f8f2"; th_icon := "#66d9ef"; th_accent := "#a6e22e" |});
    ("vue",
      {| th_background := "#35495e"; th_border := "#e4e2e2"; th_title := "#41b883";
         th_text := "#fffffe"; th_icon := "#41b883"; th_accent := "#41b883" |});
    ("vue-dark",
      {| th_background := "#0d1117"; th_border := "#e4e2e2"; th_title := "#42b883";
         th_text := "#adbac7"; th_icon := "#42b883"; th_accent := "#42b883" |});
    ("github",
      {| th_background := "#ffffff"; th_border := "#e4e2e2"; th_title := "#0366d6";
         th_text := "#586069"; th_icon := "#0366d6"; th_accent := "#0366d6" |});
    ("github-dark",
      {| th_background := "#0d1117"; th_border := "#30363d"; th_title := "#58a6ff";
         th_text := "#c9d1d9"; th_icon := "#58a6ff"; th_accent := "#58a6ff" |});
    ("nord",
      {| th_background := "#2e3440"; th_border := "#e4e2e2"; th_title := "#88c0d0";
         th_text := "#d8dee9"; th_icon := "#81a1c1"; th_accent := "#88c0d0" |});
    ("algolia",
      {| th_background := "#050f2c"; th_border := "#e4e2e2"; th_title := "#00aeff";
         th_text := "#ffffff"; th_icon := "#2dde98"; th_accent := "#00aeff" |});
    ("sunset",
      {| th_background := "#1a1a2e"; th_border := "#e4e2e2"; th_title := "#ffc857";
         th_text := "#e8e8e8"; th_icon := "#e94560"; th_accent := "#ffc857" |});
    ("ocean",
      {| th_background := "#0f4c75"; th_border := "#3282b8"; th_title := "#bbe1fa";
         th_text := "#ffffff"; th_icon := "#1b262c"; th_accent := "#bbe1fa" |}) ].

Definition default_theme : theme :=
  {| th_background := "#ffffff"; th_border := "#e4e2e2"; th_title := "#2f80ed";
     th_text := "#434d58"; th_icon := "#4c71f2"; th_accent := "#2f80ed" |}.

(** [themes[theme] || themes.default] *)
Definition theme_config (name : string) : theme :=
  match lookup name themes with
  | Some t => t
  | None => default_theme
  end.

Record cardOptions : Type := {
  o_theme : option string;
  o_width : option Z;
  o_showBorder : option bool;
  o_borderRadius : option jsnum;
  o_hideStats : option bool;
  o_hideProjects : option bool;
  o_layout : option string
}.

Definition no_options : cardOptions :=
  {| o_theme := None; o_width := None; o_showBorder := None;
     o_borderRadius := None; o_hideStats := None; o_hideProjects := None;
     o_layout := None |}.

(** A destructuring default: [{ x = d } = options]. *)
Definition or_default {A : Type} (d : A) (o : option A) : A :=
  match o with
  | Some a => a
  | None => d
  end.

(** [`${x}`] for a number. *)
Definition show_num `{JsEngine} (x : jsnum) : string :=
  match x with
  | NaN => "NaN"
  | PInf => "Infinity"
  | NInf => "-Infinity"
  | Fin q =>
      let r := Qred q in
      if (Qden r =? 1)%positive then Number_toString (Qnum r)
      else fraction_toString r
  end.

Definition of_Z (z : Z) : jsnum := Fin (inject_Z z).

(** [s.replace(/c/g, r)] for a single character [c]. *)
Fixpoint replace_char (c : N) (r : string) (s : string) : string :=
  match s with
  | EmptyString => EmptyString
  | String a s' =>
      if is_char a c then r ++ replace_char c r s'
      else String a (replace_char c r s')
  end.

Definition escapeHtml (str : string) : string :=
  if String.eqb str "" then ""
  else
    replace_char 39 "&#39;"
      (replace_char 34 "&quot;"
         (replace_char 62 "&gt;"
            (replace_char 60 "&lt;"
               (replace_char 38 "&amp;" str)))).

(** One turn of the loop of [wrapText]: the lines pushed so far and
    [currentLine]. *)
Definition wrap_step (maxChars : nat) (st : list string * string)
  (word : string) : list string * string :=
  let candidate := trim (snd st ++ " " ++ word) in
  if (String.length candidate <=? maxChars)%nat then (fst st, candidate)
  else
    ((if String.eqb (snd st) "" then fst st else app (fst st) [snd st]),
     word).

Definition wrapText (text : string) (maxChars : nat) : list string :=
  if String.eqb text "" then []
  else
    let st := fold_left (wrap_step maxChars) (split_on 32 text)
                ([], EmptyString) in
    if String.eqb (snd st) "" then fst st else app (fst st) [snd st].

(** [showBorder ? `stroke=...` : ''] *)
Definition border_style (showBorder : bool) (th : theme) : string :=
  if showBorder then
    "stroke=" ++ dq ++ th_border th ++ dq ++ " stroke-width=" ++ dq ++
    "1" ++ dq ++ " stroke-opacity=" ++ dq ++ "1" ++ dq
  else "".

(** The opening of the activity card: [<svg>], the style sheet and the
    frame. *)
Definition activity_open `{JsEngine} (width height : Z) (th : theme)
  (borderRadius : jsnum) (borderStyle : string) : string :=
  nl ++ "<svg width=" ++ dq ++ Number_toString width ++ dq ++ " height=" ++
  dq ++ Number_toString height ++ dq ++ " viewBox=" ++ dq ++ "0 0 " ++
  Number_toString width ++ " " ++ Number_toString height ++ dq ++ nl ++
  "     fill=" ++ dq ++ "none" ++ dq ++ " xmlns=" ++ dq ++
  "http://www.w3.org/2000/svg" ++ dq ++ ">" ++ nl ++
  "  <style>" ++ nl ++
  "    .header { font: 600 18px 'Segoe UI', Ubuntu, Sans-Serif; fill: " ++
  th_title th ++ "; }" ++ nl ++
  "    .stat-label { font: 400 12px 'Segoe UI', Ubuntu, Sans-Serif; fill: " ++
  th_text th ++ "; }" ++ nl ++
  "    .stat-value { font: 600 14px 'Segoe UI', Ubuntu, Sans-Serif; fill: " ++
  th_title th ++ "; }" ++ nl ++
  "    .summary-text { font: 400 13px 'Segoe UI', Ubuntu, Sans-Serif; fill: " ++
  th_text th ++ "; }" ++ nl ++
  "    .project-name { font: 600 12px 'Segoe UI', Ubuntu, Sans-Serif; fill: " ++
  th_accent th ++ "; }" ++ nl ++
  "    .project-detail { font: 400 11px 'Segoe UI', Ubuntu, Sans-Serif; fill: " ++
  th_text th ++ "; opacity: 0.8; }" ++ nl ++
  "    .section-title { font: 600 13px 'Segoe UI', Ubuntu, Sans-Serif; fill: " ++
  th_title th ++ "; }" ++ nl ++
  "    .achievement { font: 400 11px 'Segoe UI', Ubuntu, Sans-Serif; fill: " ++
  th_accent th ++ "; }" ++ nl ++
  "    .language-tag { font: 600 11px 'Segoe UI', Ubuntu, Sans-Serif; fill: " ++
  th_text th ++ "; }" ++ nl ++
  "    @keyframes fadeIn {" ++ nl ++
  "      from { opacity: 0; }" ++ nl ++
  "      to { opacity: 1; }" ++ nl ++
  "    }" ++ nl ++
  "    .animate { animation: fadeIn 0.3s ease-in-out forwards; }" ++ nl ++
  "  </style>" ++ nl ++
  nl ++ "  <rect x=" ++ dq ++ "0.5" ++ dq ++ " y=" ++ dq ++ "0.5" ++ dq ++
  " rx=" ++ dq ++ show_num borderRadius ++ dq ++ " width=" ++ dq ++
  Number_toString (width - 1) ++ dq ++ " height=" ++ dq ++
  Number_toString (height - 1) ++ dq ++ nl ++
  "        fill=" ++ dq ++ th_background th ++ dq ++ " " ++ borderStyle ++
  "/>" ++ nl.

Definition activity_header (yOffset : Z) (displayName : string) : string :=
  nl ++ "  <g transform=" ++ dq ++ "translate(25, " ++
  Number_toString yOffset ++ ")" ++ dq ++ ">" ++ nl ++
  "    <text class=" ++ dq ++ "header" ++ dq ++ ">" ++
  escapeHtml displayName ++ "'s GitHub Activity</text>" ++ nl ++
  "  </g>" ++ nl.

Definition activity_language (yOffset : Z) (th : theme)
  (primaryLanguage : string) : string :=
  nl ++ "  <g transform=" ++ dq ++ "translate(25, " ++
  Number_toString yOffset ++ ")" ++ dq ++ ">" ++ nl ++
  "    <circle cx=" ++ dq ++ "6" ++ dq ++ " cy=" ++ dq ++ "5" ++ dq ++
  " r=" ++ dq ++ "6" ++ dq ++ " fill=" ++ dq ++ th_accent th ++ dq ++
  "/>" ++ nl ++
  "    <text x=" ++ dq ++ "18" ++ dq ++ " y=" ++ dq ++ "9" ++ dq ++
  " class=" ++ dq ++ "language-tag" ++ dq ++ ">" ++
  escapeHtml primaryLanguage ++ "</text>" ++ nl ++
  "  </g>" ++ nl.

(** Line [i] of the narrative; the delay is [i * 0.1]. *)
Definition activity_summary_line `{JsEngine} (yOffset : Z) (i : nat)
  (line : string) : string :=
  nl ++ "  <text x=" ++ dq ++ "25" ++ dq ++ " y=" ++ dq ++
  Number_toString (yOffset + Z.of_nat i * 18) ++ dq ++ " class=" ++ dq ++
  "summary-text animate" ++ dq ++ " style=" ++ dq ++ "animation-delay: " ++
  show_num (Fin (inject_Z (Z.of_nat i) * (1 # 10))) ++ "s" ++ dq ++ ">" ++ nl ++
  "    " ++ escapeHtml line ++ nl ++
  "  </text>" ++ nl.

Definition section_title_stats (yOffset : Z) : string :=
  nl ++ "  <g transform=" ++ dq ++ "translate(25, " ++
  Number_toString yOffset ++ ")" ++ dq ++ ">" ++ nl ++
  "    <text class=" ++ dq ++ "section-title" ++ dq ++ ">Stats</text>" ++ nl ++
  "  </g>" ++ nl.

Definition activity_stat (statX yOffset : Z) (label value : string)
  : string :=
  nl ++ "    <g transform=" ++ dq ++ "translate(" ++
  Number_toString statX ++ ", " ++ Number_toString yOffset ++ ")" ++ dq ++
  ">" ++ nl ++
  "      <text class=" ++ dq ++ "stat-value" ++ dq ++ ">" ++
  escapeHtml value ++ "</text>" ++ nl ++
  "      <text y=" ++ dq ++ "14" ++ dq ++ " class=" ++ dq ++
  "stat-label" ++ dq ++ ">" ++ escapeHtml label ++ "</text>" ++ nl ++
  "    </g>" ++ nl.

Definition section_title_projects (yOffset : Z) : string :=
  nl ++ "  <g transform=" ++ dq ++ "translate(25, " ++
  Number_toString yOffset ++ ")" ++ dq ++ ">" ++ nl ++
  "    <text class=" ++ dq ++ "section-title" ++ dq ++
  ">Recent Projects</text>" ++ nl ++
  "  </g>" ++ nl.

(** [project.detail ? ` - ${...}` : ''] *)
Definition project_detail_text (p : project) : string :=
  match truthy (pr_detail p) with
  | Some detail =>
      " - " ++ substring 0 40 detail
      ++ (if (40 <? String.length detail)%nat then "..." else "")
  | None => ""
  end.

Definition activity_project (yOffset : Z) (p : project) : string :=
  nl ++ "  <g transform=" ++ dq ++ "translate(25, " ++
  Number_toString yOffset ++ ")" ++ dq ++ ">" ++ nl ++
  "    <text class=" ++ dq ++ "project-name" ++ dq ++ ">" ++
  escapeHtml (pr_name p) ++ "</text>" ++ nl ++
  "    <text x=" ++ dq ++
  Number_toString (Z.of_nat (String.length (pr_name p)) * 7 + 5) ++ dq ++
  " class=" ++ dq ++ "project-detail" ++ dq ++ ">" ++
  escapeHtml (project_detail_text p) ++ "</text>" ++ nl ++
  "  </g>" ++ nl.

Definition achievements_open (yOffset : Z) : string :=
  nl ++ "  <g transform=" ++ dq ++ "translate(25, " ++
  Number_toString yOffset ++ ")" ++ dq ++ ">" ++ nl.

Definition badge_width (achievement : string) : Z :=
  Z.of_nat (String.length achievement) * 6 + 16.

Definition activity_badge (achieveX : Z) (th : theme) (achievement : string)
  : string :=
  nl ++ "    <rect x=" ++ dq ++ Number_toString achieveX ++ dq ++ " y=" ++
  dq ++ "-10" ++ dq ++ " width=" ++ dq ++
  Number_toString (badge_width achievement) ++ dq ++ " height=" ++ dq ++
  "18" ++ dq ++ " rx=" ++ dq ++ "9" ++ dq ++ " fill=" ++ dq ++
  th_accent th ++ dq ++ " opacity=" ++ dq ++ "0.2" ++ dq ++ "/>" ++ nl ++
  "    <text x=" ++ dq ++ Number_toString (achieveX + 8) ++ dq ++ " y=" ++
  dq ++ "3" ++ dq ++ " class=" ++ dq ++ "achievement" ++ dq ++ ">" ++
  escapeHtml achievement ++ "</text>" ++ nl.

Definition achievements_close : string :=
  nl ++ "  </g>" ++ nl.

(** The four entries of [statsItems]: label and printed value. *)
Definition stats_items (st : stats) : list (string * string) :=
  [ ("Repositories", Number_toString (s_totalRepos st));
    ("Stars", Number_toString (s_totalStars st));
    ("Activity Streak", Number_toString (s_activityStreak st) ++ " days");
    ("Recent Events", Number_toString (s_totalEvents st)) ].

(** The loops of the card, each with the coordinate it advances. *)
Fixpoint summary_lines_svg `{JsEngine} (yOffset : Z) (i : nat)
  (lines : list string) : string :=
  match lines with
  | [] => ""
  | l :: r =>
      activity_summary_line yOffset i l ++ summary_lines_svg yOffset (S i) r
  end.

Fixpoint stats_svg (statX yOffset : Z) (items : list (string * string))
  : string :=
  match items with
  | [] => ""
  | (label, value) :: r =>
      activity_stat statX yOffset label value
      ++ stats_svg (statX + 105) yOffset r
  end.

Fixpoint projects_svg (yOffset : Z) (ps : list project) : string :=
  match ps with
  | [] => ""
  | p :: r => activity_project yOffset p ++ projects_svg (yOffset + 22) r
  end.

Fixpoint badges_svg (achieveX : Z) (th : theme) (l : list string) : string :=
  match l with
  | [] => ""
  | a :: r =>
      activity_badge achieveX th a
      ++ badges_svg (achieveX + badge_width a + 8) th r
  end.

Definition has_any {A : Type} (l : list A) : bool :=
  match l with
  | [] => false
  | _ => true
  end.

(** The dynamic height of the activity card. *)
Definition activity_height (summaryLines : list string)
  (hideStats hideProjects : bool) (sd : summaryData) : Z :=
  let h0 := 120 + Z.of_nat (List.length summaryLines) * 18 + 20 in
  let h1 := if hideStats then h0 else h0 + 50 in
  let h2 :=
    if negb hideProjects && has_any (recentProjects sd)
    then h1 + 30
         + Z.min (Z.of_nat (List.length (recentProjects sd))) 3 * 22
    else h1 in
  let h3 := if has_any (achievements sd) then h2 + 40 else h2 in
  Z.max h3 195.

(** A stretch of the card: the markup it appends to [svg] and the
    [yOffset] it leaves, from the [yOffset] it finds. *)
Definition stretch : Type := Z -> string * Z.

Fixpoint run_stretches (l : list stretch) (yOffset : Z) : string :=
  match l with
  | [] => ""
  | f :: r => fst (f yOffset) ++ run_stretches r (snd (f yOffset))
  end.

Definition header_stretch (sd : summaryData) : stretch :=
  fun yOffset => (activity_header yOffset (displayName sd), yOffset + 15).

Definition language_stretch (th : theme) (sd : summaryData) : stretch :=
  fun yOffset =>
    match nonempty (primaryLanguage sd) with
    | Some l => (activity_language yOffset th l, yOffset + 25)
    | None => ("", yOffset + 10)
    end.

Definition summary_stretch `{JsEngine} (summaryLines : list string)
  : stretch :=
  fun yOffset =>
    (summary_lines_svg yOffset 0 summaryLines,
     yOffset + Z.of_nat (List.length summaryLines) * 18 + 15).

Definition stats_stretch (hideStats : bool) (sd : summaryData) : stretch :=
  fun yOffset =>
    if negb hideStats
    then (section_title_stats yOffset
          ++ stats_svg 25 (yOffset + 20) (stats_items (sd_stats sd)),
          yOffset + 20 + 40)
    else ("", yOffset).

Definition projects_stretch (hideProjects : bool) (sd : summaryData)
  : stretch :=
  fun yOffset =>
    if negb hideProjects && has_any (recentProjects sd)
    then (section_title_projects yOffset
          ++ projects_svg (yOffset + 20) (firstn 3 (recentProjects sd)),
          yOffset + 20
          + 22 * Z.of_nat (List.length (firstn 3 (recentProjects sd))))
    else ("", yOffset).

Definition achievements_stretch (th : theme) (sd : summaryData) : stretch :=
  fun yOffset =>
    if has_any (achievements sd)
    then (achievements_open (yOffset + 10)
          ++ badges_svg 0 th (firstn 3 (achievements sd))
          ++ achievements_close,
          yOffset + 10)
    else ("", yOffset).

Definition generateActivityCard `{JsEngine} (sd : summaryData)
  (options : cardOptions) : string :=
  let th := theme_config (or_default "default" (o_theme options)) in
  let width := or_default 495 (o_width options) in
  let showBorder := or_default true (o_showBorder options) in
  let borderRadius := or_default (Fin (9 # 2)) (o_borderRadius options) in
  let hideStats := or_default false (o_hideStats options) in
  let hideProjects := or_default false (o_hideProjects options) in
  let summaryLines := wrapText (summary sd) 55 in
  let height := activity_height summaryLines hideStats hideProjects sd in
  trim (activity_open width height th borderRadius
          (border_style showBorder th)
        ++ run_stretches
             [ header_stretch sd;
               language_stretch th sd;
               summary_stretch summaryLines;
               stats_stretch hideStats sd;
               projects_stretch hideProjects sd;
               achievements_stretch th sd ] 35
        ++ nl ++ "</svg>").

(** [primaryLanguage ? `<text ...>` : ''] of the compact card. *)
Definition compact_language (sd : summaryData) : string :=
  match nonempty (primaryLanguage sd) with
  | Some l =>
      "<text x=" ++ dq
      ++ Number_toString (Z.of_nat (String.length (displayName sd)) * 8 + 10)
      ++ dq ++ " class=" ++ dq ++ "value" ++ dq ++ ">" ++ escapeHtml l
      ++ "</text>"
  | None => ""
  end.

Definition generateCompactCard `{JsEngine} (sd : summaryData)
  (options : cardOptions) : string :=
  let th := theme_config (or_default "default" (o_theme options)) in
  let width := or_default 350 (o_width options) in
  let showBorder := or_default true (o_showBorder options) in
  let borderRadius := or_default (Fin (9 # 2)) (o_borderRadius options) in
  let height := 80 in
  let borderStyle := border_style showBorder th in
  let st := sd_stats sd in
  trim (
    nl ++ "<svg width=" ++ dq ++ Number_toString width ++ dq ++
    " height=" ++ dq ++ Number_toString height ++ dq ++ " viewBox=" ++
    dq ++ "0 0 " ++ Number_toString width ++ " " ++
    Number_toString height ++ dq ++ nl ++
    "     fill=" ++ dq ++ "none" ++ dq ++ " xmlns=" ++ dq ++
    "http://www.w3.org/2000/svg" ++ dq ++ ">" ++ nl ++
    "  <style>" ++ nl ++
    "    .title { font: 600 14px 'Segoe UI', Ubuntu, Sans-Serif; fill: " ++
    th_title th ++ "; }" ++ nl ++
    "    .stat { font: 400 11px 'Segoe UI', Ubuntu, Sans-Serif; fill: " ++
    th_text th ++ "; }" ++ nl ++
    "    .value { font: 600 11px 'Segoe UI', Ubuntu, Sans-Serif; fill: " ++
    th_accent th ++ "; }" ++ nl ++
    "  </style>" ++ nl ++
    nl ++ "  <rect x=" ++ dq ++ "0.5" ++ dq ++ " y=" ++ dq ++ "0.5" ++
    dq ++ " rx=" ++ dq ++ show_num borderRadius ++ dq ++ " width=" ++ dq ++
    Number_toString (width - 1) ++ dq ++ " height=" ++ dq ++
    Number_toString (height - 1) ++ dq ++ nl ++
    "        fill=" ++ dq ++ th_background th ++ dq ++ " " ++
    borderStyle ++ "/>" ++ nl ++
    nl ++ "  <g transform=" ++ dq ++ "translate(15, 25)" ++ dq ++ ">" ++ nl ++
    "    <text class=" ++ dq ++ "title" ++ dq ++ ">" ++
    escapeHtml (displayName sd) ++ "</text>" ++ nl ++
    "    " ++ compact_language sd ++ nl ++
    "  </g>" ++ nl ++
    nl ++ "  <g transform=" ++ dq ++ "translate(15, 50)" ++ dq ++ ">" ++ nl ++
    "    <text class=" ++ dq ++ "stat" ++ dq ++ ">Repos: <tspan class=" ++
    dq ++ "value" ++ dq ++ ">" ++ Number_toString (s_totalRepos st) ++
    "</tspan></text>" ++ nl ++
    "    <text x=" ++ dq ++ "80" ++ dq ++ " class=" ++ dq ++ "stat" ++
    dq ++ ">Stars: <tspan class=" ++ dq ++ "value" ++ dq ++ ">" ++
    Number_toString (s_totalStars st) ++ "</tspan></text>" ++ nl ++
    "    <text x=" ++ dq ++ "150" ++ dq ++ " class=" ++ dq ++ "stat" ++
    dq ++ ">Streak: <tspan class=" ++ dq ++ "value" ++ dq ++ ">" ++
    Number_toString (s_activityStreak st) ++ "d</tspan></text>" ++ nl ++
    "    <text x=" ++ dq ++ "230" ++ dq ++ " class=" ++ dq ++ "stat" ++
    dq ++ ">Events: <tspan class=" ++ dq ++ "value" ++ dq ++ ">" ++
    Number_toString (s_totalEvents st) ++ "</tspan></text>" ++ nl ++
    "  </g>" ++ nl ++
    "</svg>" ++ nl).

(** *** The languages card *)

Definition languageColors : dict string :=
  [ ("JavaScript", "#f1e05a");
    ("TypeScript", "#2b7489");
    ("Python", "#3572A5");
    ("Java", "#b07219");
    ("Go", "#00ADD8");
    ("Rust", "#dea584");
    ("Ruby", "#701516");
    ("PHP", "#4F5D95");
    ("C++", "#f34b7d");
    ("C", "#555555");
    ("C#", "#178600");
    ("Swift", "#ffac45");
    ("Kotlin", "#F18E33");
    ("Scala", "#c22d40");
    ("Shell", "#89e051");
    ("HTML", "#e34c26");
    ("CSS", "#563d7c");
    ("Vue", "#41b883");
    ("Dart", "#00B4AB");
    ("Elixir", "#6e4a7e") ].

(** What destructuring [[lang, size]] binds to [size]: nothing, a number,
    or a string of one character. *)
Inductive jsval : Type :=
| VUndef
| VNum (z : Z)
| VStr (s : string).

(** [[lang, size] = entry]: a pair gives its components, a string its
    first two characters. *)
Definition entry_lang (e : langEntry) : option string :=
  match e with
  | LPair n _ => Some n
  | LName (String c _) => Some (String c EmptyString)
  | LName EmptyString => None
  end.

Definition entry_size (e : langEntry) : jsval :=
  match e with
  | LPair _ z => VNum z
  | LName (String _ (String c _)) => VStr (String c EmptyString)
  | LName _ => VUndef
  end.

(** The accumulator of [languages.reduce]: a number ([None] for [NaN])
    or, once a string was added, a string. *)
Inductive accum : Type :=
| ANum (z : option Z)
| AStr (s : string).

Definition show_int (z : option Z) : string :=
  match z with
  | Some n => Number_toString n
  | None => "NaN"
  end.

(** [sum + size] *)
Definition js_add (sum : accum) (size : jsval) : accum :=
  match sum, size with
  | ANum (Some a), VNum b => ANum (Some (a + b))
  | ANum None, VNum _ => ANum None
  | ANum _, VUndef => ANum None
  | ANum a, VStr s => AStr (show_int a ++ s)
  | AStr t, VNum b => AStr (t ++ Number_toString b)
  | AStr t, VUndef => AStr (t ++ "undefined")
  | AStr t, VStr s => AStr (t ++ s)
  end.

(** [languages.reduce((sum, [_, size]) => sum + size, 0) || 1] *)
Definition total_size (languages : list langEntry) : accum :=
  match fold_left (fun sum e => js_add sum (entry_size e)) languages
          (ANum (Some 0)) with
  | ANum (Some 0) => ANum (Some 1)
  | ANum None => ANum (Some 1)
  | AStr EmptyString => ANum (Some 1)
  | s => s
  end.

Definition ToNumber_val `{JsEngine} (v : jsval) : jsnum :=
  match v with
  | VUndef => NaN
  | VNum z => of_Z z
  | VStr s => StringToNumber s
  end.

Definition ToNumber_acc `{JsEngine} (a : accum) : jsnum :=
  match a with
  | ANum (Some z) => of_Z z
  | ANum None => NaN
  | AStr s => StringToNumber s
  end.

Definition Qsign_nonneg (q : Q) : bool := Qle_bool 0 q.

Definition jsnum_div (a b : jsnum) : jsnum :=
  match a, b with
  | NaN, _ => NaN
  | _, NaN => NaN
  | Fin x, Fin y =>
      if Qeq_bool y 0
      then (if Qeq_bool x 0 then NaN
            else if Qsign_nonneg x then PInf else NInf)
      else Fin (x / y)
  | Fin _, _ => Fin 0
  | PInf, Fin y => if Qsign_nonneg y then PInf else NInf
  | NInf, Fin y => if Qsign_nonneg y then NInf else PInf
  | _, _ => NaN
  end.

Definition jsnum_mul (a b : jsnum) : jsnum :=
  match a, b with
  | NaN, _ => NaN
  | _, NaN => NaN
  | Fin x, Fin y => Fin (x * y)
  | Fin x, PInf | PInf, Fin x =>
      if Qeq_bool x 0 then NaN else if Qsign_nonneg x then PInf else NInf
  | Fin x, NInf | NInf, Fin x =>
      if Qeq_bool x 0 then NaN else if Qsign_nonneg x then NInf else PInf
  | PInf, PInf | NInf, NInf => PInf
  | PInf, NInf | NInf, PInf => NInf
  end.

Definition jsnum_add (a b : jsnum) : jsnum :=
  match a, b with
  | NaN, _ => NaN
  | _, NaN => NaN
  | Fin x, Fin y => Fin (x + y)
  | PInf, NInf | NInf, PInf => NaN
  | PInf, _ | _, PInf => PInf
  | NInf, _ | _, NInf => NInf
  end.

Definition jsnum_pos (a : jsnum) : bool :=
  match a with
  | PInf => true
  | Fin x => negb (Qle_bool x 0)
  | _ => false
  end.

(** [x.toFixed(1)]: the nearest tenth, the larger one on a tie. *)
Definition toFixed1 `{JsEngine} (x : jsnum) : string :=
  match x with
  | Fin q =>
      let a := Qabs q in
      if Qle_bool (inject_Z (10 ^ 21)) a then show_num x
      else
        let n := Qfloor (a * inject_Z 10 + (1 # 2)) in
        (if Qle_bool 0 q then "" else "-")
        ++ Number_toString (n / 10) ++ "."
        ++ String (digit_char (n mod 10)) EmptyString
  | _ => show_num x
  end.

Record languageDatum : Type := {
  ld_name : option string;
  ld_percentage : string;
  ld_color : string
}.

(** [languageColors[lang] || '#858585'] *)
Definition language_color (lang : option string) : string :=
  match lookup (match lang with Some l => l | None => "undefined" end)
          languageColors with
  | Some c => c
  | None => "#858585"
  end.

(** [languages.slice(0, 5).map(([lang, size]) => ({...}))] *)
Definition languageData `{JsEngine} (languages : list langEntry)
  : list languageDatum :=
  let totalSize := ToNumber_acc (total_size languages) in
  map (fun e =>
         {| ld_name := entry_lang e;
            ld_percentage :=
              toFixed1
                (jsnum_mul (jsnum_div (ToNumber_val (entry_size e)) totalSize)
                   (of_Z 100));
            ld_color := language_color (entry_lang e) |})
      (firstn 5 languages).

Definition languages_open `{JsEngine} (width height : Z) (th : theme)
  (borderRadius : jsnum) (borderStyle : string) : string :=
  nl ++ "<svg width=" ++ dq ++ Number_toString width ++ dq ++ " height=" ++
  dq ++ Number_toString height ++ dq ++ " viewBox=" ++ dq ++ "0 0 " ++
  Number_toString width ++ " " ++ Number_toString height ++ dq ++ nl ++
  "     fill=" ++ dq ++ "none" ++ dq ++ " xmlns=" ++ dq ++
  "http://www.w3.org/2000/svg" ++ dq ++ ">" ++ nl ++
  "  <style>" ++ nl ++
  "    .title { font: 600 14px 'Segoe UI', Ubuntu, Sans-Serif; fill: " ++
  th_title th ++ "; }" ++ nl ++
  "    .lang-name { font: 400 11px 'Segoe UI', Ubuntu, Sans-Serif; fill: " ++
  th_text th ++ "; }" ++ nl ++
  "    .lang-percent { font: 600 11px 'Segoe UI', Ubuntu, Sans-Serif; fill: " ++
  th_text th ++ "; }" ++ nl ++
  "  </style>" ++ nl ++
  nl ++ "  <rect x=" ++ dq ++ "0.5" ++ dq ++ " y=" ++ dq ++ "0.5" ++ dq ++
  " rx=" ++ dq ++ show_num borderRadius ++ dq ++ " width=" ++ dq ++
  Number_toString (width - 1) ++ dq ++ " height=" ++ dq ++
  Number_toString (height - 1) ++ dq ++ nl ++
  "        fill=" ++ dq ++ th_background th ++ dq ++ " " ++ borderStyle ++
  "/>" ++ nl ++
  nl ++ "  <text x=" ++ dq ++ "15" ++ dq ++ " y=" ++ dq ++ "25" ++ dq ++
  " class=" ++ dq ++ "title" ++ dq ++ ">Most Used Languages</text>" ++ nl.

Definition bar_segment `{JsEngine} (barX segmentWidth : jsnum)
  (color : string) : string :=
  nl ++ "    <rect x=" ++ dq ++ show_num barX ++ dq ++ " y=" ++ dq ++
  "0" ++ dq ++ " width=" ++ dq ++ show_num segmentWidth ++ dq ++
  " height=" ++ dq ++ Number_toString 8 ++ dq ++ " fill=" ++ dq ++ color ++
  dq ++ " rx=" ++ dq ++ "1" ++ dq ++ "/>" ++ nl.

(** The loop of the progress bar, from [barX] on. *)
Fixpoint bar_svg `{JsEngine} (barX : jsnum) (barWidth : Z)
  (data : list languageDatum) : string :=
  match data with
  | [] => ""
  | lang :: r =>
      let segmentWidth :=
        jsnum_mul (jsnum_div (parseFloat (ld_percentage lang)) (of_Z 100))
          (of_Z barWidth) in
      if jsnum_pos segmentWidth
      then bar_segment barX segmentWidth (ld_color lang)
           ++ bar_svg (jsnum_add barX segmentWidth) barWidth r
      else bar_svg barX barWidth r
  end.

(** One label: the opening of its group with the colour dot, the two
    texts, the closing. *)
Definition label_open (labelX labelY : Z) (color : string) : string :=
  nl ++ "  <g transform=" ++ dq ++ "translate(" ++
  Number_toString labelX ++ ", " ++ Number_toString labelY ++ ")" ++ dq ++
  ">" ++ nl ++
  "    <circle cx=" ++ dq ++ "4" ++ dq ++ " cy=" ++ dq ++ "5" ++ dq ++
  " r=" ++ dq ++ "4" ++ dq ++ " fill=" ++ dq ++ color ++ dq ++ "/>" ++ nl ++
  "    ".

Definition label_texts (name percentage : string) : string :=
  "<text x=" ++ dq ++ "12" ++ dq ++ " y=" ++ dq ++ "9" ++ dq ++
  " class=" ++ dq ++ "lang-name" ++ dq ++ ">" ++ escapeHtml name ++
  "</text>" ++ nl ++
  "    <text x=" ++ dq ++
  Number_toString (12 + Z.of_nat (String.length name) * 6 + 5) ++ dq ++
  " y=" ++ dq ++ "9" ++ dq ++ " class=" ++ dq ++ "lang-percent" ++ dq ++
  ">" ++ percentage ++ "%</text>".

Definition label_close : string :=
  nl ++ "  </g>" ++ nl.

(** [lang.name.length] throws when the name is [undefined]. *)
Definition language_label (labelX labelY : Z) (lang : languageDatum)
  : option string :=
  match ld_name lang with
  | None => None
  | Some name =>
      Some (label_open labelX labelY (ld_color lang)
            ++ label_texts name (ld_percentage lang)
            ++ label_close)
  end.

(** The loop of the labels: three to a row. *)
Fixpoint labels_svg (i : nat) (labelX labelY : Z)
  (data : list languageDatum) : option string :=
  match data with
  | [] => Some ""
  | lang :: r =>
      let wrap := (0 <? i)%nat && (Nat.eqb (i mod 3) 0) in
      let labelY := if wrap then labelY + 20 else labelY in
      let labelX := if wrap then 15 else labelX in
      match language_label labelX labelY lang with
      | None => None
      | Some g =>
          match labels_svg (S i) (labelX + 90) labelY r with
          | None => None
          | Some rest => Some (g ++ rest)
          end
      end
  end.

(** [generateLanguagesCard]; [None] when it throws a [TypeError]. *)
Definition generateLanguagesCard `{JsEngine} (sd : summaryData)
  (options : cardOptions) : option string :=
  let th := theme_config (or_default "default" (o_theme options)) in
  let width := or_default 300 (o_width options) in
  let showBorder := or_default true (o_showBorder options) in
  let borderRadius := or_default (Fin (9 # 2)) (o_borderRadius options) in
  let layout := or_default "compact" (o_layout options) in
  let height := if String.eqb layout "compact" then 100 else 140 in
  let data := languageData (sd_languages sd) in
  let svg := languages_open width height th borderRadius
               (border_style showBorder th) in
  let svg := svg ++ "<g transform=" ++ dq ++ "translate(0, 40)" ++ dq ++ ">" in
  let svg := svg ++ bar_svg (of_Z 15) (width - 30) data in
  let svg := svg ++ "</g>" in
  match labels_svg 0 15 60 data with
  | None => None
  | Some labels => Some (trim (svg ++ labels ++ nl ++ "</svg>"))
  end.

(** The data that [fetchAllActivityData] assembles from the three
    upstream replies (the field [fetchedAt], which nothing reads, is left
    out). *)
Definition activity_of `{JsEngine} (p : profile) (events : list event)
  (repos : list repo) : activityData :=
  {| ad_profile := p; ad_events := events;
     ad_eventAnalysis := analyzeEvents events;
     ad_contributionStats := fetchContributionStats repos |}.

(** ** The serverless entry point ([api/index.js]) *)

(** *** Computations that read the cache, call upstream and may throw *)

Inductive upstream_call : Type :=
| GetUser (username : string) (token : option string)
| GetEvents (username : string) (token : option string)
| GetRepos (username : string) (token : option string).

(** The reply to a request: data, or a failure with the HTTP status of
    the response, if there was one, and the message of the error. *)
Inductive reply (A : Type) : Type :=
| Ok (a : A)
| Failed (status : option Z) (message : string).
Arguments Ok {A} a.
Arguments Failed {A} status message.

Record upstream : Type := {
  get_user : string -> option string -> reply profile;
  get_events : string -> option string -> reply (list event);
  get_repos : string -> option string -> reply (list repo)
}.

Record world : Type := {
  w_cache : dict (summaryData * Z);   (* the module-level [Map] *)
  w_calls : list upstream_call        (* the requests sent so far *)
}.

Inductive outcome (A : Type) : Type :=
| Returned (a : A)
| Thrown (message : string).
Arguments Returned {A} a.
Arguments Thrown {A} message.

Definition io (A : Type) : Type := world -> outcome A * world.

Definition ret {A : Type} (a : A) : io A := fun w => (Returned a, w).

Definition throw {A : Type} (message : string) : io A :=
  fun w => (Thrown message, w).

Definition bind {A B : Type} (c : io A) (k : A -> io B) : io B :=
  fun w =>
    match c w with
    | (Returned a, w') => k a w'
    | (Thrown m, w') => (Thrown m, w')
    end.

Definition try_catch {A : Type} (c : io A) (h : string -> io A) : io A :=
  fun w =>
    match c w with
    | (Returned a, w') => (Returned a, w')
    | (Thrown m, w') => h m w'
    end.

Notation "x <- c ;; k" := (bind c (fun x => k))
  (at level 61, c at next level, right associativity).

Definition send (calls : list upstream_call) : io unit :=
  fun w => (Returned tt,
            {| w_cache := w_cache w; w_calls := app (w_calls w) calls |}).

Definition get_cache : io (dict (summaryData * Z)) :=
  fun w => (Returned (w_cache w), w).

Definition set_cache (c : dict (summaryData * Z)) : io unit :=
  fun w => (Returned tt, {| w_cache := c; w_calls := w_calls w |}).

(** What a request finds around it. *)
Record environment : Type := {
  env_GITHUB_TOKEN : option string;   (* [process.env.GITHUB_TOKEN] *)
  env_upstream : upstream;
  env_now : Z;                        (* [Date.now()] at the cache lookup *)
  env_later : Z                       (* [Date.now()] at the cache store *)
}.

(** The error that [fetchAllActivityData] rethrows. *)
Definition upstream_error (username : string) (status : option Z)
  (message : string) : string :=
  match status with
  | Some 404 => "User " ++ dq ++ username ++ dq ++ " not found"
  | Some 403 =>
      "GitHub API rate limit exceeded. Please try again later or provide a token."
  | _ => message
  end.

(** [fetchAllActivityData]: the three requests are sent together; the
    first failure, in the order of the array, is the one reported. *)
Definition fetchAllActivityData `{JsEngine} (env : environment)
  (username : string) (token : option string) : io activityData :=
  _ <- send [GetUser username token; GetEvents username token;
             GetRepos username token] ;;
  match get_user (env_upstream env) username token,
        get_events (env_upstream env) username token,
        get_repos (env_upstream env) username token with
  | Ok p, Ok events, Ok repos => ret (activity_of p events repos)
  | Failed st m, _, _ => throw (upstream_error username st m)
  | _, Failed st m, _ => throw (upstream_error username st m)
  | _, _, Failed st m => throw (upstream_error username st m)
  end.

Definition CACHE_TTL : Z := 4 * 60 * 60 * 1000.

(** [getCachedData] of the serverless function. *)
Definition getCachedData `{JsEngine} (env : environment)
  (username : string) (token : option string) : io summaryData :=
  let cacheKey := "user:" ++ username in
  cache <- get_cache ;;
  match lookup cacheKey cache with
  | Some (data, timestamp) =>
      if env_now env - timestamp <? CACHE_TTL then ret data
      else
        activityData <- fetchAllActivityData env username token ;;
        let summaryData := generateActivitySummary activityData in
        cache <- get_cache ;;
        let cache := store cacheKey (summaryData, env_later env) cache in
        _ <- set_cache (if (1000 <? List.length cache)%nat
                        then tl cache else cache) ;;
        ret summaryData
  | None =>
      activityData <- fetchAllActivityData env username token ;;
      let summaryData := generateActivitySummary activityData in
      cache <- get_cache ;;
      let cache := store cacheKey (summaryData, env_later env) cache in
      _ <- set_cache (if (1000 <? List.length cache)%nat
                      then tl cache else cache) ;;
      ret summaryData
  end.

(** *** Requests and responses *)

Record request : Type := {
  q_username : option string;
  q_theme : option string;
  q_type : option string;
  q_border : option string;
  q_border_radius : option string;
  q_hide_stats : option string;
  q_hide_projects : option string;
  q_cache_seconds : option string;
  h_x_github_token : option string    (* [req.headers['x-github-token']] *)
}.

Inductive json : Type :=
| JString (s : string)
| JArray (l : list string).

Inductive body : Type :=
| Json (fields : list (string * json))
| Text (s : string).

Record response : Type := {
  status : Z;
  headers : list (string * string);
  res_body : body
}.

Definition alnum (c : ascii) : bool :=
  let n := N_of_ascii c in
  (((48 <=? n) && (n <=? 57)) || ((65 <=? n) && (n <=? 90))
   || ((97 <=? n) && (n <=? 122)))%N.

(** [(?:[a-zA-Z0-9]|-(?=[a-zA-Z0-9])){0,38}$] from the current position:
    at most [n] more characters, each alphanumeric or a hyphen that an
    alphanumeric follows, up to the end of the input. *)
Fixpoint login_tail (n : nat) (s : string) {struct s} : bool :=
  match s with
  | EmptyString => true
  | String c s' =>
      match n with
      | O => false
      | S n' =>
          if alnum c then login_tail n' s'
          else if is_char c 45 then
            match s' with
            | String d _ => alnum d && login_tail n' s'
            | EmptyString => false
            end
          else false
      end
  end.

(** [/^[a-zA-Z0-9](?:[a-zA-Z0-9]|-(?=[a-zA-Z0-9])){0,38}$/.test(username)] *)
Definition login_regex_test (username : string) : bool :=
  match username with
  | EmptyString => false
  | String c s' => alnum c && login_tail 38 s'
  end.

(** [s.startsWith(p)] *)
Fixpoint starts_with (p s : string) : bool :=
  match p with
  | EmptyString => true
  | String a p' =>
      match s with
      | String b s' => Ascii.eqb a b && starts_with p' s'
      | EmptyString => false
      end
  end.

(** [s.includes(pat)] *)
Fixpoint includes (pat s : string) : bool :=
  if starts_with pat s then true
  else
    match s with
    | EmptyString => false
    | String _ s' => includes pat s'
    end.

(** [generateErrorCard] *)
Definition generateErrorCard (message : string) : string :=
  let escapedMessage :=
    substring 0 100
      (replace_char 62 "&gt;"
         (replace_char 60 "&lt;" (replace_char 38 "&amp;" message))) in
  trim (
    nl ++ "<svg width=" ++ dq ++ "495" ++ dq ++ " height=" ++ dq ++
    "120" ++ dq ++ " viewBox=" ++ dq ++ "0 0 495 120" ++ dq ++ " fill=" ++
    dq ++ "none" ++ dq ++ " xmlns=" ++ dq ++
    "http://www.w3.org/2000/svg" ++ dq ++ ">" ++ nl ++
    "  <style>" ++ nl ++
    "    .header { font: 600 18px 'Segoe UI', Ubuntu, Sans-Serif; fill: #e74c3c; }" ++ nl ++
    "    .message { font: 400 14px 'Segoe UI', Ubuntu, Sans-Serif; fill: #666; }" ++ nl ++
    "  </style>" ++ nl ++
    "  <rect x=" ++ dq ++ "0.5" ++ dq ++ " y=" ++ dq ++ "0.5" ++ dq ++
    " rx=" ++ dq ++ "4.5" ++ dq ++ " width=" ++ dq ++ "494" ++ dq ++
    " height=" ++ dq ++ "119" ++ dq ++ " fill=" ++ dq ++ "#ffeef0" ++ dq ++
    " stroke=" ++ dq ++ "#e74c3c" ++ dq ++ " stroke-width=" ++ dq ++ "1" ++
    dq ++ "/>" ++ nl ++
    "  <text x=" ++ dq ++ "25" ++ dq ++ " y=" ++ dq ++ "35" ++ dq ++
    " class=" ++ dq ++ "header" ++ dq ++ ">Error</text>" ++ nl ++
    "  <text x=" ++ dq ++ "25" ++ dq ++ " y=" ++ dq ++ "60" ++ dq ++
    " class=" ++ dq ++ "message" ++ dq ++ ">" ++ escapedMessage ++
    "</text>" ++ nl ++
    "  <text x=" ++ dq ++ "25" ++ dq ++ " y=" ++ dq ++ "85" ++ dq ++
    " class=" ++ dq ++ "message" ++ dq ++
    ">Please check the username and try again.</text>" ++ nl ++
    "</svg>" ++ nl).

(** [x || y] on optional strings. *)
Definition or_else (x y : option string) : option string :=
  match nonempty x with
  | Some s => Some s
  | None => y
  end.

Definition is_text (t : string) (o : option string) : bool :=
  match o with
  | Some s => String.eqb s t
  | None => false
  end.

(** The options the handler hands to the renderer. *)
Definition handler_options `{JsEngine} (req : request) (theme : string)
  : cardOptions :=
  {| o_theme := Some theme;
     o_width := None;
     o_showBorder := Some (negb (is_text "false"
                                   (Some (or_default "true" (q_border req)))));
     o_borderRadius :=
       Some (match nonempty (q_border_radius req) with
             | Some r => parseFloat r
             | None => Fin (9 # 2)
             end);
     o_hideStats := Some (is_text "true" (q_hide_stats req));
     o_hideProjects := Some (is_text "true" (q_hide_projects req));
     o_layout := None |}.

(** [`public, max-age=${Math.min(cacheSeconds, 86400)}`] *)
Definition cache_control `{JsEngine} (req : request) : string :=
  let cacheSeconds :=
    match nonempty (q_cache_seconds req) with
    | Some cs => parseInt cs
    | None => Some 14400
    end in
  "public, max-age="
  ++ show_int (match cacheSeconds with
               | Some n => Some (Z.min n 86400)
               | None => None
               end).

(** The [switch (type)] of the handler. *)
Definition render_card `{JsEngine} (type : string) (sd : summaryData)
  (options : cardOptions) : io string :=
  if String.eqb type "compact" then ret (generateCompactCard sd options)
  else if String.eqb type "languages" then
    match generateLanguagesCard sd options with
    | Some svg => ret svg
    | None => throw undefined_length_message
    end
  else ret (generateActivityCard sd options).

Definition bad_request (fields : list (string * json)) : response :=
  {| status := 400;
     headers := [("Content-Type", "application/json")];
     res_body := Json fields |}.

(** The handler: the response, and the world it leaves. *)
Definition handler `{JsEngine} (env : environment) (req : request)
  (w : world) : response * world :=
  let theme := or_default "default" (q_theme req) in
  let type := or_default "activity" (q_type req) in
  match nonempty (q_username req) with
  | None =>
      (bad_request
         [("error", JString "Missing required parameter: username");
          ("usage", JString "/?username=YOUR_GITHUB_USERNAME")], w)
  | Some username =>
      if negb (login_regex_test username) then
        (bad_request [("error", JString "Invalid username format")], w)
      else
        match lookup theme themes with
        | None =>
            (bad_request
               [("error", JString ("Invalid theme: " ++ theme));
                ("available_themes", JArray (keys themes))], w)
        | Some _ =>
            let githubToken :=
              or_else (env_GITHUB_TOKEN env) (h_x_github_token req) in
            let attempt :=
              summaryData <- getCachedData env username githubToken ;;
              svg <- render_card type summaryData
                       (handler_options req theme) ;;
              ret {| status := 200;
                     headers := [("Cache-Control", cache_control req);
                                 ("Content-Type", "image/svg+xml")];
                     res_body := Text svg |} in
            match attempt w with
            | (Returned res, w') => (res, w')
            | (Thrown message, w') =>
                ({| status := if includes "not found" message
                              then 404 else 500;
                    headers :=
                      [("Content-Type", "image/svg+xml");
                       ("Cache-Control",
                        "no-cache, no-store, must-revalidate")];
                    res_body := Text (generateErrorCard message) |}, w')
            end
        end
  end.

(** ** The local development server ([src/index.js]) *)

(** A request as [handleRequest] sees it through [new URL(req.url, ...)]:
    the path name and the search parameters ([searchParams.get] gives
    [null], here [None], for a parameter that is absent). *)
Record dev_request : Type := {
  d_pathname : string;
  d_query : request
}.

(** JavaScript truthiness of a number: neither [NaN] nor zero. *)
Definition jsnum_truthy (x : jsnum) : bool :=
  match x with
  | NaN => false
  | Fin q => negb (Qeq_bool q 0)
  | _ => true
  end.

(** [getCachedData] of the development server: the same as that of the
    serverless function, without the clean-up of old entries. *)
Definition dev_getCachedData `{JsEngine} (env : environment)
  (username : string) (token : option string) : io summaryData :=
  let cacheKey := "user:" ++ username in
  cache <- get_cache ;;
  match lookup cacheKey cache with
  | Some (data, timestamp) =>
      if env_now env - timestamp <? CACHE_TTL then ret data
      else
        activityData <- fetchAllActivityData env username token ;;
        let summaryData := generateActivitySummary activityData in
        cache <- get_cache ;;
        _ <- set_cache (store cacheKey (summaryData, env_later env) cache) ;;
        ret summaryData
  | None =>
      activityData <- fetchAllActivityData env username token ;;
      let summaryData := generateActivitySummary activityData in
      cache <- get_cache ;;
      _ <- set_cache (store cacheKey (summaryData, env_later env) cache) ;;
      ret summaryData
  end.

(** The options that [handleRequest] hands to the renderer;
    [parseFloat(null)] reads the text [null]. *)
Definition dev_options `{JsEngine} (q : request) (theme : string)
  : cardOptions :=
  {| o_theme := Some theme;
     o_width := None;
     o_showBorder := Some (negb (is_text "false" (q_border q)));
     o_borderRadius :=
       Some (let parsed :=
               parseFloat (match q_border_radius q with
                           | Some s => s
                           | None => "null"
                           end) in
             if jsnum_truthy parsed then parsed else Fin (9 # 2));
     o_hideStats := Some (is_text "true" (q_hide_stats q));
     o_hideProjects := Some (is_text "true" (q_hide_projects q));
     o_layout := None |}.

(** [res.writeHead(st, { 'Content-Type': 'application/json' })] followed
    by [res.end(JSON.stringify(fields))]. *)
Definition json_response (st : Z) (fields : list (string * json))
  : response :=
  {| status := st;
     headers := [("Content-Type", "application/json")];
     res_body := Json fields |}.

Definition is_api_path (pathname : string) : bool :=
  String.eqb pathname "/" || String.eqb pathname "/api".

(** [handleRequest]: the response, and the world it leaves. *)
Definition handleRequest `{JsEngine} (env : environment) (req : dev_request)
  (w : world) : response * world :=
  let pathname := d_pathname req in
  let q := d_query req in
  if String.eqb pathname "/health" then
    (json_response 200 [("status", JString "ok")], w)
  else if is_api_path pathname then
    let theme := or_default "default" (nonempty (q_theme q)) in
    let type := or_default "activity" (nonempty (q_type q)) in
    match nonempty (q_username q) with
    | None =>
        (json_response 400
           [("error", JString "Missing required parameter: username");
            ("usage", JString "/?username=YOUR_GITHUB_USERNAME");
            ("available_themes", JArray (keys themes));
            ("available_types", JArray ["activity"; "compact"; "languages"])],
         w)
    | Some username =>
        match lookup theme themes with
        | None =>
            (json_response 400
               [("error", JString ("Invalid theme: " ++ theme));
                ("available_themes", JArray (keys themes))], w)
        | Some _ =>
            let attempt :=
              summaryData <- dev_getCachedData env username
                               (env_GITHUB_TOKEN env) ;;
              svg <- render_card type summaryData (dev_options q theme) ;;
              ret {| status := 200;
                     headers := [("Content-Type", "image/svg+xml");
                                 ("Cache-Control", "public, max-age=14400")];
                     res_body := Text svg |} in
            match attempt w with
            | (Returned res, w') => (res, w')
            | (Thrown message, w') =>
                (json_response
                   (if includes "not found" message then 404 else 500)
                   [("error", JString message)], w')
            end
        end
    end
  else (json_response 404 [("error", JString "Not found")], w).

(** *** The login grammar, in the words of the specification *)

Definition is_hyphen (c : ascii) : bool := is_char c 45.

Fixpoint all_chars (f : ascii -> bool) (s : string) : bool :=
  match s with
  | EmptyString => true
  | String c s' => f c && all_chars f s'
  end.

Definition starts_with_hyphen (s : string) : bool :=
  match s with
  | String c _ => is_hyphen c
  | EmptyString => false
  end.

Fixpoint ends_with_hyphen (s : string) : bool :=
  match s with
  | EmptyString => false
  | String c EmptyString => is_hyphen c
  | String _ s' => ends_with_hyphen s'
  end.

Fixpoint has_double_hyphen (s : string) : bool :=
  match s with
  | String c ((String d _) as s') =>
      (is_hyphen c && is_hyphen d) || has_double_hyphen s'
  | _ => false
  end.

(** A username violates the grammar: a character outside alphanumerics
    and hyphens, a leading, trailing or doubled hyphen, or more than 39
    characters. *)
Definition violates_login_grammar (s : string) : bool :=
  negb (all_chars (fun c => alnum c || is_hyphen c) s)
  || starts_with_hyphen s || ends_with_hyphen s || has_double_hyphen s
  || (39 <? String.length s)%nat.

(** ** Vocabulary of the statements *)

Definition is_key (k : string) (o : option string) : bool :=
  match o with
  | Some k' => String.eqb k k'
  | None => false
  end.

(** The total weight of the elements of [l] filed under the key [k]. *)
Fixpoint weight_under {A : Type} (key : A -> option string) (w : A -> Z)
  (k : string) (l : list A) : Z :=
  match l with
  | [] => 0
  | x :: r =>
      (if is_key k (key x) then w x else 0) + weight_under key w k r
  end.

(** Filing the elements of [l] one after the other, as the loops do. *)
Definition file_all {A : Type} (key : A -> option string) (w : A -> Z)
  (l : list A) (d : dict Z) : dict Z :=
  fold_left (fun acc x =>
               match key x with
               | Some k => bump k (w x) acc
               | None => acc
               end) l d.

(** The keys of [l] in order of first appearance. *)
Fixpoint first_seen (l : list (option string)) (seen : list string)
  : list string :=
  match l with
  | [] => []
  | None :: r => first_seen r seen
  | Some k :: r =>
      if existsb (String.eqb k) seen then first_seen r seen
      else k :: first_seen r (k :: seen)
  end.

Definition is_hour `{JsEngine} (h : Z) (e : event) : bool :=
  match event_hour e with
  | Some h' => h' =? h
  | None => false
  end.

Definition count_where {A : Type} (f : A -> bool) (l : list A) : Z :=
  Z.of_nat (List.length (filter f l)).

(** An event as the tests of the analyzer write them. *)
Definition sample_event (ty repo ts : string) : event :=
  {| type := ty; repo_name := Str repo; created_at := Str ts;
     event_payload := None |}.

Definition peak_sample : list event :=
  [ sample_event "PushEvent" "test/repo" "2024-03-05T10:00:00.000Z";
    sample_event "PushEvent" "test/repo" "2024-03-05T10:30:00.000Z";
    sample_event "PushEvent" "test/repo" "2024-03-05T15:00:00.000Z" ].

Definition entry_name (l : langEntry) : string :=
  match l with
  | LName n => n
  | LPair n _ => n
  end.

(** The summed size the contribution statistics hold for a language. *)
Definition size_in (cs : contributionStats) (l : string) : Z :=
  or_zero (lookup l (languages cs)).

Fixpoint descending (l : list Z) : bool :=
  match l with
  | a :: r =>
      match r with
      | b :: _ => (b <=? a) && descending r
      | [] => true
      end
  | [] => true
  end.

Definition with_stats (a : activityData) (cs : contributionStats)
  : activityData :=
  {| ad_profile := ad_profile a; ad_events := ad_events a;
     ad_eventAnalysis := ad_eventAnalysis a; ad_contributionStats := cs |}.

Definition sample_repo (full lang : string) (sz : Z) : repo :=
  {| repo_full_name := full; language := Str lang; size := sz;
     stargazers_count := 0; forks_count := 0 |}.

Definition sample_profile : profile :=
  {| login := "octocat"; name := Str "The Octocat";
     avatar_url := Str "https://example.com/avatar.png";
     html_url := Str "https://github.com/octocat" |}.

(** Two repositories, the smaller one pushed to more recently. *)
Definition two_language_repos : list repo :=
  [ sample_repo "octocat/scripts" "Python" 100;
    sample_repo "octocat/site" "JavaScript" 500 ].

(** *** Streaks *)

(** What the language specification fixes about [Date.parse]: a key of
    the date-only form denotes midnight UTC of its calendar day. *)
Class EcmaDateOnly (E : JsEngine) : Prop :=
  date_only_is_utc_midnight :
    forall k day, calendar_day k = Some day ->
                  Date_parse k = Some (day * msPerDay).

(** The calendar day an event falls on, from the date portion of its
    timestamp. *)
Definition event_day (e : event) : option Z :=
  match date_key e with
  | Some k => calendar_day k
  | None => None
  end.

Fixpoint days_of (events : list event) : list Z :=
  match events with
  | [] => []
  | e :: r =>
      match event_day e with
      | Some d => d :: days_of r
      | None => days_of r
      end
  end.

(** Every date portion that is tracked is a calendar date [YYYY-MM-DD]. *)
Definition well_dated (events : list event) : Prop :=
  forall e k, In e events -> date_key e = Some k -> calendar_day k <> None.

(** The [len] consecutive days from [first] on all have an event. *)
Definition is_run (days : list Z) (first len : Z) : Prop :=
  forall i, 0 <= i < len -> In (first + i) days.

(** [n] is the length of the longest run of consecutive days. *)
Definition longest_run (days : list Z) (n : Z) : Prop :=
  0 <= n
  /\ (exists first, is_run days first n)
  /\ (forall first len, is_run days first len -> len <= n).

(** The loop of the streak on day numbers. *)
Fixpoint day_loop (prev : Z) (rest : list Z) (cur mx : Z) : Z :=
  match rest with
  | [] => Z.max mx cur
  | c :: rest' =>
      if c - prev =? 1 then day_loop c rest' (cur + 1) mx
      else day_loop c rest' 1 (Z.max mx cur)
  end.

(** What the loop knows after the day [prev]: the run that ends there
    has length [cur], and [mx] is the longest run that ended before. *)
Definition run_invariant (seen : list Z) (prev cur mx : Z) : Prop :=
  1 <= cur /\ 0 <= mx
  /\ is_run seen (prev - cur + 1) cur
  /\ ~ In (prev - cur) seen
  /\ (exists first, is_run seen first mx)
  /\ (forall first len, is_run seen first len -> len <= Z.max mx cur).

Definition day_of (k : string) : Z :=
  match calendar_day k with
  | Some d => d
  | None => 0
  end.

(** The shape of a date key. *)
Definition key_shape (s : string) (c1 c2 c3 c4 c5 c6 c7 c8 : ascii) : Prop :=
  s = String c1 (String c2 (String c3 (String c4 (String "-"
        (String c5 (String c6 (String "-"
          (String c7 (String c8 EmptyString))))))))).

Definition leap_day (y : Z) : Z := if is_leap y then 1 else 0.

Definition streak_sample : list event :=
  [ sample_event "PushEvent" "test/repo" "2024-01-15T10:00:00Z";
    sample_event "PushEvent" "test/repo" "2024-01-16T10:00:00Z";
    sample_event "PushEvent" "test/repo" "2024-01-17T10:00:00Z" ].

Definition gap_sample : list event :=
  [ sample_event "PushEvent" "test/repo" "2024-01-18T09:00:00Z";
    sample_event "PushEvent" "test/repo" "2024-01-15T10:00:00Z";
    sample_event "PushEvent" "test/repo" "2024-01-17T23:59:59Z" ].

Definition garbage_sample : list event :=
  [ sample_event "PushEvent" "octocat/hello" "garbage" ].

Definition request_for (username : string) : request :=
  {| q_username := Some username; q_theme := None; q_type := None;
     q_border := None; q_border_radius := None; q_hide_stats := None;
     q_hide_projects := None; q_cache_seconds := None;
     h_x_github_token := None |}.

Definition empty_world : world := {| w_cache := []; w_calls := [] |}.

(** An upstream that knows the user [octocat] and nobody else. *)
Definition sample_upstream : upstream :=
  {| get_user := fun u _ =>
       if String.eqb u "octocat" then Ok sample_profile
       else Failed (Some 404) "Request failed with status code 404";
     get_events := fun u _ =>
       if String.eqb u "octocat" then Ok streak_sample
       else Failed (Some 404) "Request failed with status code 404";
     get_repos := fun u _ =>
       if String.eqb u "octocat" then Ok two_language_repos
       else Failed (Some 404) "Request failed with status code 404" |}.

Definition sample_environment : environment :=
  {| env_GITHUB_TOKEN := None; env_upstream := sample_upstream;
     env_now := 1700000000000; env_later := 1700000000250 |}.

(** *** Markup *)

(** [pat] occurs in [s]. *)
Definition Contains (pat s : string) : Prop :=
  exists a b, s = a ++ pat ++ b.

Definition no_lt (s : string) : bool :=
  all_chars (fun c => negb (is_char c 60)) s.

(** What the language specification fixes about the printing of a
    fraction: digits, a full stop, a sign, an exponent; in any case no
    angle bracket. *)
Class PlainFractions (E : JsEngine) : Prop :=
  fraction_plain : forall q, no_lt (fraction_toString q) = true.

Definition script_tag : string := "<script>".

(** How much of [script_tag] has just been read: one step of the search
    for the tag, and the search over a string.  State 8 is a match. *)
Definition scan_step (k : nat) (c : ascii) : nat :=
  if (8 <=? k)%nat then 8%nat
  else
    match get k script_tag with
    | Some e =>
        if Ascii.eqb c e then S k
        else if is_char c 60 then 1%nat else 0%nat
    | None => 8%nat
    end.

Fixpoint scan (k : nat) (s : string) : nat :=
  match s with
  | EmptyString => k
  | String c s' => scan (scan_step k c) s'
  end.

(** Read from the start, [s] holds no part of the tag at its end, and
    not the tag. *)
Definition Clean (s : string) : Prop := scan 0 s = 0%nat.

Definition special (c : ascii) : bool :=
  is_char c 60 || is_char c 62 || is_char c 34 || is_char c 39.

(** No markup-special character but in its escaped form. *)
Fixpoint only_escaped (s : string) : bool :=
  match s with
  | EmptyString => true
  | String c s' =>
      if special c then false
      else if is_char c 38 then
        (starts_with "amp;" s' || starts_with "lt;" s'
         || starts_with "gt;" s' || starts_with "quot;" s'
         || starts_with "#39;" s')
        && only_escaped s'
      else only_escaped s'
  end.

(** The escaped form of one character. *)
Definition esc_char (c : ascii) : string :=
  if is_char c 38 then "&amp;"
  else if is_char c 60 then "&lt;"
  else if is_char c 62 then "&gt;"
  else if is_char c 34 then "&quot;"
  else if is_char c 39 then "&#39;"
  else String c EmptyString.

Fixpoint escape_each (s : string) : string :=
  match s with
  | EmptyString => EmptyString
  | String c s' => esc_char c ++ escape_each s'
  end.

Definition theme_plain (t : theme) : bool :=
  no_lt (th_background t) && no_lt (th_border t) && no_lt (th_title t)
  && no_lt (th_text t) && no_lt (th_icon t) && no_lt (th_accent t).

Definition last_char_plain (s : string) : Prop :=
  exists t c, s = t ++ String c "" /\ is_space c = false.

(** The summary of the renderer's tests, with the display name of the
    escaping test. *)
Definition xss_summary : summaryData :=
  {| username := "testuser";
     displayName :=
       "Test <script>alert(" ++ dq ++ "xss" ++ dq ++ ")</script> User";
     avatarUrl := Str "https://example.com/avatar.png";
     profileUrl := Str "https://github.com/testuser";
     notablePatterns :=
       [ {| p_type := streak; severity := None;
            description := "7-day activity streak" |};
         {| p_type := schedule; severity := None;
            description := "an early bird, most productive in the morning" |} ];
     achievements := ["Code Review Champion"];
     activityHighlights := [];
     primaryLanguage := Some "JavaScript";
     sd_languages := [LName "JavaScript"; LName "Python"; LName "TypeScript"];
     recentProjects :=
       [ {| pr_name := "project1"; pr_fullName := "testuser/project1";
            pr_activityType := "code commits"; pr_lastActive := Undefined;
            pr_detail := Str "Initial commit" |};
         {| pr_name := "project2"; pr_fullName := "testuser/project2";
            pr_activityType := "pull requests"; pr_lastActive := Undefined;
            pr_detail := Str "Add new feature" |} ];
     summary :=
       "Test User is a developer who primarily works with JavaScript. They are an early bird, most productive in the morning.";
     sd_stats :=
       {| s_totalEvents := 25; s_totalRepos := 15; s_totalStars := 50;
          s_activityStreak := 7 |} |}.

(** *** The languages card on the synthesizer's summary *)

(** What the language specification fixes about [ToNumber] on a string
    of one character: a digit and white space are numbers, nothing else
    is. *)
Class EcmaStringToNumber (E : JsEngine) : Prop :=
  one_char_not_numeric :
    forall c, digit_val c = None -> is_space c = false ->
              StringToNumber (String c "") = NaN.

Definition first_char (n : string) : string :=
  match n with
  | String c _ => String c EmptyString
  | EmptyString => EmptyString
  end.

(** The second character of the name, if there is one, is no digit and
    no white space. *)
Definition plain_second (n : string) : bool :=
  match n with
  | String _ (String c _) =>
      match digit_val c with
      | Some _ => false
      | None => negb (is_space c)
      end
  | _ => true
  end.

(** The label that the card draws for a summary entry that is a name. *)
Definition name_datum (percentage : string) (n : string) : languageDatum :=
  {| ld_name := Some (first_char n);
     ld_percentage := percentage;
     ld_color := language_color (Some (first_char n)) |}.

(** One repository in the macro language M4. *)
Definition m4_repos : list repo := [ sample_repo "octocat/macros" "M4" 10 ].

(** ** Vocabulary of the further statements *)

(** *** Counting the events of a repository, of a kind, of a date *)

Definition in_repo (r : string) (e : event) : bool :=
  is_key r (Some (repo_key e)).

Definition of_kind (k : string) (e : event) : bool :=
  is_key k (Some (type e)).

Definition on_date (k : string) (e : event) : bool :=
  is_key k (date_key e).

(** Entries in descending order of their counts. *)
Definition count_ge (a b : string * Z) : Prop := snd b <= snd a.

(** No character of [s] is the separator [c]. *)
Definition free_of (c : N) (s : string) : bool :=
  all_chars (fun a => negb (is_char a c)) s.

(** The project that [extractRecentProjects] records for the repository
    [repoName] on meeting the event [e]. *)
Definition project_of (repoName : string) (e : event) : project :=
  {| pr_name := short_name repoName;
     pr_fullName := repoName;
     pr_activityType :=
       match EVENT_DESCRIPTIONS (type e) with
       | Some d => d
       | None => type e
       end;
     pr_lastActive := created_at e;
     pr_detail := project_detail e |}.

(** [e] is the first event of [events] in the repository [repoName]. *)
Definition first_event_of (repoName : string) (e : event)
  (events : list event) : Prop :=
  exists before after,
    events = (before ++ e :: after)%list
    /\ truthy (repo_name e) = Some repoName
    /\ forall e', In e' before -> truthy (repo_name e') <> Some repoName.

(** What the loop of [extractRecentProjects] holds after the events
    [done]: the repositories in order of first appearance, each with
    the project of its first event. *)
Definition projects_invariant (done : list event) (m : list project) : Prop :=
  map pr_fullName m = first_seen (map (fun e => truthy (repo_name e)) done) []
  /\ forall p, In p m ->
       exists e, first_event_of (pr_fullName p) e done
                 /\ p = project_of (pr_fullName p) e.

(** *** Wrapping *)

(** The only white space of [s] is the space character. *)
Definition plain_blank (s : string) : bool :=
  all_chars (fun c => negb (is_space c) || is_char c 32) s.

(** [s] holds no white space at all. *)
Definition solid (s : string) : bool :=
  all_chars (fun c => negb (is_space c)) s.

Definition blank (s : string) : bool := all_chars is_space s.

Definition is_word (w : string) : bool :=
  negb (String.eqb w "") && solid w.

(** A line of the wrapped text is short enough, or it is one word. *)
Definition fits (maxChars : nat) (line : string) : Prop :=
  (String.length line <= maxChars)%nat \/ free_of 32 line = true.

(** [s] starts and ends with a character that is not white space. *)
Definition tight (s : string) : Prop :=
  (exists c r, s = String c r /\ is_space c = false) /\ last_char_plain s.

(** The lines that [wrapText] has pushed and the line it is filling,
    as groups of words. *)
Definition wrap_invariant (done : list string) (st : list string * string)
  : Prop :=
  exists groups g,
    fst st = map (String.concat " ") groups
    /\ Forall (fun gr => gr <> [] /\ forallb is_word gr = true) groups
    /\ forallb is_word g = true
    /\ snd st = String.concat " " g
    /\ (List.concat groups ++ g)%list = filter is_word done.

(** *** Escaping *)

(** One of the five characters that [escapeHtml] replaces. *)
Definition escaped_char (c : ascii) : bool := is_char c 38 || special c.

(** *** The frame of a card *)

(** The markup opens the [svg] element after one line break. *)
Definition opens_svg (s : string) : Prop :=
  exists rest, s = nl ++ "<svg width=" ++ rest.

(** The markup closes the [svg] element and ends with a line break. *)
Definition closes_svg (s : string) : Prop :=
  exists body, s = body ++ "</svg>" ++ nl.

(** The [yOffset] that a sequence of stretches leaves. *)
Fixpoint end_offset (l : list stretch) (yOffset : Z) : Z :=
  match l with
  | [] => yOffset
  | f :: r => end_offset r (snd (f yOffset))
  end.

Definition datum_plain (d : languageDatum) : bool :=
  no_lt (ld_percentage d) && no_lt (ld_color d).

(** *** Requests that pass the checks of the handler *)

(** The members of [Object.prototype], which [themes[theme]] finds on
    the table although the table does not define them. *)
Definition Object_prototype_names : list string :=
  [ "constructor"; "__proto__"; "hasOwnProperty"; "isPrototypeOf";
    "propertyIsEnumerable"; "toLocaleString"; "toString"; "valueOf";
    "__defineGetter__"; "__defineSetter__"; "__lookupGetter__";
    "__lookupSetter__" ].

(** The request names the user [u] in the login grammar and a theme of
    the table. *)
Definition valid_request (req : request) (u : string) : Prop :=
  nonempty (q_username req) = Some u
  /\ login_regex_test u = true
  /\ lookup (or_default "default" (q_theme req)) themes <> None.

(** [process.env.GITHUB_TOKEN || req.headers['x-github-token']] *)
Definition token_of (env : environment) (req : request) : option string :=
  or_else (env_GITHUB_TOKEN env) (h_x_github_token req).

(** What the cache holds for the user and is younger than [CACHE_TTL]. *)
Definition cached_fresh (env : environment) (u : string) (w : world)
  : option summaryData :=
  match lookup ("user:" ++ u) (w_cache w) with
  | Some (data, timestamp) =>
      if env_now env - timestamp <? CACHE_TTL then Some data else None
  | None => None
  end.

(** The card that the [switch] selects, [None] when the renderer
    throws. *)
Definition card_of `{JsEngine} (type : string) (sd : summaryData)
  (options : cardOptions) : option string :=
  if String.eqb type "compact" then Some (generateCompactCard sd options)
  else if String.eqb type "languages" then generateLanguagesCard sd options
  else Some (generateActivityCard sd options).

Definition success_response `{JsEngine} (req : request) (svg : string)
  : response :=
  {| status := 200;
     headers := [("Cache-Control", cache_control req);
                 ("Content-Type", "image/svg+xml")];
     res_body := Text svg |}.

Definition failure_response (message : string) : response :=
  {| status := if includes "not found" message then 404 else 500;
     headers := [("Content-Type", "image/svg+xml");
                 ("Cache-Control", "no-cache, no-store, must-revalidate")];
     res_body := Text (generateErrorCard message) |}.

(** The three requests of [fetchAllActivityData]. *)
Definition calls_for (u : string) (token : option string)
  : list upstream_call :=
  [GetUser u token; GetEvents u token; GetRepos u token].

(** The errors that [fetchAllActivityData] would rethrow for the replies
    that failed, in the order of the requests. *)
Definition failure_of {A : Type} (u : string) (r : reply A) : list string :=
  match r with
  | Ok _ => []
  | Failed st m => [upstream_error u st m]
  end.

Definition failures (env : environment) (u : string) (token : option string)
  : list string :=
  app (failure_of u (get_user (env_upstream env) u token))
    (app (failure_of u (get_events (env_upstream env) u token))
       (failure_of u (get_repos (env_upstream env) u token))).

(** The world after the three requests went out. *)
Definition after_calls (u : string) (token : option string) (w : world)
  : world :=
  {| w_cache := w_cache w; w_calls := app (w_calls w) (calls_for u token) |}.

(** [cache.set] followed by the clean-up of the oldest entry. *)
Definition cache_put (key : string) (sd : summaryData) (now : Z)
  (cache : dict (summaryData * Z)) : dict (summaryData * Z) :=
  let cache := store key (sd, now) cache in
  if (1000 <? List.length cache)%nat then tl cache else cache.

(** A cache holding one summary, stored one second before the request
    of [sample_environment]. *)
Definition warm_world : world :=
  {| w_cache := [("user:octocat", (xss_summary, 1699999999000))];
     w_calls := [] |}.

(** *** The development server *)

(** The request reaches the card endpoint of the development server,
    names a user and a theme of the table. *)
Definition dev_valid (req : dev_request) (u : string) : Prop :=
  d_pathname req <> "/health"
  /\ is_api_path (d_pathname req) = true
  /\ nonempty (q_username (d_query req)) = Some u
  /\ lookup (or_default "default" (nonempty (q_theme (d_query req)))) themes
     <> None.

Definition dev_request_for (username : string) : dev_request :=
  {| d_pathname := "/"; d_query := request_for username |}.

(** A request for the compact card in the theme [dark], with a border
    radius. *)
Definition compact_request : dev_request :=
  {| d_pathname := "/api";
     d_query :=
       {| q_username := Some "octocat"; q_theme := Some "dark";
          q_type := Some "compact"; q_border := None;
          q_border_radius := Some "10"; q_hide_stats := None;
          q_hide_projects := None; q_cache_seconds := None;
          h_x_github_token := None |} |}.

(** *** The sentences of the narrative *)

(** The sentence that opens the narrative. *)
Definition opening_sentence (p : profile) (primaryLanguage : option string)
  : string :=
  match nonempty primaryLanguage with
  | Some l =>
      display_name p ++ " is a developer who primarily works with " ++ l
      ++ "."
  | None => display_name p ++ " is an active developer on GitHub."
  end.

Definition schedule_sentence (peakHour : Z) : string :=
  "They are " ++ timeDescription peakHour ++ ".".

(** The sentence about the streak, by its length. *)
Definition streak_sentences (days : Z) : list string :=
  if 30 <=? days
  then ["Impressively, they've maintained a "
          ++ (Number_toString days ++ "-day activity streak") ++ "!"]
  else if 7 <=? days
  then ["They've been on a "
          ++ (Number_toString days ++ "-day activity streak") ++ "."]
  else [].

(** One statistic of the compact card, as it is drawn. *)
Definition compact_stat (label : string) (value : string) (unit : string)
  : string :=
  ">" ++ label ++ ": <tspan class=" ++ dq ++ "value" ++ dq ++ ">" ++ value
  ++ unit ++ "</tspan></text>".

(* ================================================================== *)
(** * Part II: theorems *)
(* ================================================================== *)

(** ** Dictionaries *)

Section DictFacts.

Lemma lookup_store_same {V : Type} (k : string) (v : V) (d : dict V) :
  lookup k (store k v d) = Some v.
Proof.
  induction d as [|[k' v'] d IH]; simpl.
  - now rewrite String.eqb_refl.
  - destruct (String.eqb k k') eqn:E; simpl; rewrite ?String.eqb_refl, ?E; auto.
Qed.

Lemma lookup_store_other {V : Type} (k k0 : string) (v : V) (d : dict V) :
  k0 <> k -> lookup k0 (store k v d) = lookup k0 d.
Proof.
  intros Hne. induction d as [|[k' v'] d IH]; simpl.
  - destruct (String.eqb k0 k) eqn:E; auto.
    apply String.eqb_eq in E. contradiction.
  - destruct (String.eqb k k') eqn:E; simpl.
    + apply String.eqb_eq in E. subst k'.
      destruct (String.eqb k0 k) eqn:E0; auto.
      apply String.eqb_eq in E0. contradiction.
    + now rewrite IH.
Qed.

Lemma sum_values_store (k : string) (v : Z) (d : dict Z) :
  sum (values (store k v d)) = sum (values d) - or_zero (lookup k d) + v.
Proof.
  unfold sum, values.
  induction d as [|[k' v'] d IH]; simpl.
  - lia.
  - destruct (String.eqb k k') eqn:E; simpl.
    + lia.
    + rewrite IH. lia.
Qed.

Lemma sum_values_bump (k : string) (n : Z) (d : dict Z) :
  sum (values (bump k n d)) = sum (values d) + n.
Proof. unfold bump. rewrite sum_values_store. lia. Qed.

Lemma keys_store_old {V : Type} (k : string) (v : V) (d : dict V) :
  In k (keys d) -> keys (store k v d) = keys d.
Proof.
  induction d as [|[k' v'] d IH]; simpl; intros Hin.
  - contradiction.
  - destruct (String.eqb k k') eqn:E; simpl.
    + apply String.eqb_eq in E. now subst.
    + f_equal. apply IH. destruct Hin as [->|H]; auto.
      now rewrite String.eqb_refl in E.
Qed.

Lemma keys_store_new {V : Type} (k : string) (v : V) (d : dict V) :
  ~ In k (keys d) -> keys (store k v d) = (keys d ++ [k])%list.
Proof.
  induction d as [|[k' v'] d IH]; simpl; intros Hin.
  - reflexivity.
  - destruct (String.eqb k k') eqn:E; simpl.
    + apply String.eqb_eq in E. subst. tauto.
    + f_equal. apply IH. tauto.
Qed.

Lemma lookup_None_keys {V : Type} (k : string) (d : dict V) :
  lookup k d = None <-> ~ In k (keys d).
Proof.
  induction d as [|[k' v'] d IH]; simpl.
  - tauto.
  - destruct (String.eqb k k') eqn:E.
    + apply String.eqb_eq in E. subst. split; [discriminate | tauto].
    + rewrite IH. apply String.eqb_neq in E. split; intros H; [|tauto].
      intros [->|H1]; tauto.
Qed.

End DictFacts.

(** ** Filing under keys *)

Lemma file_all_lookup {A : Type} (key : A -> option string) (w : A -> Z)
  (k : string) (l : list A) (d : dict Z) :
  or_zero (lookup k (file_all key w l d))
  = or_zero (lookup k d) + weight_under key w k l.
Proof.
  revert d. induction l as [|x r IH]; intros d; simpl.
  - lia.
  - unfold file_all in *. simpl. rewrite IH.
    destruct (key x) as [k'|]; simpl.
    + destruct (String.eqb k k') eqn:E.
      * apply String.eqb_eq in E. subst k'. unfold bump.
        rewrite lookup_store_same. simpl. lia.
      * apply String.eqb_neq in E. unfold bump.
        rewrite lookup_store_other by assumption. lia.
    + lia.
Qed.

Lemma file_all_sum {A : Type} (key : A -> option string) (w : A -> Z)
  (l : list A) (d : dict Z) :
  sum (values (file_all key w l d))
  = sum (values d)
    + sum (map (fun x => match key x with Some _ => w x | None => 0 end) l).
Proof.
  revert d. induction l as [|x r IH]; intros d; simpl.
  - lia.
  - unfold file_all in *. simpl. rewrite IH.
    destruct (key x); rewrite ?sum_values_bump; lia.
Qed.

(** ** The loop of the analyzer, field by field *)

Section Tally.
Context {E : JsEngine}.

Lemma tally_eventCounts (l : list event) (t : tally) :
  t_eventCounts (fold_left tally_step l t)
  = file_all (fun e => Some (type e)) (fun _ => 1) l (t_eventCounts t).
Proof.
  revert t. induction l as [|e r IH]; intros t; simpl; [reflexivity|].
  rewrite IH. reflexivity.
Qed.

Lemma tally_repoActivity (l : list event) (t : tally) :
  t_repoActivity (fold_left tally_step l t)
  = file_all (fun e => Some (repo_key e)) (fun _ => 1) l (t_repoActivity t).
Proof.
  revert t. induction l as [|e r IH]; intros t; simpl; [reflexivity|].
  rewrite IH. reflexivity.
Qed.

Lemma tally_dailyActivity (l : list event) (t : tally) :
  t_dailyActivity (fold_left tally_step l t)
  = file_all date_key (fun _ => 1) l (t_dailyActivity t).
Proof.
  revert t. induction l as [|e r IH]; intros t; simpl; [reflexivity|].
  rewrite IH. reflexivity.
Qed.

Lemma incr_at_length (i : nat) (l : list Z) :
  List.length (incr_at i l) = List.length l.
Proof.
  revert i. induction l as [|x r IH]; intros [|i]; simpl; auto.
Qed.

Lemma nth_incr_at (i j : nat) (l : list Z) :
  (i < List.length l)%nat ->
  nth j (incr_at i l) 0 = nth j l 0 + (if Nat.eqb j i then 1 else 0).
Proof.
  revert i j. induction l as [|x r IH]; intros i j Hi; simpl in *; [lia|].
  destruct i as [|i], j as [|j]; simpl; try lia.
  apply IH. lia.
Qed.

Lemma getHours_range (t : Z) : 0 <= getHours t < 24.
Proof. unfold getHours. apply Z.mod_pos_bound. lia. Qed.

Lemma event_hour_range (e : event) (h : Z) :
  event_hour e = Some h -> 0 <= h < 24.
Proof.
  unfold event_hour. destruct (Date_new (created_at e)); intros H; inversion H.
  apply getHours_range.
Qed.

Lemma tally_hourlyActivity (l : list event) (t : tally) :
  List.length (t_hourlyActivity t) = 24%nat ->
  List.length (t_hourlyActivity (fold_left tally_step l t)) = 24%nat /\
  forall h, 0 <= h < 24 ->
    nth (Z.to_nat h) (t_hourlyActivity (fold_left tally_step l t)) 0
    = nth (Z.to_nat h) (t_hourlyActivity t) 0 + count_where (is_hour h) l.
Proof.
  revert t. induction l as [|e r IH]; intros t Hlen; simpl.
  - split; [assumption|]. intros h _. unfold count_where. simpl. lia.
  - assert (Hstep : List.length (t_hourlyActivity (tally_step t e)) = 24%nat).
    { simpl. destruct (event_hour e); [rewrite incr_at_length|]; assumption. }
    destruct (IH _ Hstep) as [Hl Hn]. split; [assumption|].
    intros h Hh. rewrite (Hn h Hh). unfold count_where, is_hour. simpl.
    destruct (event_hour e) as [h'|] eqn:Eh.
    + pose proof (event_hour_range e h' Eh) as Hr.
      rewrite nth_incr_at by lia.
      destruct (h' =? h) eqn:Ehh.
      * apply Z.eqb_eq in Ehh. subst h'. rewrite Nat.eqb_refl. simpl List.length. lia.
      * apply Z.eqb_neq in Ehh.
        destruct (Nat.eqb (Z.to_nat h) (Z.to_nat h')) eqn:En.
        -- apply Nat.eqb_eq in En. lia.
        -- lia.
    + lia.
Qed.

Lemma hourly_counts (events : list event) (h : Z) :
  0 <= h < 24 ->
  nth (Z.to_nat h) (t_hourlyActivity (tally_events events)) 0
  = count_where (is_hour h) events.
Proof.
  intros Hh. unfold tally_events.
  destruct (tally_hourlyActivity events tally0 eq_refl) as [_ Hn].
  rewrite (Hn h Hh).
  change (t_hourlyActivity tally0) with (repeat 0 24).
  rewrite nth_repeat. lia.
Qed.

Lemma hourly_length (events : list event) :
  List.length (t_hourlyActivity (tally_events events)) = 24%nat.
Proof. apply (tally_hourlyActivity events tally0 eq_refl). Qed.

End Tally.

(** ** The first maximum of an array *)

Lemma fold_max_ge (r : list Z) (x : Z) :
  x <= fold_left Z.max r x /\ forall y, In y r -> y <= fold_left Z.max r x.
Proof.
  revert x. induction r as [|a r IH]; intros x; simpl.
  - split; [lia | tauto].
  - destruct (IH (Z.max x a)) as [H1 H2]. split; [lia|].
    intros y [->|Hy]; [lia | auto].
Qed.

Lemma fold_max_in (r : list Z) (x : Z) : In (fold_left Z.max r x) (x :: r).
Proof.
  revert x. induction r as [|a r IH]; intros x; simpl.
  - now left.
  - destruct (IH (Z.max x a)) as [H|H].
    + destruct (Z.max_spec x a) as [[_ Hm]|[_ Hm]]; rewrite Hm in *; auto.
    + auto.
Qed.

Lemma indexOf_from_spec (v : Z) (l : list Z) (i : Z) :
  In v l ->
  exists n, indexOf_from v l i = i + Z.of_nat n /\ (n < List.length l)%nat /\
            nth n l 0 = v /\ forall j, (j < n)%nat -> nth j l 0 <> v.
Proof.
  revert i. induction l as [|x r IH]; intros i Hin; simpl in *; [tauto|].
  destruct (x =? v) eqn:Ex.
  - apply Z.eqb_eq in Ex. exists 0%nat. repeat split; simpl; lia.
  - apply Z.eqb_neq in Ex. destruct Hin as [Hx|Hin]; [contradiction|].
    destruct (IH (i + 1) Hin) as (n & H1 & H2 & H3 & H4).
    exists (S n). repeat split; try lia; try assumption.
    intros [|j] Hj; [assumption | apply H4; lia].
Qed.

Lemma peak_of_spec (l : list Z) :
  l <> [] ->
  exists n, peak_of l = Z.of_nat n /\ (n < List.length l)%nat /\
    (forall j, (j < List.length l)%nat -> nth j l 0 <= nth n l 0) /\
    (forall j, (j < n)%nat -> nth j l 0 < nth n l 0).
Proof.
  destruct l as [|x r]; [congruence|]. intros _.
  unfold peak_of, Math_max, indexOf.
  set (m := fold_left Z.max r x).
  destruct (indexOf_from_spec m (x :: r) 0 (fold_max_in r x))
    as (n & H1 & H2 & H3 & H4).
  assert (Hmax : forall j, (j < List.length (x :: r))%nat -> nth j (x :: r) 0 <= m).
  { intros j Hj. pose proof (nth_In (x :: r) 0 Hj) as Hin.
    destruct (fold_max_ge r x) as [Hx Hr].
    destruct Hin as [Hin|Hin]; [rewrite <- Hin; exact Hx | apply Hr, Hin]. }
  exists n. rewrite H1, H3. repeat split; try lia; try assumption.
  intros j Hj. specialize (H4 j Hj). specialize (Hmax j ltac:(lia)). lia.
Qed.

(** ** Counting events *)

Lemma sum_map_one {A : Type} (l : list A) :
  sum (map (fun _ : A => 1) l) = Z.of_nat (List.length l).
Proof.
  unfold sum. induction l as [|x r IH]; cbn [map fold_right List.length];
    [reflexivity | rewrite IH; lia].
Qed.

Lemma weight_under_app {A : Type} (key : A -> option string) (w : A -> Z)
  (k : string) (l1 l2 : list A) :
  weight_under key w k (l1 ++ l2)
  = weight_under key w k l1 + weight_under key w k l2.
Proof. induction l1 as [|x r IH]; simpl; lia. Qed.

Lemma count_where_app {A : Type} (f : A -> bool) (l1 l2 : list A) :
  count_where f (l1 ++ l2) = count_where f l1 + count_where f l2.
Proof.
  unfold count_where. rewrite filter_app, length_app. lia.
Qed.

Lemma count_where_cons {A : Type} (f : A -> bool) (x : A) (l : list A) :
  count_where f (x :: l) = (if f x then 1 else 0) + count_where f l.
Proof.
  unfold count_where. simpl. destruct (f x); simpl List.length; lia.
Qed.

Lemma count_where_nonneg {A : Type} (f : A -> bool) (l : list A) :
  0 <= count_where f l.
Proof. unfold count_where. lia. Qed.

Lemma file_all_app {A : Type} (key : A -> option string) (w : A -> Z)
  (l1 l2 : list A) (d : dict Z) :
  file_all key w (l1 ++ l2) d = file_all key w l2 (file_all key w l1 d).
Proof. unfold file_all. apply fold_left_app. Qed.


(** C6: [peakHour] is the first index of the maximum of the 24 hourly
    counters, where the counter of hour [h] is the number of events whose
    timestamp parses to local hour [h]: no hour has more events than the
    peak hour and every earlier hour has strictly fewer.  Hence two events
    at hour 10 and one at hour 15 give 10, and no event gives 0. *)
Theorem peakHour_is_first_maximum (E : JsEngine) (events : list event) :
  let hourly := fun h => count_where (is_hour h) events in
  let p := peakHour (analyzeEvents events) in
  0 <= p < 24
  /\ (forall h, 0 <= h < 24 -> hourly h <= hourly p)
  /\ (forall h, 0 <= h < p -> hourly h < hourly p)
  /\ (hourly 10 = 2 -> hourly 15 = 1 ->
      (forall h, h <> 10 -> h <> 15 -> hourly h = 0) -> p = 10)
  /\ peakHour (analyzeEvents []) = 0.
Proof.
  intros hourly p.
  assert (Hne : t_hourlyActivity (tally_events events) <> []).
  { intros H. pose proof (hourly_length events) as Hl. rewrite H in Hl.
    discriminate. }
  destruct (peak_of_spec _ Hne) as (n & Hp & Hn & Hmax & Hfirst).
  rewrite hourly_length in Hn, Hmax.
  assert (Hpn : p = Z.of_nat n) by exact Hp.
  assert (Hat : forall h, 0 <= h < 24 ->
            nth (Z.to_nat h) (t_hourlyActivity (tally_events events)) 0
            = hourly h).
  { intros h Hh. apply hourly_counts. exact Hh. }
  assert (H1 : forall h, 0 <= h < 24 -> hourly h <= hourly p).
  { intros h Hh. rewrite <- (Hat h Hh), <- (Hat p) by lia.
    rewrite Hpn, Nat2Z.id. apply Hmax. lia. }
  assert (H2 : forall h, 0 <= h < p -> hourly h < hourly p).
  { intros h Hh. rewrite <- (Hat h), <- (Hat p) by lia.
    rewrite Hpn, Nat2Z.id. apply Hfirst. lia. }
  repeat split; try lia; try assumption.
  - intros H10 H15 H0.
    destruct (Z.eq_dec p 10) as [|Hne10]; [assumption|].
    specialize (H1 10 ltac:(lia)). rewrite H10 in H1.
    destruct (Z.eq_dec p 15) as [E15|Hne15].
    + rewrite E15, H15 in H1. lia.
    + rewrite (H0 p Hne10 Hne15) in H1. lia.
Qed.

(** C6, an instance: in the zone UTC two events at 10 o'clock and one at
    15 o'clock give the peak hour 10. *)
Lemma peakHour_is_first_maximum_witness :
  peakHour (@analyzeEvents utc_engine peak_sample) = 10.
Proof.
  refine (proj1 (proj2 (proj2 (proj2
    (peakHour_is_first_maximum utc_engine peak_sample)))) _ _ _).
  - reflexivity.
  - reflexivity.
  - intros h H10 H15. unfold peak_sample. rewrite !count_where_cons.
    unfold is_hour.
    change (@event_hour utc_engine
              (sample_event "PushEvent" "test/repo" "2024-03-05T10:00:00.000Z"))
      with (Some 10).
    change (@event_hour utc_engine
              (sample_event "PushEvent" "test/repo" "2024-03-05T10:30:00.000Z"))
      with (Some 10).
    change (@event_hour utc_engine
              (sample_event "PushEvent" "test/repo" "2024-03-05T15:00:00.000Z"))
      with (Some 15).
    cbv beta iota.
    rewrite (proj2 (Z.eqb_neq 10 h)), (proj2 (Z.eqb_neq 15 h)) by lia.
    reflexivity.
Defined.

(** Five and a half hours east of UTC the same three events fall in the
    local hours 15, 16 and 20, one each, and the lowest of them wins. *)
Example peakHour_east_of_utc :
  peakHour (@analyzeEvents east_engine peak_sample) = 15.
Proof. reflexivity. Qed.

(** ** Events whose timestamp does not parse *)

Section Malformed.
Context {E : JsEngine}.

Lemma malformed_has_no_hour (e : event) (s : string) :
  created_at e = Str s -> Date_parse s = None -> event_hour e = None.
Proof.
  intros Hc Hp. unfold event_hour, Date_new. now rewrite Hc, Hp.
Qed.

Lemma hourly_without (before after : list event) (e : event) :
  event_hour e = None ->
  t_hourlyActivity (tally_events (before ++ e :: after))
  = t_hourlyActivity (tally_events (before ++ after)).
Proof.
  intros He.
  apply (nth_ext _ _ 0 0).
  - now rewrite !hourly_length.
  - intros n Hn. rewrite hourly_length in Hn.
    assert (Hh : 0 <= Z.of_nat n < 24) by lia.
    pose proof (hourly_counts (before ++ e :: after) _ Hh) as H1.
    pose proof (hourly_counts (before ++ after) _ Hh) as H2.
    rewrite Nat2Z.id in H1, H2. rewrite H1, H2.
    rewrite !count_where_app, count_where_cons.
    unfold is_hour at 2. rewrite He. lia.
Qed.

Lemma eventCounts_count (events : list event) (k : string) :
  count_of k (analyzeEvents events)
  = weight_under (fun e => Some (type e)) (fun _ => 1) k events.
Proof.
  unfold count_of, analyzeEvents, tally_events. cbn [eventCounts].
  rewrite tally_eventCounts, file_all_lookup. reflexivity.
Qed.

Lemma dailyActivity_count (events : list event) (k : string) :
  or_zero (lookup k (dailyActivity (analyzeEvents events)))
  = weight_under date_key (fun _ => 1) k events.
Proof.
  unfold analyzeEvents, tally_events. cbn [dailyActivity].
  rewrite tally_dailyActivity, file_all_lookup. reflexivity.
Qed.

Lemma dailyActivity_without (before after : list event) (e : event) :
  date_key e = None ->
  dailyActivity (analyzeEvents (before ++ e :: after))
  = dailyActivity (analyzeEvents (before ++ after)).
Proof.
  intros He. unfold analyzeEvents, tally_events. cbn [dailyActivity].
  rewrite !tally_dailyActivity, !file_all_app.
  unfold file_all. simpl. rewrite He. reflexivity.
Qed.

End Malformed.




(** ** The contribution aggregator *)

Lemma fold_left_add {A : Type} (f : A -> Z) (l : list A) (a : Z) :
  fold_left (fun acc x => acc + f x) l a = a + sum (map f l).
Proof.
  unfold sum. revert a. induction l as [|x r IH]; intros a; simpl.
  - lia.
  - rewrite IH. lia.
Qed.

Lemma languages_file_all (repos : list repo) :
  languages (fetchContributionStats repos)
  = file_all (fun r => truthy (language r)) size (firstn 20 repos) [].
Proof. reflexivity. Qed.

Lemma existsb_eqb_In (k : string) (seen : list string) :
  existsb (String.eqb k) seen = true <-> In k seen.
Proof.
  rewrite existsb_exists. split.
  - intros (x & Hx & Hk). apply String.eqb_eq in Hk. now subst.
  - intros H. exists k. split; [assumption | apply String.eqb_refl].
Qed.

Lemma keys_bump (k : string) (n : Z) (d : dict Z) :
  keys (bump k n d)
  = if existsb (String.eqb k) (keys d) then keys d else (keys d ++ [k])%list.
Proof.
  unfold bump. destruct (existsb (String.eqb k) (keys d)) eqn:Ex.
  - apply keys_store_old. now apply existsb_eqb_In.
  - apply keys_store_new. intros H. apply existsb_eqb_In in H. congruence.
Qed.

Lemma first_seen_ext (l : list (option string)) (s1 s2 : list string) :
  (forall k, In k s1 <-> In k s2) -> first_seen l s1 = first_seen l s2.
Proof.
  revert s1 s2. induction l as [|[k|] r IH]; intros s1 s2 H; simpl.
  - reflexivity.
  - assert (Hex : existsb (String.eqb k) s1 = existsb (String.eqb k) s2).
    { destruct (existsb (String.eqb k) s1) eqn:E1;
      destruct (existsb (String.eqb k) s2) eqn:E2; auto.
      - apply existsb_eqb_In in E1. apply H in E1.
        apply existsb_eqb_In in E1. congruence.
      - apply existsb_eqb_In in E2. apply H in E2.
        apply existsb_eqb_In in E2. congruence. }
    rewrite Hex. destruct (existsb (String.eqb k) s2).
    + now apply IH.
    + f_equal. apply IH. intros k'. simpl. now rewrite H.
  - now apply IH.
Qed.

(** The keys of a dictionary built by filing: those it had, then the new
    ones in order of first appearance. *)
Lemma file_all_keys {A : Type} (key : A -> option string) (w : A -> Z)
  (l : list A) (d : dict Z) :
  keys (file_all key w l d)
  = (keys d ++ first_seen (map key l) (keys d))%list.
Proof.
  revert d. induction l as [|x r IH]; intros d; simpl.
  - now rewrite app_nil_r.
  - unfold file_all in *. simpl. rewrite IH.
    destruct (key x) as [k|]; [|reflexivity].
    rewrite keys_bump. destruct (existsb (String.eqb k) (keys d)) eqn:Ex.
    + reflexivity.
    + rewrite <- app_assoc. simpl. do 2 f_equal.
      apply first_seen_ext. intros k'. rewrite in_app_iff. simpl. tauto.
Qed.

Lemma first_seen_In (l : list (option string)) (seen : list string)
  (k : string) :
  In k (first_seen l seen) <-> In (Some k) l /\ ~ In k seen.
Proof.
  revert seen. induction l as [|[k'|] r IH]; intros seen; simpl.
  - tauto.
  - destruct (existsb (String.eqb k') seen) eqn:Ex.
    + apply existsb_eqb_In in Ex. rewrite IH. split.
      * tauto.
      * intros [[H|H] Hn]; [|tauto]. inversion H. subst. contradiction.
    + assert (Hn : ~ In k' seen).
      { intros H. apply existsb_eqb_In in H. congruence. }
      simpl. rewrite IH. simpl. split.
      * intros [->|[H1 H2]]; [tauto|]. split; [tauto|]. tauto.
      * intros [[H|H] Hs].
        -- inversion H. now left.
        -- destruct (string_dec k' k) as [->|Hne]; [now left|]. right. tauto.
  - rewrite IH. split; [tauto|]. intros [[H|H] Hn]; [discriminate | tauto].
Qed.

Lemma language_keys_iff (repos : list repo) (l : string) :
  In l (keys (languages (fetchContributionStats repos))) <->
  exists r, In r (firstn 20 repos) /\ truthy (language r) = Some l.
Proof.
  rewrite languages_file_all, file_all_keys. simpl.
  rewrite first_seen_In, in_map_iff. split.
  - intros [(r & Hr & Hin) _]. exists r. auto.
  - intros (r & Hin & Hr). split; [|tauto]. exists r. auto.
Qed.


(** ** The summary synthesizer *)

(** C8: a streak pattern is among the notable patterns exactly when the
    activity streak is at least 7; its severity is [exceptional] from 30
    on and [notable] below; a streak of 2 gives none. *)
Theorem streak_pattern_iff_week (a : activityData) :
  let ps := notablePatterns (generateActivitySummary a) in
  let s := activityStreak (ad_eventAnalysis a) in
  ((exists p, In p ps /\ p_type p = streak) <-> 7 <= s)
  /\ (forall p, In p ps -> p_type p = streak ->
        severity p = Some (if 30 <=? s then exceptional else notable))
  /\ (s = 2 -> forall p, In p ps -> p_type p <> streak).
Proof.
  intros ps s.
  assert (Hps : ps = (streak_patterns (ad_eventAnalysis a)
                        ++ [schedule_pattern (ad_eventAnalysis a)])%list)
    by reflexivity.
  unfold streak_patterns in Hps. fold s in Hps.
  destruct (Z.leb_spec 7 s) as [H7|H7]; rewrite Hps; simpl.
  - split; [|split].
    + split; [intros _; exact H7|]. intros _. eexists. split; [left; reflexivity|].
      reflexivity.
    + intros p [<-|[<-|[]]]; simpl; [reflexivity | discriminate].
    + lia.
  - split; [|split].
    + split; [|lia]. intros (p & [<-|[]] & Hp). discriminate.
    + intros p [<-|[]]. discriminate.
    + intros _ p [<-|[]]. discriminate.
Qed.


Lemma length_firstn_le {A : Type} (n : nat) (l : list A) :
  (List.length (firstn n l) <= n)%nat.
Proof. rewrite length_firstn. lia. Qed.


(** ** Sorting *)

Section Sorting.
Context {A : Type} (le : A -> A -> bool).
Hypothesis le_total : forall a b, le a b = true \/ le b a = true.

Let R (a b : A) : Prop := le a b = true.

Lemma insert_by_perm (x : A) (l : list A) :
  Permutation (insert_by le x l) (x :: l).
Proof.
  induction l as [|y r IH]; simpl.
  - apply Permutation_refl.
  - destruct (le x y).
    + apply Permutation_refl.
    + eapply perm_trans; [apply perm_skip, IH | apply perm_swap].
Qed.

Lemma sort_by_perm (l : list A) : Permutation (sort_by le l) l.
Proof.
  induction l as [|x r IH]; simpl.
  - apply perm_nil.
  - eapply perm_trans; [apply insert_by_perm | apply perm_skip, IH].
Qed.

Lemma insert_by_HdRel (y x : A) (l : list A) :
  R y x -> HdRel R y l -> HdRel R y (insert_by le x l).
Proof.
  intros Hyx Hl. destruct l as [|z r]; simpl.
  - now constructor.
  - destruct (le x z); constructor; [assumption|].
    now inversion Hl.
Qed.

Lemma insert_by_sorted (x : A) (l : list A) :
  Sorted R l -> Sorted R (insert_by le x l).
Proof.
  induction l as [|y r IH]; intros Hs; simpl.
  - repeat constructor.
  - destruct (le x y) eqn:Exy.
    + constructor; [assumption|]. now constructor.
    + inversion Hs as [|? ? Hr Hhd]; subst.
      constructor; [now apply IH|].
      apply insert_by_HdRel; [|assumption].
      destruct (le_total x y) as [H|H]; [congruence | exact H].
Qed.

Lemma sort_by_sorted (l : list A) : Sorted R (sort_by le l).
Proof.
  induction l as [|x r IH]; simpl.
  - constructor.
  - now apply insert_by_sorted.
Qed.

End Sorting.

(** ** The streak loop on day numbers *)

Lemma is_run_weaken (s1 s2 : list Z) (first len : Z) :
  (forall x, In x s1 -> In x s2) -> is_run s1 first len -> is_run s2 first len.
Proof. intros H Hr i Hi. apply H, Hr, Hi. Qed.

Lemma is_run_shorter (s : list Z) (first len len' : Z) :
  len' <= len -> is_run s first len -> is_run s first len'.
Proof. intros H Hr i Hi. apply Hr. lia. Qed.

(** A run that reaches the greatest day ends there. *)
Lemma run_top (seen : list Z) (c first len : Z) :
  (forall x, In x seen -> x < c) ->
  is_run (c :: seen) first len ->
  (is_run seen first len) \/ (0 < len /\ first + len - 1 = c
                               /\ is_run seen first (len - 1)).
Proof.
  intros Hlt Hr.
  destruct (Z_lt_le_dec 0 len) as [Hpos|Hneg].
  - assert (Htop : first + (len - 1) <= c).
    { destruct (Hr (len - 1) ltac:(lia)) as [H|H]; [lia|].
      specialize (Hlt _ H). lia. }
    destruct (Z.eq_dec (first + len - 1) c) as [Heq|Hne].
    + right. repeat split; try lia.
      intros i Hi. destruct (Hr i ltac:(lia)) as [H|H]; [lia | exact H].
    + left. intros i Hi. destruct (Hr i Hi) as [H|H]; [lia | exact H].
  - left. intros i Hi. lia.
Qed.

Lemma day_loop_spec (rest : list Z) :
  forall (seen : list Z) (prev cur mx : Z),
    StronglySorted Z.lt (prev :: rest) ->
    In prev seen ->
    (forall x, In x seen -> x <= prev) ->
    run_invariant seen prev cur mx ->
    longest_run (rev rest ++ seen) (day_loop prev rest cur mx).
Proof.
  induction rest as [|c r IH];
    intros seen prev cur mx Hs Hin Hmax (H1 & H0 & Hcur & Hleft & Hmx & Hall).
  - simpl. split; [lia|]. split; [|exact Hall].
    destruct (Z.max_spec mx cur) as [[_ ->]|[_ ->]].
    + eexists. exact Hcur.
    + exact Hmx.
  - inversion Hs as [|? ? Hs' Hfa]; subst.
    assert (Hpc : prev < c) by (inversion Hfa; assumption).
    assert (Hlt : forall x, In x seen -> x < c).
    { intros x Hx. specialize (Hmax x Hx). lia. }
    assert (Hsub : forall x, In x seen -> In x (c :: seen)) by (intros; now right).
    assert (Hgoal : forall v, longest_run (rev r ++ c :: seen) v ->
                              longest_run (rev (c :: r) ++ seen) v).
    { intros v Hv. simpl. now rewrite <- app_assoc. }
    apply Hgoal. simpl.
    assert (Hmax' : forall x, In x (c :: seen) -> x <= c).
    { intros x [->|Hx]; [lia | specialize (Hlt x Hx); lia]. }
    destruct (Z.eqb_spec (c - prev) 1) as [Heq|Hne].
    + apply IH; [assumption | now left | assumption |].
      repeat split; try lia.
      * intros i Hi. destruct (Z.eq_dec i cur) as [->|Hni].
        -- left. lia.
        -- right. replace (c - (cur + 1) + 1 + i) with (prev - cur + 1 + i) by lia.
           apply Hcur. lia.
      * intros [H|H]; [lia|]. apply Hleft.
        now replace (prev - cur) with (c - (cur + 1)) by lia.
      * destruct Hmx as [f Hf]. exists f. eapply is_run_weaken; eauto.
      * intros first len Hr.
        destruct (run_top seen c first len Hlt Hr) as [Hr'|(Hpos & Htop & Hr')].
        -- specialize (Hall _ _ Hr'). lia.
        -- destruct (Z_le_gt_dec len (cur + 1)) as [|Hbig]; [lia|].
           exfalso. apply Hleft.
           replace (prev - cur) with (first + (len - 1 - cur - 1)) by lia.
           apply Hr'. lia.
    + apply IH; [assumption | now left | assumption |].
      repeat split; try lia.
      * intros i Hi. left. lia.
      * intros [H|H]; [lia|]. specialize (Hmax _ H). lia.
      * destruct (Z.max_spec mx cur) as [[_ ->]|[_ ->]].
        -- eexists. eapply is_run_weaken; [exact Hsub | exact Hcur].
        -- destruct Hmx as [f Hf]. exists f. eapply is_run_weaken; eauto.
      * intros first len Hr.
        destruct (run_top seen c first len Hlt Hr) as [Hr'|(Hpos & Htop & Hr')].
        -- specialize (Hall _ _ Hr'). lia.
        -- destruct (Z_le_gt_dec len 1) as [|Hbig]; [lia|].
           exfalso. specialize (Hr' (len - 2) ltac:(lia)).
           specialize (Hmax _ Hr'). lia.
Qed.

Lemma day_loop_longest (d0 : Z) (rest : list Z) :
  StronglySorted Z.lt (d0 :: rest) ->
  longest_run (d0 :: rest) (day_loop d0 rest 1 0).
Proof.
  intros Hs.
  assert (H : longest_run (rev rest ++ [d0]) (day_loop d0 rest 1 0)).
  { apply day_loop_spec; [assumption | now left | |].
    - intros x [->|[]]. lia.
    - repeat split; try lia.
      + intros i Hi. left. lia.
      + intros [H|[]]. lia.
      + exists 0. intros i Hi. lia.
      + intros first len Hr.
        destruct (Z_le_gt_dec len 1) as [|Hbig]; [lia|]. exfalso.
        destruct (Hr 0 ltac:(lia)) as [H|[]].
        destruct (Hr 1 ltac:(lia)) as [H'|[]]. lia. }
  destruct H as (H0 & [f Hf] & Hall). split; [assumption|].
  assert (Hiff : forall x, In x (rev rest ++ [d0]) <-> In x (d0 :: rest)).
  { intros x. rewrite in_app_iff, <- in_rev. simpl. tauto. }
  split.
  - exists f. eapply is_run_weaken; [|exact Hf]. intros x. apply Hiff.
  - intros first len Hr. apply (Hall first). eapply is_run_weaken; [|exact Hr].
    intros x. apply Hiff.
Qed.

(** ** Date keys and the calendar *)

Lemma digit_val_inv (c : ascii) (v : Z) :
  digit_val c = Some v -> Z.of_N (N_of_ascii c) = v + 48 /\ 0 <= v <= 9.
Proof.
  unfold digit_val.
  destruct ((48 <=? Z.of_N (N_of_ascii c)) && (Z.of_N (N_of_ascii c) <=? 57))
    eqn:Er; [|discriminate].
  intros H. inversion H. apply andb_true_iff in Er. lia.
Qed.

Lemma num2_inv (a b : ascii) (v : Z) :
  num2 a b = Some v ->
  exists x y, digit_val a = Some x /\ digit_val b = Some y /\ v = 10 * x + y.
Proof.
  unfold num2. destruct (digit_val a) as [x|]; [|discriminate].
  destruct (digit_val b) as [y|]; [|discriminate].
  intros H. inversion H. eauto.
Qed.

Lemma num4_inv (a b c d : ascii) (v : Z) :
  num4 a b c d = Some v ->
  exists x y, num2 a b = Some x /\ num2 c d = Some y /\ v = 100 * x + y.
Proof.
  unfold num4. destruct (num2 a b) as [x|]; [|discriminate].
  destruct (num2 c d) as [y|]; [|discriminate].
  intros H. inversion H. eauto.
Qed.

Lemma is_char_eq (c : ascii) (n : N) :
  is_char c n = true -> c = ascii_of_N n.
Proof.
  unfold is_char. intros H. apply N.eqb_eq in H. rewrite <- H.
  symmetry. apply ascii_N_embedding.
Qed.

Lemma parse_ymd_inv (s : string) (y m d : Z) :
  parse_ymd s = Some (y, m, d) ->
  exists c1 c2 c3 c4 c5 c6 c7 c8 yh yl,
    key_shape s c1 c2 c3 c4 c5 c6 c7 c8
    /\ num2 c1 c2 = Some yh /\ num2 c3 c4 = Some yl /\ y = 100 * yh + yl
    /\ num2 c5 c6 = Some m /\ num2 c7 c8 = Some d
    /\ valid_date y m d = true.
Proof.
  unfold parse_ymd.
  destruct s as [|c1 s]; [discriminate|]. destruct s as [|c2 s]; [discriminate|].
  destruct s as [|c3 s]; [discriminate|]. destruct s as [|c4 s]; [discriminate|].
  destruct s as [|h1 s]; [discriminate|]. destruct s as [|c5 s]; [discriminate|].
  destruct s as [|c6 s]; [discriminate|]. destruct s as [|h2 s]; [discriminate|].
  destruct s as [|c7 s]; [discriminate|]. destruct s as [|c8 s]; [discriminate|].
  destruct s as [|x s]; [|discriminate].
  destruct (is_char h1 45) eqn:E1; [|discriminate].
  destruct (is_char h2 45) eqn:E2; [|discriminate]. cbn [andb].
  apply is_char_eq in E1, E2. subst h1 h2.
  destruct (num4 c1 c2 c3 c4) as [y'|] eqn:Ey; [|discriminate].
  destruct (num2 c5 c6) as [m'|] eqn:Em; [|discriminate].
  destruct (num2 c7 c8) as [d'|] eqn:Ed; [|discriminate].
  destruct (valid_date y' m' d') eqn:Ev; [|discriminate].
  intros H. inversion H. subst y' m' d'.
  apply num4_inv in Ey. destruct Ey as (yh & yl & Hh & Hl & Hy).
  exists c1, c2, c3, c4, c5, c6, c7, c8, yh, yl.
  unfold key_shape. repeat split; assumption.
Qed.

Lemma compare_cons_Lt (c1 c2 : ascii) (s1 s2 : string) :
  (String c1 s1 ?= String c2 s2)%string = Lt ->
  (N_of_ascii c1 < N_of_ascii c2)%N \/ (c1 = c2 /\ (s1 ?= s2)%string = Lt).
Proof.
  simpl. destruct (Ascii.compare c1 c2) eqn:Ec; intros H; try discriminate.
  - right. split; [|assumption]. now apply Ascii.compare_eq_iff.
  - left. unfold Ascii.compare in Ec. now apply N.compare_lt_iff.
Qed.

(** Keys of the date-only form compare as their dates do. *)
Lemma key_order (k k' : string) (y m d y' m' d' : Z) :
  parse_ymd k = Some (y, m, d) -> parse_ymd k' = Some (y', m', d') ->
  (k ?= k')%string = Lt ->
  y * 10000 + m * 100 + d < y' * 10000 + m' * 100 + d'.
Proof.
  intros Hk Hk' Hlt.
  apply parse_ymd_inv in Hk, Hk'.
  destruct Hk as (c1 & c2 & c3 & c4 & c5 & c6 & c7 & c8 & yh & yl
                  & Hs & Hyh & Hyl & Hy & Hm & Hd & _).
  destruct Hk' as (c1' & c2' & c3' & c4' & c5' & c6' & c7' & c8' & yh' & yl'
                  & Hs' & Hyh' & Hyl' & Hy' & Hm' & Hd' & _).
  unfold key_shape in Hs, Hs'. subst k k'.
  apply num2_inv in Hyh, Hyl, Hm, Hd, Hyh', Hyl', Hm', Hd'.
  destruct Hyh as (a1 & a2 & D1 & D2 & ->), Hyl as (a3 & a4 & D3 & D4 & ->),
           Hm as (a5 & a6 & D5 & D6 & ->), Hd as (a7 & a8 & D7 & D8 & ->).
  destruct Hyh' as (b1 & b2 & F1 & F2 & ->), Hyl' as (b3 & b4 & F3 & F4 & ->),
           Hm' as (b5 & b6 & F5 & F6 & ->), Hd' as (b7 & b8 & F7 & F8 & ->).
  apply digit_val_inv in D1, D2, D3, D4, D5, D6, D7, D8,
                         F1, F2, F3, F4, F5, F6, F7, F8.
  subst y y'.
  repeat match goal with
         | H : (String _ _ ?= String _ _)%string = Lt |- _ =>
             apply compare_cons_Lt in H; destruct H as [H|[? H]];
             [|try subst]
         end;
  try discriminate; try lia.
Qed.

Lemma DayFromYear_next (y : Z) :
  DayFromYear (y + 1) = DayFromYear y + 365 + leap_day y.
Proof.
  unfold DayFromYear, leap_day, is_leap.
  destruct (Z.eqb_spec (y mod 4) 0), (Z.eqb_spec (y mod 100) 0),
           (Z.eqb_spec (y mod 400) 0); cbn [negb andb orb];
    Z.div_mod_to_equations; lia.
Qed.

Lemma DayFromYear_mono (y y' : Z) :
  y <= y' -> DayFromYear y <= DayFromYear y'.
Proof.
  unfold DayFromYear. intros H. Z.div_mod_to_equations. lia.
Qed.

Lemma month_table (y m : Z) :
  1 <= m <= 12 ->
  let L := leap_day y in
  (m = 1 /\ days_before_month y m = 0 /\ days_in_month y m = 31)
  \/ (m = 2 /\ days_before_month y m = 31 /\ days_in_month y m = 28 + L)
  \/ (m = 3 /\ days_before_month y m = 59 + L /\ days_in_month y m = 31)
  \/ (m = 4 /\ days_before_month y m = 90 + L /\ days_in_month y m = 30)
  \/ (m = 5 /\ days_before_month y m = 120 + L /\ days_in_month y m = 31)
  \/ (m = 6 /\ days_before_month y m = 151 + L /\ days_in_month y m = 30)
  \/ (m = 7 /\ days_before_month y m = 181 + L /\ days_in_month y m = 31)
  \/ (m = 8 /\ days_before_month y m = 212 + L /\ days_in_month y m = 31)
  \/ (m = 9 /\ days_before_month y m = 243 + L /\ days_in_month y m = 30)
  \/ (m = 10 /\ days_before_month y m = 273 + L /\ days_in_month y m = 31)
  \/ (m = 11 /\ days_before_month y m = 304 + L /\ days_in_month y m = 30)
  \/ (m = 12 /\ days_before_month y m = 334 + L /\ days_in_month y m = 31).
Proof.
  intros Hm L. unfold L, leap_day.
  assert (Hc : m = 1 \/ m = 2 \/ m = 3 \/ m = 4 \/ m = 5 \/ m = 6 \/ m = 7
               \/ m = 8 \/ m = 9 \/ m = 10 \/ m = 11 \/ m = 12) by lia.
  unfold days_before_month, days_in_month.
  repeat (destruct Hc as [->|Hc]; [destruct (is_leap y); cbn; tauto|]).
  subst m. destruct (is_leap y); cbn; tauto.
Qed.

Lemma valid_date_inv (y m d : Z) :
  valid_date y m d = true ->
  0 <= y <= 9999 /\ 1 <= m <= 12 /\ 1 <= d <= days_in_month y m.
Proof.
  unfold valid_date. rewrite !andb_true_iff. lia.
Qed.

(** The day number grows with the date. *)
Lemma day_number_mono (y m d y' m' d' : Z) :
  valid_date y m d = true -> valid_date y' m' d' = true ->
  y * 10000 + m * 100 + d < y' * 10000 + m' * 100 + d' ->
  day_number y m d < day_number y' m' d'.
Proof.
  intros Hv Hv' Hlt.
  apply valid_date_inv in Hv, Hv'.
  destruct Hv as (Hy & Hm & Hd), Hv' as (Hy' & Hm' & Hd').
  pose proof (month_table y m Hm) as T. pose proof (month_table y' m' Hm') as T'.
  cbv zeta in T, T'. unfold day_number.
  assert (HL : 0 <= leap_day y <= 1) by (unfold leap_day; destruct (is_leap y); lia).
  assert (HL' : 0 <= leap_day y' <= 1) by (unfold leap_day; destruct (is_leap y'); lia).
  destruct (Z_lt_le_dec y y') as [Hyy|Hyy].
  - pose proof (DayFromYear_next y) as Hn.
    pose proof (DayFromYear_mono (y + 1) y' ltac:(lia)) as Hmo.
    lia.
  - assert (y = y') by lia. subst y'. lia.
Qed.

Lemma calendar_day_order (k k' : string) (d d' : Z) :
  calendar_day k = Some d -> calendar_day k' = Some d' ->
  (k ?= k')%string = Lt -> d < d'.
Proof.
  unfold calendar_day.
  destruct (parse_ymd k) as [[[y m] dd]|] eqn:Ek; [|discriminate].
  destruct (parse_ymd k') as [[[y' m'] dd']|] eqn:Ek'; [|discriminate].
  intros H H' Hlt. inversion H. inversion H'. subst.
  pose proof (key_order _ _ _ _ _ _ _ _ Ek Ek' Hlt) as Ho.
  apply parse_ymd_inv in Ek, Ek'.
  destruct Ek as (? & ? & ? & ? & ? & ? & ? & ? & ? & ? & _ & _ & _ & _ & _ & _ & Hv).
  destruct Ek' as (? & ? & ? & ? & ? & ? & ? & ? & ? & ? & _ & _ & _ & _ & _ & _ & Hv').
  now apply day_number_mono.
Qed.

(** ** The streak *)

Lemma substring_full (s : string) : substring 0 (String.length s) s = s.
Proof. induction s as [|c s IH]; simpl; [reflexivity | now rewrite IH]. Qed.

Lemma calendar_day_length (k : string) (d : Z) :
  calendar_day k = Some d -> String.length k = 10%nat.
Proof.
  unfold calendar_day.
  destruct (parse_ymd k) as [[[y m] dd]|] eqn:Ek; [|discriminate]. intros _.
  apply parse_ymd_inv in Ek.
  destruct Ek as (? & ? & ? & ? & ? & ? & ? & ? & ? & ? & Hs & _).
  unfold key_shape in Hs. now subst k.
Qed.

(** The reference engine reads the date-only form as the language
    specification asks. *)
Lemma utc_engine_date_only : EcmaDateOnly utc_engine.
Proof.
  intros k day Hk. cbn [Date_parse utc_engine]. unfold iso_parse.
  pose proof (calendar_day_length k day Hk) as Hl.
  pose proof (substring_full k) as Hs. rewrite Hl in Hs.
  rewrite Hs, Hk, Hl. reflexivity.
Qed.

Lemma Math_round_div_days (a b : Z) :
  Math_round_div (a * msPerDay - b * msPerDay) msPerDay = a - b.
Proof.
  unfold Math_round_div, msPerDay. Z.div_mod_to_equations. lia.
Qed.

Section Streak.
Context {E : JsEngine} {HE : EcmaDateOnly E}.

Lemma day_of_calendar (k : string) :
  calendar_day k <> None -> calendar_day k = Some (day_of k).
Proof. unfold day_of. destruct (calendar_day k); congruence. Qed.

Lemma diffDays_dates (p c : string) :
  calendar_day p <> None -> calendar_day c <> None ->
  diffDays p c = Some (day_of c - day_of p).
Proof.
  intros Hp Hc. unfold diffDays.
  rewrite (date_only_is_utc_midnight _ _ (day_of_calendar c Hc)).
  rewrite (date_only_is_utc_midnight _ _ (day_of_calendar p Hp)).
  now rewrite Math_round_div_days.
Qed.

Lemma streak_loop_days (rest : list string) :
  forall (prev : string) (cur mx : Z),
    (forall k, In k (prev :: rest) -> calendar_day k <> None) ->
    streak_loop prev rest cur mx
    = day_loop (day_of prev) (map day_of rest) cur mx.
Proof.
  induction rest as [|c r IH]; intros prev cur mx Hall; simpl.
  - reflexivity.
  - rewrite diffDays_dates by (apply Hall; simpl; auto). simpl.
    assert (Hr : forall k, In k (c :: r) -> calendar_day k <> None).
    { intros k Hk. apply Hall. now right. }
    destruct (day_of c - day_of prev =? 1); now apply IH.
Qed.

Lemma streak_of_days (dates : list string) :
  (forall k, In k dates -> calendar_day k <> None) ->
  streak_of dates
  = match map day_of dates with
    | [] => 0
    | d0 :: rest => day_loop d0 rest 1 0
    end.
Proof.
  destruct dates as [|d0 rest]; intros Hall; simpl; [reflexivity|].
  now apply streak_loop_days.
Qed.

End Streak.

Lemma first_seen_NoDup (l : list (option string)) (seen : list string) :
  NoDup (first_seen l seen).
Proof.
  revert seen. induction l as [|[k|] r IH]; intros seen; simpl.
  - constructor.
  - destruct (existsb (String.eqb k) seen); [apply IH|].
    constructor; [|apply IH].
    rewrite first_seen_In. simpl. tauto.
  - apply IH.
Qed.

Lemma sorted_days (l : list string) :
  Sorted (fun a b => String.leb a b = true) l -> NoDup l ->
  (forall k, In k l -> calendar_day k <> None) ->
  StronglySorted Z.lt (map day_of l).
Proof.
  intros Hs Hnd Hall. apply Sorted_StronglySorted.
  { intros x y z. apply Z.lt_trans. }
  induction Hs as [|a l Hs IH Hhd]; simpl; constructor.
  - apply IH; [now inversion Hnd | intros k Hk; apply Hall; now right].
  - destruct Hhd as [|b l Hab]; simpl; constructor.
    assert (Hne : a <> b).
    { intros ->. inversion Hnd as [|? ? Hn _]. apply Hn. now left. }
    assert (Hlt : (a ?= b)%string = Lt).
    { unfold String.leb in Hab. destruct (a ?= b)%string eqn:Ec; try discriminate.
      - apply String.compare_eq_iff in Ec. contradiction.
      - reflexivity. }
    eapply calendar_day_order; [| |exact Hlt];
      apply day_of_calendar, Hall; simpl; auto.
Qed.

Lemma longest_run_ext (s1 s2 : list Z) (n : Z) :
  (forall x, In x s1 <-> In x s2) -> longest_run s1 n -> longest_run s2 n.
Proof.
  intros H (H0 & [f Hf] & Hall). split; [assumption|]. split.
  - exists f. eapply is_run_weaken; [|exact Hf]. intros x. apply H.
  - intros first len Hr. apply (Hall first).
    eapply is_run_weaken; [|exact Hr]. intros x. apply H.
Qed.

Lemma days_of_In (events : list event) (d : Z) :
  In d (days_of events) <-> exists e, In e events /\ event_day e = Some d.
Proof.
  induction events as [|e r IH]; simpl.
  - split; [tauto | intros (e & [] & _)].
  - destruct (event_day e) as [d'|] eqn:Ed; simpl; rewrite IH; split.
    + intros [->|(e' & H1 & H2)]; eauto.
    + intros (e' & [->|H1] & H2); [left; congruence | eauto].
    + intros (e' & H1 & H2). eauto.
    + intros (e' & [->|H1] & H2); [congruence | eauto].
Qed.

Lemma date_keys_of (E : JsEngine) (events : list event) (k : string) :
  In k (keys (dailyActivity (analyzeEvents events)))
  <-> exists e, In e events /\ date_key e = Some k.
Proof.
  unfold analyzeEvents, tally_events. cbn [dailyActivity].
  rewrite tally_dailyActivity, file_all_keys. simpl.
  rewrite first_seen_In, in_map_iff. split.
  - intros [(e & H1 & H2) _]. eauto.
  - intros (e & H1 & H2). split; [eauto | tauto].
Qed.

Lemma sorted_date_keys (E : JsEngine) (events : list event) :
  let dates := sort_strings (keys (dailyActivity (analyzeEvents events))) in
  Sorted (fun a b => String.leb a b = true) dates
  /\ NoDup dates
  /\ (forall k, In k dates <-> exists e, In e events /\ date_key e = Some k).
Proof.
  intros dates. unfold dates, sort_strings. split; [|split].
  - apply sort_by_sorted. apply String.leb_total.
  - eapply Permutation_NoDup; [apply Permutation_sym, sort_by_perm|].
    unfold analyzeEvents, tally_events. cbn [dailyActivity].
    rewrite tally_dailyActivity, file_all_keys. apply first_seen_NoDup.
  - intros k. rewrite <- date_keys_of. split; apply Permutation_in;
      [apply sort_by_perm | apply Permutation_sym, sort_by_perm].
Qed.

(** C1, as stated, fails: one event stamped [garbage] falls on no
    calendar day, so the longest run of days has length 0, and the
    analyzer reports a streak of 1. *)
Lemma activityStreak_counterexample :
  days_of garbage_sample = []
  /\ activityStreak (@analyzeEvents utc_engine garbage_sample) = 1
  /\ ~ longest_run (days_of garbage_sample)
         (activityStreak (@analyzeEvents utc_engine garbage_sample)).
Proof.
  split; [reflexivity|]. split; [reflexivity|].
  intros (_ & [f Hf] & _).
  change (activityStreak (@analyzeEvents utc_engine garbage_sample)) with 1 in Hf.
  exact (Hf 0 ltac:(lia)).
Qed.

(** C1, amended: on an engine whose [Date] reads the date-only form as
    the language specification asks, and for every event list in which the
    date portion of each timestamp that has one is a calendar date
    [YYYY-MM-DD], [activityStreak] is the length of the longest run of
    consecutive calendar days each containing at least one event.  One
    event on each of 2024-01-15, 16 and 17 gives 3; with 2024-01-15, 17
    and 18 the gap closes the first run and the streak is 2; no event
    gives 0. *)
Theorem activityStreak_longest_run (E : JsEngine) (HE : EcmaDateOnly E)
  (events : list event) :
  well_dated events ->
  longest_run (days_of events) (activityStreak (analyzeEvents events))
  /\ activityStreak (analyzeEvents []) = 0
  /\ activityStreak (@analyzeEvents utc_engine streak_sample) = 3
  /\ activityStreak (@analyzeEvents utc_engine gap_sample) = 2.
Proof.
  intros Hwd. split; [|repeat split].
  destruct (sorted_date_keys E events) as (Hs & Hnd & Hin).
  set (dates := sort_strings (keys (dailyActivity (analyzeEvents events)))) in *.
  assert (Hall : forall k, In k dates -> calendar_day k <> None).
  { intros k Hk. apply Hin in Hk. destruct Hk as (e & He & Hk).
    eapply Hwd; eauto. }
  assert (Hstreak : activityStreak (analyzeEvents events) = streak_of dates)
    by reflexivity.
  rewrite Hstreak, (streak_of_days dates Hall).
  pose proof (sorted_days dates Hs Hnd Hall) as Hss.
  assert (Hmem : forall x, In x (map day_of dates) <-> In x (days_of events)).
  { intros x. rewrite in_map_iff, days_of_In. split.
    - intros (k & Hx & Hk). pose proof (Hall k Hk) as Hc.
      apply Hin in Hk. destruct Hk as (e & He & Hk). exists e. split; [assumption|].
      unfold event_day. rewrite Hk, (day_of_calendar k Hc). now f_equal.
    - intros (e & He & Hd). unfold event_day in Hd.
      destruct (date_key e) as [k|] eqn:Hk; [|discriminate].
      exists k. split; [unfold day_of; now rewrite Hd|].
      apply Hin. eauto. }
  apply (longest_run_ext _ _ _ Hmem).
  destruct (map day_of dates) as [|d0 rest].
  - split; [lia|]. split.
    + exists 0. intros i Hi. lia.
    + intros first len Hr. destruct (Z_le_gt_dec len 0) as [|Hpos]; [assumption|].
      destruct (Hr 0 ltac:(lia)).
  - now apply day_loop_longest.
Qed.

(** C1, an instance: the three consecutive days of the analyzer's test. *)
Lemma activityStreak_longest_run_witness :
  longest_run (days_of streak_sample)
    (activityStreak (@analyzeEvents utc_engine streak_sample)).
Proof.
  refine (proj1 (activityStreak_longest_run utc_engine utc_engine_date_only
                   streak_sample _)).
  intros e k [<-|[<-|[<-|[]]]] Hk; inversion Hk; discriminate.
Defined.

(** ** The login grammar and the handler *)

Lemma alnum_not_hyphen (c : ascii) : alnum c = true -> is_hyphen c = false.
Proof.
  unfold alnum, is_hyphen, is_char. intros H.
  apply N.eqb_neq. intros Heq. rewrite Heq in H. discriminate.
Qed.

Lemma login_tail_step (n : nat) (c : ascii) (s : string) :
  login_tail n (String c s) = true ->
  exists n', n = S n' /\ login_tail n' s = true
    /\ (alnum c = true
        \/ (is_hyphen c = true
            /\ exists d s', s = String d s' /\ alnum d = true)).
Proof.
  destruct n as [|n]; cbn [login_tail]; [discriminate|].
  destruct (alnum c) eqn:Ea.
  - intros H. exists n. split; [reflexivity|]. split; [exact H|].
    now left.
  - unfold is_hyphen. destruct (is_char c 45) eqn:Eh; [|discriminate].
    destruct s as [|d s']; [discriminate|]. intros H.
    apply andb_true_iff in H. destruct H as [Hd Ht].
    exists n. split; [reflexivity|]. split; [assumption|].
    right. split; [reflexivity|]. eauto.
Qed.

Lemma login_tail_chars (n : nat) (s : string) :
  login_tail n s = true ->
  all_chars (fun c => alnum c || is_hyphen c) s = true.
Proof.
  revert n. induction s as [|c s IH]; intros n H; [reflexivity|].
  apply login_tail_step in H. destruct H as (n' & _ & Ht & Hc).
  cbn [all_chars]. rewrite (IH n' Ht), andb_true_r.
  destruct Hc as [->|[-> _]]; [reflexivity | apply orb_true_r].
Qed.

Lemma login_tail_length (n : nat) (s : string) :
  login_tail n s = true -> (String.length s <= n)%nat.
Proof.
  revert n. induction s as [|c s IH]; intros n H; [simpl; lia|].
  apply login_tail_step in H. destruct H as (n' & -> & Ht & _).
  specialize (IH n' Ht). simpl. lia.
Qed.

(** After a character that the pattern accepted (an alphanumeric, or a
    hyphen with an alphanumeric behind it) no hyphen ends the input and no
    two hyphens meet. *)
Lemma login_tail_hyphens (n : nat) (s : string) (c : ascii) :
  login_tail n s = true ->
  (alnum c = true
   \/ exists d s', s = String d s' /\ alnum d = true) ->
  ends_with_hyphen (String c s) = false
  /\ has_double_hyphen (String c s) = false.
Proof.
  revert n c. induction s as [|d s IH]; intros n c H Hc.
  - destruct Hc as [Hc|(d & s' & Hs & _)]; [|discriminate].
    cbn. split; [now apply alnum_not_hyphen | reflexivity].
  - apply login_tail_step in H. destruct H as (n' & _ & Ht & Hd).
    assert (Hd' : alnum d = true
                  \/ exists e s', s = String e s' /\ alnum e = true)
      by (destruct Hd as [Hd|[_ Hd]]; auto).
    destruct (IH n' d Ht Hd') as [IH1 IH2].
    split.
    + exact IH1.
    + change (has_double_hyphen (String c (String d s)))
        with ((is_hyphen c && is_hyphen d) || has_double_hyphen (String d s)).
      rewrite IH2, orb_false_r.
      destruct Hc as [Hc|(d' & s' & Hs & Hdd)].
      * now rewrite (alnum_not_hyphen c Hc).
      * inversion Hs. subst. rewrite (alnum_not_hyphen _ Hdd).
        apply andb_false_r.
Qed.

(** The pattern of the handler accepts no username that violates the
    login grammar. *)
Lemma login_regex_rejects (s : string) :
  violates_login_grammar s = true -> login_regex_test s = false.
Proof.
  intros Hv. destruct (login_regex_test s) eqn:Ht; [|reflexivity].
  exfalso. destruct s as [|c s]; [discriminate|].
  cbn [login_regex_test] in Ht.
  apply andb_true_iff in Ht. destruct Ht as [Hc Ht].
  pose proof (login_tail_chars _ _ Ht) as H1.
  pose proof (login_tail_length _ _ Ht) as H2.
  destruct (login_tail_hyphens _ _ c Ht (or_introl Hc)) as [H3 H4].
  unfold violates_login_grammar in Hv.
  rewrite H3, H4 in Hv.
  cbn [all_chars starts_with_hyphen] in Hv.
  rewrite Hc, H1, (alnum_not_hyphen c Hc) in Hv.
  cbn [orb andb negb] in Hv.
  apply Nat.ltb_lt in Hv. cbn [String.length] in Hv. lia.
Qed.

Lemma not_hyphen_alnum (c : ascii) :
  alnum c || is_hyphen c = true -> is_hyphen c = false -> alnum c = true.
Proof. intros H Hh. rewrite Hh, orb_false_r in H. exact H. Qed.

(** Conversely, the pattern accepts every text of the grammar. *)
Lemma login_tail_accepts (s : string) :
  forall (n : nat) (c0 : ascii),
    (String.length s <= n)%nat ->
    all_chars (fun c => alnum c || is_hyphen c) s = true ->
    ends_with_hyphen (String c0 s) = false ->
    has_double_hyphen (String c0 s) = false ->
    login_tail n s = true.
Proof.
  induction s as [|d s IH]; intros n c0 Hlen Hall Hend Hdbl; [reflexivity|].
  destruct n as [|n]; [simpl in Hlen; lia|].
  cbn [all_chars] in Hall. apply andb_true_iff in Hall.
  destruct Hall as [Hd Hall].
  change (has_double_hyphen (String c0 (String d s)))
    with ((is_hyphen c0 && is_hyphen d) || has_double_hyphen (String d s))
    in Hdbl.
  apply orb_false_iff in Hdbl. destruct Hdbl as [_ Hdbl].
  assert (Hend' : ends_with_hyphen (String d s) = false) by exact Hend.
  assert (Ht : login_tail n s = true).
  { apply (IH n d); [simpl in Hlen; lia | assumption..]. }
  assert (Hcase : alnum d = true \/ (alnum d = false /\ is_hyphen d = true)).
  { destruct (alnum d); [now left|]. right. split; [reflexivity|].
    exact Hd. }
  cbn [login_tail]. destruct Hcase as [Ea|[Ea Hh]]; rewrite Ea; [exact Ht|].
  unfold is_hyphen in Hh. rewrite Hh.
  destruct s as [|e s']; [cbn in Hend'; unfold is_hyphen in Hend'; congruence|].
  rewrite Ht, andb_true_r.
  cbn [all_chars] in Hall. apply andb_true_iff in Hall.
  destruct Hall as [He _].
  change (has_double_hyphen (String d (String e s')))
    with ((is_hyphen d && is_hyphen e) || has_double_hyphen (String e s'))
    in Hdbl.
  apply orb_false_iff in Hdbl. destruct Hdbl as [Hde _].
  unfold is_hyphen at 1 in Hde. rewrite Hh in Hde. cbn [andb] in Hde.
  now apply not_hyphen_alnum.
Qed.

(** The pattern of the handler is the login grammar: it accepts a
    username exactly when it is not empty and violates nothing. *)
Lemma login_regex_exact (s : string) :
  login_regex_test s
  = negb (String.eqb s "") && negb (violates_login_grammar s).
Proof.
  destruct (violates_login_grammar s) eqn:Hv.
  - rewrite (login_regex_rejects s Hv). now rewrite andb_false_r.
  - destruct s as [|c s]; [reflexivity|]. cbn [String.eqb negb andb].
    unfold violates_login_grammar in Hv.
    apply orb_false_iff in Hv. destruct Hv as [Hv Hlen].
    apply orb_false_iff in Hv. destruct Hv as [Hv Hdbl].
    apply orb_false_iff in Hv. destruct Hv as [Hv Hend].
    apply orb_false_iff in Hv. destruct Hv as [Hall Hstart].
    apply negb_false_iff in Hall. apply Nat.ltb_ge in Hlen.
    cbn [all_chars] in Hall. apply andb_true_iff in Hall.
    destruct Hall as [Hc Hall]. cbn [starts_with_hyphen] in Hstart.
    cbn [login_regex_test].
    rewrite (not_hyphen_alnum c Hc Hstart). cbn [andb].
    apply (login_tail_accepts s 38 c); try assumption.
    cbn [String.length] in Hlen. lia.
Qed.

(** C10: a username that violates the login grammar is answered with
    status 400 before anything else happens: the world the handler leaves
    is the one it found, so no request went upstream and the cache is
    untouched. *)
Theorem invalid_username_rejected (E : JsEngine) (env : environment)
  (req : request) (w : world) (username : string) :
  q_username req = Some username ->
  violates_login_grammar username = true ->
  status (fst (handler env req w)) = 400
  /\ snd (handler env req w) = w
  /\ w_calls (snd (handler env req w)) = w_calls w.
Proof.
  intros Hu Hv. unfold handler. rewrite Hu. simpl nonempty.
  destruct (String.eqb username "") eqn:Ee.
  - repeat split.
  - rewrite (login_regex_rejects username Hv). repeat split.
Qed.

(** C10, an instance: a leading hyphen. *)
Lemma invalid_username_rejected_witness :
  status (fst (@handler utc_engine sample_environment
                 (request_for "-octocat") empty_world)) = 400
  /\ snd (@handler utc_engine sample_environment
            (request_for "-octocat") empty_world) = empty_world
  /\ w_calls (snd (@handler utc_engine sample_environment
                     (request_for "-octocat") empty_world))
     = w_calls empty_world.
Proof.
  exact (invalid_username_rejected utc_engine sample_environment
           (request_for "-octocat") empty_world "-octocat" eq_refl eq_refl).
Defined.

(** ** Strings *)

Lemma append_nil_r (s : string) : s ++ "" = s.
Proof. induction s as [|c s IH]; simpl; [reflexivity | now rewrite IH]. Qed.

Lemma append_assoc (a b c : string) : (a ++ b) ++ c = a ++ (b ++ c).
Proof. induction a as [|x a IH]; simpl; [reflexivity | now rewrite IH]. Qed.

Lemma Contains_refl (s : string) : Contains s s.
Proof. exists "", "". simpl. now rewrite append_nil_r. Qed.

Lemma Contains_app_l (pat x y : string) :
  Contains pat x -> Contains pat (x ++ y).
Proof.
  intros (a & b & ->). exists a, (b ++ y). now rewrite !append_assoc.
Qed.

Lemma Contains_app_r (pat x y : string) :
  Contains pat y -> Contains pat (x ++ y).
Proof.
  intros (a & b & ->). exists (x ++ a), b. now rewrite !append_assoc.
Qed.

Lemma Contains_trans (p q s : string) :
  Contains p q -> Contains q s -> Contains p s.
Proof.
  intros (a & b & ->) (a' & b' & ->). exists (a' ++ a), (b ++ b').
  now rewrite !append_assoc.
Qed.

Lemma string_rev_onto_app (s acc : string) :
  string_rev_onto s acc = string_rev s ++ acc.
Proof.
  unfold string_rev. revert acc. induction s as [|c s IH]; intros acc; simpl.
  - reflexivity.
  - rewrite (IH (String c acc)), (IH (String c "")), append_assoc. reflexivity.
Qed.

Lemma string_rev_cons (c : ascii) (s : string) :
  string_rev (String c s) = string_rev s ++ String c "".
Proof. unfold string_rev at 1. simpl. apply string_rev_onto_app. Qed.

Lemma string_rev_app (a b : string) :
  string_rev (a ++ b) = string_rev b ++ string_rev a.
Proof.
  induction a as [|c a IH]; simpl.
  - now rewrite append_nil_r.
  - now rewrite !string_rev_cons, IH, append_assoc.
Qed.

Lemma string_rev_involutive (s : string) : string_rev (string_rev s) = s.
Proof.
  induction s as [|c s IH]; [reflexivity|].
  now rewrite string_rev_cons, string_rev_app, IH.
Qed.

(** Dropping leading white space leaves a suffix. *)
Lemma drop_space_suffix (s : string) : exists a, s = a ++ drop_space s.
Proof.
  induction s as [|c s (a & IH)]; simpl.
  - now exists "".
  - destruct (is_space c).
    + exists (String c a). simpl. now rewrite <- IH.
    + now exists "".
Qed.

(** It stops before text that starts with anything else. *)
Lemma drop_space_keeps (a : string) (c : ascii) (rest : string) :
  is_space c = false ->
  exists a', drop_space (a ++ String c rest) = a' ++ String c rest.
Proof.
  intros Hc. induction a as [|x a (a' & IH)]; simpl.
  - rewrite Hc. now exists "".
  - destruct (is_space x).
    + now exists a'.
    + now exists (String x a).
Qed.

(** The trimmed string is a part of the string. *)
Lemma trim_part (s : string) : Contains (trim s) s.
Proof.
  unfold trim.
  destruct (drop_space_suffix s) as (a & Ha).
  destruct (drop_space_suffix (string_rev (drop_space s))) as (b & Hb).
  exists a, (string_rev b).
  rewrite Ha at 1. f_equal.
  rewrite <- (string_rev_involutive (drop_space s)) at 1.
  rewrite Hb at 1. apply string_rev_app.
Qed.

Lemma Contains_of_trim (pat s : string) :
  Contains pat (trim s) -> Contains pat s.
Proof. intros H. eapply Contains_trans; [exact H | apply trim_part]. Qed.

(** Trimming keeps what lies between two characters that are not white
    space. *)
Lemma Contains_trim (pat s : string) (c : ascii) (p' : string) :
  pat = String c p' -> is_space c = false -> last_char_plain pat ->
  Contains pat s -> Contains pat (trim s).
Proof.
  intros Hp Hc (t & e & Ht & He) (a & b & ->).
  unfold trim.
  destruct (drop_space_keeps a c (p' ++ b) Hc) as (a' & Ha).
  assert (E1 : a ++ pat ++ b = a ++ String c (p' ++ b)) by now rewrite Hp.
  rewrite E1, Ha.
  assert (E2 : a' ++ String c (p' ++ b) = a' ++ pat ++ b) by now rewrite Hp.
  rewrite E2, Ht, !string_rev_app, string_rev_cons. simpl string_rev.
  simpl append. rewrite !append_assoc. simpl append.
  destruct (drop_space_keeps (string_rev b) e
              (string_rev t ++ string_rev a') He) as (b' & Hb).
  rewrite Hb, string_rev_app.
  change (String e (string_rev t ++ string_rev a'))
    with (String e "" ++ (string_rev t ++ string_rev a')).
  rewrite !string_rev_app, !string_rev_involutive.
  exists a', (string_rev b').
  change (string_rev (String e "")) with (String e "").
  now rewrite !append_assoc.
Qed.

(** ** The search for the script tag *)

Lemma scan_app (k : nat) (a b : string) : scan k (a ++ b) = scan (scan k a) b.
Proof. revert k. induction a as [|c a IH]; intros k; simpl; auto. Qed.

Lemma scan_matched (s : string) : scan 8 s = 8%nat.
Proof. induction s as [|c s IH]; simpl; auto. Qed.

Lemma scan_bound (k : nat) (c : ascii) : (scan_step k c <= 8)%nat.
Proof.
  unfold scan_step. destruct (Nat.leb_spec 8 k) as [|Hk]; [lia|].
  do 8 (destruct k as [|k]; [cbn; destruct (Ascii.eqb c _);
                             [lia | destruct (is_char c 60); lia]|]).
  lia.
Qed.

Lemma scan_tag (k : nat) : scan k script_tag = 8%nat.
Proof.
  do 9 (destruct k as [|k]; [reflexivity|]).
  unfold script_tag. simpl. reflexivity.
Qed.

(** A string in which the search does not succeed does not hold the tag. *)
Lemma scan_complete (s : string) (k : nat) :
  Contains script_tag s -> scan k s = 8%nat.
Proof.
  intros (a & b & ->). rewrite !scan_app, scan_tag. apply scan_matched.
Qed.

Lemma Clean_no_tag (s : string) : Clean s -> ~ Contains script_tag s.
Proof.
  unfold Clean. intros Hc Hs. rewrite (scan_complete s 0 Hs) in Hc.
  discriminate.
Qed.

Lemma Clean_app (a b : string) : Clean a -> Clean b -> Clean (a ++ b).
Proof. unfold Clean. intros Ha Hb. now rewrite scan_app, Ha. Qed.

Lemma Clean_nil : Clean "".
Proof. reflexivity. Qed.

Lemma no_lt_app (a b : string) : no_lt (a ++ b) = no_lt a && no_lt b.
Proof.
  unfold no_lt. induction a as [|c a IH]; simpl; [reflexivity|].
  now rewrite IH, andb_assoc.
Qed.

Lemma no_lt_Clean (s : string) : no_lt s = true -> Clean s.
Proof.
  unfold Clean, no_lt. induction s as [|c s IH]; simpl; [reflexivity|].
  intros H. apply andb_true_iff in H. destruct H as [Hc Hs].
  assert (Hstep : scan_step 0 c = 0%nat).
  { unfold scan_step. cbn [Nat.leb get script_tag].
    apply negb_true_iff in Hc.
    destruct (Ascii.eqb_spec c "<") as [->|_]; [discriminate|].
    now rewrite Hc. }
  rewrite Hstep. now apply IH.
Qed.

(** ** Printed numbers hold no angle bracket *)

Lemma digit_char_plain (d : Z) :
  0 <= d <= 9 -> is_char (digit_char d) 60 = false.
Proof.
  intros Hd.
  assert (Hc : d = 0 \/ d = 1 \/ d = 2 \/ d = 3 \/ d = 4 \/ d = 5 \/ d = 6
               \/ d = 7 \/ d = 8 \/ d = 9) by lia.
  repeat (destruct Hc as [->|Hc]; [reflexivity|]). now subst.
Qed.

Lemma digit_cons_plain (n : Z) (acc : string) :
  no_lt acc = true -> no_lt (String (digit_char (n mod 10)) acc) = true.
Proof.
  intros Hacc. unfold no_lt. cbn [all_chars].
  pose proof (Z.mod_pos_bound n 10 ltac:(lia)) as Hm.
  rewrite digit_char_plain by lia. exact Hacc.
Qed.

Lemma digits_of_plain (fuel : nat) (n : Z) (acc : string) :
  no_lt acc = true -> no_lt (digits_of fuel n acc) = true.
Proof.
  revert n acc. induction fuel as [|f IH]; intros n acc Hacc.
  - cbn [digits_of]. now apply digit_cons_plain.
  - cbn [digits_of].
    destruct (n <? 10); [|apply IH]; now apply digit_cons_plain.
Qed.

Lemma Number_toString_plain (z : Z) : no_lt (Number_toString z) = true.
Proof.
  unfold Number_toString. destruct (z <? 0).
  - unfold no_lt. cbn [all_chars]. apply (digits_of_plain _ _ ""). reflexivity.
  - now apply digits_of_plain.
Qed.

Lemma show_num_plain (E : JsEngine) (HE : PlainFractions E) (x : jsnum) :
  no_lt (show_num x) = true.
Proof.
  destruct x as [| | |q]; try reflexivity. unfold show_num.
  destruct (Qden (Qred q) =? 1)%positive.
  - apply Number_toString_plain.
  - apply fraction_plain.
Qed.

Lemma show_int_plain (z : option Z) : no_lt (show_int z) = true.
Proof. destruct z; [apply Number_toString_plain | reflexivity]. Qed.

(** ** Escaping *)

Lemma replace_char_app (c : N) (r a b : string) :
  replace_char c r (a ++ b) = replace_char c r a ++ replace_char c r b.
Proof.
  induction a as [|x a IH]; simpl; [reflexivity|].
  destruct (is_char x c); rewrite IH; [now rewrite append_assoc | reflexivity].
Qed.

Lemma replace_char_other (c : N) (r : string) (a : ascii) (s : string) :
  is_char a c = false ->
  replace_char c r (String a s) = String a (replace_char c r s).
Proof. intros H. simpl. now rewrite H. Qed.

(** The five passes of [escapeHtml] amount to one pass that escapes each
    character on its own. *)
Lemma escape_passes (s : string) :
  replace_char 39 "&#39;"
    (replace_char 34 "&quot;"
       (replace_char 62 "&gt;"
          (replace_char 60 "&lt;" (replace_char 38 "&amp;" s))))
  = escape_each s.
Proof.
  induction s as [|c s IH]; [reflexivity|].
  cbn [escape_each]. rewrite <- IH. unfold esc_char.
  destruct (is_char c 38) eqn:E38.
  { apply is_char_eq in E38. subst c. reflexivity. }
  destruct (is_char c 60) eqn:E60.
  { apply is_char_eq in E60. subst c. reflexivity. }
  destruct (is_char c 62) eqn:E62.
  { apply is_char_eq in E62. subst c. reflexivity. }
  destruct (is_char c 34) eqn:E34.
  { apply is_char_eq in E34. subst c. reflexivity. }
  destruct (is_char c 39) eqn:E39.
  { apply is_char_eq in E39. subst c. reflexivity. }
  now rewrite !replace_char_other by assumption.
Qed.

Lemma escapeHtml_each (s : string) : escapeHtml s = escape_each s.
Proof.
  unfold escapeHtml. destruct (String.eqb_spec s "") as [->|_];
    [reflexivity | apply escape_passes].
Qed.

Lemma escape_each_app (a b : string) :
  escape_each (a ++ b) = escape_each a ++ escape_each b.
Proof.
  induction a as [|c a IH]; simpl; [reflexivity|].
  now rewrite IH, append_assoc.
Qed.

Lemma esc_char_cases (c : ascii) :
  (c = "&"%char /\ esc_char c = "&amp;")
  \/ (c = "<"%char /\ esc_char c = "&lt;")
  \/ (c = ">"%char /\ esc_char c = "&gt;")
  \/ (c = ascii_of_N 34 /\ esc_char c = "&quot;")
  \/ (c = "'"%char /\ esc_char c = "&#39;")
  \/ (is_char c 38 = false /\ special c = false
      /\ esc_char c = String c "").
Proof.
  unfold esc_char, special.
  destruct (is_char c 38) eqn:E38.
  { apply is_char_eq in E38. auto. }
  destruct (is_char c 60) eqn:E60.
  { apply is_char_eq in E60. auto. }
  destruct (is_char c 62) eqn:E62.
  { apply is_char_eq in E62. auto 6. }
  destruct (is_char c 34) eqn:E34.
  { apply is_char_eq in E34. auto 6. }
  destruct (is_char c 39) eqn:E39.
  { apply is_char_eq in E39. auto 8. }
  do 5 right. auto.
Qed.

Lemma escape_each_plain (s : string) : no_lt (escape_each s) = true.
Proof.
  induction s as [|c s IH]; [reflexivity|].
  cbn [escape_each]. rewrite no_lt_app, IH, andb_true_r.
  destruct (esc_char_cases c)
    as [[_ ->]|[[_ ->]|[[_ ->]|[[_ ->]|[[_ ->]|(_ & Hs & ->)]]]]];
    try reflexivity.
  unfold special in Hs. apply orb_false_iff in Hs. destruct Hs as [Hs _].
  apply orb_false_iff in Hs. destruct Hs as [Hs _].
  apply orb_false_iff in Hs. destruct Hs as [Hs _].
  unfold no_lt. cbn [all_chars]. now rewrite Hs.
Qed.

Lemma escape_each_only_escaped (s : string) :
  only_escaped (escape_each s) = true.
Proof.
  induction s as [|c s IH]; [reflexivity|].
  cbn [escape_each].
  destruct (esc_char_cases c)
    as [[_ ->]|[[_ ->]|[[_ ->]|[[_ ->]|[[_ ->]|(H38 & Hs & ->)]]]]];
    try exact IH.
  cbn [append only_escaped]. now rewrite Hs, H38.
Qed.

Lemma escapeHtml_Clean (s : string) : Clean (escapeHtml s).
Proof. rewrite escapeHtml_each. apply no_lt_Clean, escape_each_plain. Qed.

(** ** The markup of the activity card *)

Lemma lookup_In {V : Type} (k : string) (v : V) (d : dict V) :
  lookup k d = Some v -> In (k, v) d.
Proof.
  induction d as [|[k' v'] d IH]; simpl; [discriminate|].
  destruct (String.eqb_spec k k') as [->|_].
  - intros H. inversion H. now left.
  - intros H. right. now apply IH.
Qed.

Lemma theme_config_plain (name : string) :
  theme_plain (theme_config name) = true.
Proof.
  unfold theme_config. destruct (lookup name themes) as [t|] eqn:El.
  - apply lookup_In in El.
    assert (Hall : forallb (fun kv => theme_plain (snd kv)) themes = true)
      by (vm_compute; reflexivity).
    rewrite forallb_forall in Hall. exact (Hall _ El).
  - vm_compute. reflexivity.
Qed.

Lemma theme_plain_inv (t : theme) :
  theme_plain t = true ->
  Clean (th_background t) /\ Clean (th_border t) /\ Clean (th_title t)
  /\ Clean (th_text t) /\ Clean (th_icon t) /\ Clean (th_accent t).
Proof.
  unfold theme_plain. rewrite !andb_true_iff.
  intros (((((H1 & H2) & H3) & H4) & H5) & H6).
  repeat split; now apply no_lt_Clean.
Qed.

Lemma Number_toString_Clean (z : Z) : Clean (Number_toString z).
Proof. apply no_lt_Clean, Number_toString_plain. Qed.

Lemma show_num_Clean (E : JsEngine) (HE : PlainFractions E) (x : jsnum) :
  Clean (show_num x).
Proof. now apply no_lt_Clean, show_num_plain. Qed.

Create HintDb clean.
#[local] Hint Resolve Clean_nil escapeHtml_Clean Number_toString_Clean
  show_num_Clean : clean.

(** A concatenation is clean when its pieces are: a literal by
    evaluation, a printed value by the lemmas above. *)
Ltac clean :=
  repeat match goal with
         | |- Clean (append _ _) => apply Clean_app
         end;
  try solve [auto with clean];
  try reflexivity.

Ltac with_theme H :=
  let H1 := fresh in let H2 := fresh in let H3 := fresh in
  let H4 := fresh in let H5 := fresh in let H6 := fresh in
  destruct (theme_plain_inv _ H) as (H1 & H2 & H3 & H4 & H5 & H6).

Section ActivityCard.
Context {E : JsEngine} {HE : PlainFractions E}.

Lemma border_style_Clean (b : bool) (th : theme) :
  theme_plain th = true -> Clean (border_style b th).
Proof.
  intros Hth. with_theme Hth. unfold border_style. destruct b; clean.
Qed.

Lemma activity_open_Clean (width height : Z) (th : theme) (r : jsnum)
  (bs : string) :
  theme_plain th = true -> Clean bs ->
  Clean (activity_open width height th r bs).
Proof. intros Hth Hbs. with_theme Hth. unfold activity_open. clean. Qed.

Lemma activity_header_Clean (y : Z) (dn : string) :
  Clean (activity_header y dn).
Proof. unfold activity_header. clean. Qed.

Lemma activity_language_Clean (y : Z) (th : theme) (l : string) :
  theme_plain th = true -> Clean (activity_language y th l).
Proof. intros Hth. with_theme Hth. unfold activity_language. clean. Qed.

Lemma summary_lines_svg_Clean (lines : list string) (y : Z) (i : nat) :
  Clean (summary_lines_svg y i lines).
Proof.
  revert i. induction lines as [|l r IH]; intros i; cbn [summary_lines_svg].
  - apply Clean_nil.
  - apply Clean_app; [|apply IH]. unfold activity_summary_line. clean.
Qed.

Lemma stats_svg_Clean (items : list (string * string)) (x y : Z) :
  Clean (stats_svg x y items).
Proof.
  revert x. induction items as [|[label value] r IH]; intros x;
    cbn [stats_svg].
  - apply Clean_nil.
  - apply Clean_app; [|apply IH]. unfold activity_stat. clean.
Qed.

Lemma projects_svg_Clean (ps : list project) (y : Z) :
  Clean (projects_svg y ps).
Proof.
  revert y. induction ps as [|p r IH]; intros y; cbn [projects_svg].
  - apply Clean_nil.
  - apply Clean_app; [|apply IH]. unfold activity_project. clean.
Qed.

Lemma badges_svg_Clean (l : list string) (x : Z) (th : theme) :
  theme_plain th = true -> Clean (badges_svg x th l).
Proof.
  intros Hth. with_theme Hth.
  revert x. induction l as [|a r IH]; intros x; cbn [badges_svg].
  - apply Clean_nil.
  - apply Clean_app; [|apply IH]. unfold activity_badge. clean.
Qed.

Lemma run_stretches_Clean (l : list stretch) :
  Forall (fun f => forall y, Clean (fst (f y))) l ->
  forall y, Clean (run_stretches l y).
Proof.
  induction 1 as [|f r Hf _ IH]; intros y; cbn [run_stretches].
  - apply Clean_nil.
  - apply Clean_app; [apply Hf | apply IH].
Qed.

(** The card before trimming. *)
Lemma activity_card_Clean (sd : summaryData)
  (width height y0 : Z) (th : theme) (r : jsnum) (b hs hp : bool)
  (lines : list string) :
  theme_plain th = true ->
  Clean (activity_open width height th r (border_style b th)
         ++ run_stretches
              [ header_stretch sd; language_stretch th sd;
                summary_stretch lines; stats_stretch hs sd;
                projects_stretch hp sd; achievements_stretch th sd ] y0
         ++ nl ++ "</svg>").
Proof.
  intros Hth. apply Clean_app.
  { apply activity_open_Clean; [assumption | now apply border_style_Clean]. }
  apply Clean_app; [|reflexivity].
  apply run_stretches_Clean. repeat constructor; intros y.
  - apply activity_header_Clean.
  - unfold language_stretch. destruct (nonempty (primaryLanguage sd)).
    + now apply activity_language_Clean.
    + apply Clean_nil.
  - apply summary_lines_svg_Clean.
  - unfold stats_stretch. destruct (negb hs); [|apply Clean_nil].
    apply Clean_app; [unfold section_title_stats; clean | apply stats_svg_Clean].
  - unfold projects_stretch.
    destruct (negb hp && has_any (recentProjects sd)); [|apply Clean_nil].
    apply Clean_app;
      [unfold section_title_projects; clean | apply projects_svg_Clean].
  - unfold achievements_stretch.
    destruct (has_any (achievements sd)); [|apply Clean_nil]. cbn [fst].
    apply Clean_app; [unfold achievements_open; clean|].
    apply Clean_app; [now apply badges_svg_Clean | reflexivity].
Qed.

End ActivityCard.

(** ** The reference engine prints fractions plainly *)

Lemma frac_digits_plain (fuel : nat) (num den : Z) :
  0 <= num < den -> no_lt (frac_digits fuel num den) = true.
Proof.
  revert num. induction fuel as [|f IH]; intros num Hn; cbn [frac_digits].
  - reflexivity.
  - destruct (num =? 0); [reflexivity|].
    unfold no_lt. cbn [all_chars].
    rewrite digit_char_plain.
    + apply IH. apply Z.mod_pos_bound. lia.
    + split.
      * apply Z.div_pos; lia.
      * assert (10 * num / den < 10); [|lia].
        apply Z.div_lt_upper_bound; lia.
Qed.

Lemma utc_engine_plain : PlainFractions utc_engine.
Proof.
  intros q. cbn [fraction_toString utc_engine]. unfold ref_fraction_toString.
  rewrite !no_lt_app, Number_toString_plain, frac_digits_plain.
  - now destruct (Qnum q <? 0).
  - apply Z.mod_pos_bound. lia.
Qed.

(** ** Escaping in the activity card *)

Lemma header_holds_name (y : Z) (dn : string) :
  Contains (">" ++ escapeHtml dn ++ "'s GitHub Activity</text>")
    (activity_header y dn).
Proof.
  unfold activity_header.
  exists (nl ++ "  <g transform=" ++ dq ++ "translate(25, "
          ++ Number_toString y ++ ")" ++ dq ++ ">" ++ nl
          ++ "    <text class=" ++ dq ++ "header" ++ dq),
         (nl ++ "  </g>" ++ nl).
  rewrite !append_assoc. reflexivity.
Qed.

Lemma escapeHtml_tag (dn : string) :
  Contains script_tag dn -> Contains "&lt;script&gt;" (escapeHtml dn).
Proof.
  intros (a & b & ->). rewrite escapeHtml_each, !escape_each_app.
  exists (escape_each a), (escape_each b). reflexivity.
Qed.



(** ** The languages card on the summary of the synthesizer *)

Lemma truthy_nonempty (f : jsfield) (s : string) :
  truthy f = Some s -> s <> "".
Proof.
  destruct f as [| |t]; simpl; try discriminate.
  destruct (String.eqb_spec t "") as [->|Hne]; [discriminate|].
  intros H. inversion H. now subst.
Qed.

Lemma language_names_nonempty (repos : list repo) (n : string) :
  In n (keys (languages (fetchContributionStats repos))) -> n <> "".
Proof.
  intros Hin. apply language_keys_iff in Hin.
  destruct Hin as (r & _ & Hr). eapply truthy_nonempty; eassumption.
Qed.

Lemma In_of_firstn {A : Type} (n : nat) (l : list A) (x : A) :
  In x (firstn n l) -> In x l.
Proof.
  revert l. induction n as [|n IH]; intros [|y l]; simpl; try tauto.
  intros [->|H]; [now left | right; now apply IH].
Qed.

Section LanguagesCard.
Context {E : JsEngine} {HE : EcmaStringToNumber E}.

Lemma name_size_NaN (n : string) :
  plain_second n = true -> ToNumber_val (entry_size (LName n)) = NaN.
Proof.
  destruct n as [|c [|c2 rest]]; simpl; try reflexivity.
  destruct (digit_val c2) eqn:Ed; [discriminate|].
  intros Hs. apply negb_true_iff in Hs. now apply one_char_not_numeric.
Qed.

Lemma name_datum_NaN (total : jsnum) (n : string) :
  n <> "" -> plain_second n = true ->
  {| ld_name := entry_lang (LName n);
     ld_percentage :=
       toFixed1 (jsnum_mul (jsnum_div (ToNumber_val (entry_size (LName n)))
                              total) (of_Z 100));
     ld_color := language_color (entry_lang (LName n)) |}
  = name_datum "NaN" n.
Proof.
  intros Hne Hp. rewrite (name_size_NaN n Hp).
  destruct n as [|c rest]; [contradiction|]. reflexivity.
Qed.

Lemma languageData_names (names : list string) :
  (List.length names <= 5)%nat ->
  Forall (fun n => n <> "" /\ plain_second n = true) names ->
  languageData (map LName names) = map (name_datum "NaN") names.
Proof.
  intros Hlen Hall. unfold languageData.
  rewrite firstn_all2 by now rewrite length_map.
  rewrite map_map. apply map_ext_in. intros n Hn.
  rewrite Forall_forall in Hall. destruct (Hall n Hn) as [Hne Hp].
  now apply name_datum_NaN.
Qed.

End LanguagesCard.

Lemma last_char_plain_app (a b : string) :
  last_char_plain b -> last_char_plain (a ++ b).
Proof.
  intros (t & c & -> & Hc). exists (a ++ t), c.
  split; [now rewrite append_assoc | assumption].
Qed.

Lemma label_texts_edges (name percentage : string) :
  (exists p', label_texts name percentage = String "<" p')
  /\ last_char_plain (label_texts name percentage).
Proof.
  split.
  - eexists. reflexivity.
  - unfold label_texts.
    repeat match goal with
           | |- last_char_plain (append _ _) => apply last_char_plain_app
           end.
    exists "%</text", ">"%char. split; reflexivity.
Qed.

(** When every name is there, the loop of the labels ends, and its
    output holds the texts of every entry. *)
Lemma labels_svg_total (data : list languageDatum) :
  forall (i : nat) (x y : Z),
    Forall (fun d => ld_name d <> None) data ->
    exists labels,
      labels_svg i x y data = Some labels
      /\ forall d name, In d data -> ld_name d = Some name ->
           Contains (label_texts name (ld_percentage d)) labels.
Proof.
  induction data as [|d r IH]; intros i x y Hall.
  - exists "". split; [reflexivity|]. intros d name [].
  - inversion Hall as [|? ? Hd Hr]; subst. cbn [labels_svg].
    set (wrap := (0 <? i)%nat && Nat.eqb (i mod 3) 0).
    set (y' := if wrap then y + 20 else y).
    set (x' := if wrap then 15 else x).
    unfold language_label.
    destruct (ld_name d) as [name|] eqn:En; [|contradiction].
    destruct (IH (S i) (x' + 90) y' Hr) as (rest & Hrest & Hin).
    rewrite Hrest. eexists. split; [reflexivity|].
    intros d0 name0 [<-|Hd0] Hn0.
    + rewrite En in Hn0. inversion Hn0. subst name0.
      apply Contains_app_l, Contains_app_r, Contains_app_l, Contains_refl.
    + apply Contains_app_r. eapply Hin; eassumption.
Qed.

Lemma utc_engine_numeric : EcmaStringToNumber utc_engine.
Proof.
  intros c Hd Hs. cbn [StringToNumber utc_engine]. unfold ref_StringToNumber.
  assert (Ht : trim (String c "") = String c "").
  { unfold trim. cbn [drop_space]. rewrite Hs.
    change (string_rev (String c "")) with (String c "").
    cbn [drop_space]. now rewrite Hs. }
  rewrite Ht. cbn [decimal_value]. now rewrite Hd.
Qed.




(* ================================================================== *)
(** * Part III: further properties of the code *)
(* ================================================================== *)

(** ** The analyzer, key by key *)

(** ** Counts per key *)

Lemma weight_count {A : Type} (key : A -> option string) (k : string)
  (l : list A) :
  weight_under key (fun _ => 1) k l
  = count_where (fun x => is_key k (key x)) l.
Proof.
  induction l as [|x r IH]; [reflexivity|].
  rewrite count_where_cons. cbn [weight_under]. now rewrite IH.
Qed.

Lemma count_where_pos {A : Type} (f : A -> bool) (l : list A) :
  1 <= count_where f l <-> exists x, In x l /\ f x = true.
Proof.
  induction l as [|x r IH].
  - unfold count_where. simpl. split; [lia | intros (x & [] & _)].
  - rewrite count_where_cons. destruct (f x) eqn:Ef.
    + split; [intros _; exists x; simpl; auto|].
      intros _. unfold count_where. lia.
    + rewrite Z.add_0_l, IH. split.
      * intros (y & Hy & Hf). exists y. simpl. auto.
      * intros (y & [->|Hy] & Hf); [congruence | eauto].
Qed.

Lemma count_where_le {A : Type} (f : A -> bool) (l : list A) :
  0 <= count_where f l <= Z.of_nat (List.length l).
Proof.
  unfold count_where. pose proof (filter_length_le f l). lia.
Qed.

Lemma is_key_Some (k k' : string) : is_key k (Some k') = true <-> k' = k.
Proof.
  simpl. rewrite String.eqb_eq. split; congruence.
Qed.

(** An entry of a dictionary with distinct keys is what [lookup] finds. *)
Lemma In_lookup {V : Type} (k : string) (v : V) (d : dict V) :
  NoDup (keys d) -> In (k, v) d -> lookup k d = Some v.
Proof.
  induction d as [|[k' v'] d IH]; simpl; intros Hnd Hin; [contradiction|].
  inversion Hnd as [|? ? Hn Hd]; subst.
  destruct Hin as [Heq|Hin].
  - inversion Heq. subst. now rewrite String.eqb_refl.
  - destruct (String.eqb_spec k k') as [->|_].
    + exfalso. apply Hn. change k' with (fst (k', v)). now apply in_map.
    + now apply IH.
Qed.

Lemma file_all_NoDup {A : Type} (key : A -> option string) (w : A -> Z)
  (l : list A) :
  NoDup (keys (file_all key w l [])).
Proof. rewrite file_all_keys. simpl. apply first_seen_NoDup. Qed.

(** What filing leaves under a key: nothing when no element has the key,
    and the number of elements that have it otherwise. *)
Lemma file_all_entry {A : Type} (key : A -> option string) (k : string)
  (l : list A) :
  lookup k (file_all key (fun _ => 1) l [])
  = if count_where (fun x => is_key k (key x)) l =? 0 then None
    else Some (count_where (fun x => is_key k (key x)) l).
Proof.
  pose proof (file_all_lookup key (fun _ => 1) k l []) as Hl.
  rewrite weight_count in Hl. simpl in Hl.
  destruct (lookup k (file_all key (fun _ => 1) l [])) as [v|] eqn:El.
  - assert (Hin : In k (keys (file_all key (fun _ => 1) l []))).
    { destruct (in_dec string_dec k (keys (file_all key (fun _ => 1) l [])))
        as [H|H]; [assumption|].
      apply lookup_None_keys in H. congruence. }
    rewrite file_all_keys in Hin. simpl in Hin.
    apply first_seen_In in Hin. destruct Hin as [Hin _].
    apply in_map_iff in Hin. destruct Hin as (x & Hx & Hin).
    assert (Hpos : 1 <= count_where (fun x => is_key k (key x)) l).
    { apply count_where_pos. exists x. split; [assumption|].
      rewrite Hx. apply String.eqb_refl. }
    simpl in Hl. destruct (Z.eqb_spec (count_where (fun x => is_key k (key x)) l) 0);
      [lia | now f_equal].
  - apply lookup_None_keys in El.
    rewrite file_all_keys in El. simpl in El. rewrite first_seen_In in El.
    destruct (Z.eqb_spec (count_where (fun x => is_key k (key x)) l) 0)
      as [|Hne]; [reflexivity|].
    exfalso. apply El. split; [|tauto].
    assert (Hpos : 1 <= count_where (fun x => is_key k (key x)) l).
    { pose proof (count_where_le (fun x => is_key k (key x)) l). lia. }
    apply count_where_pos in Hpos. destruct Hpos as (x & Hin & Hx).
    apply in_map_iff. exists x. split; [|assumption].
    unfold is_key in Hx. destruct (key x) as [k'|]; [|discriminate].
    apply String.eqb_eq in Hx. now subst.
Qed.

Lemma first_seen_length (l : list (option string)) (seen : list string) :
  (List.length (first_seen l seen) <= List.length l)%nat.
Proof.
  revert seen. induction l as [|[k|] r IH]; intros seen; simpl.
  - lia.
  - destruct (existsb (String.eqb k) seen); simpl;
      [specialize (IH seen) | specialize (IH (k :: seen))]; lia.
  - specialize (IH seen). lia.
Qed.

Lemma sum_map_keyed {A : Type} (key : A -> option string) (l : list A) :
  sum [] + sum (map (fun x => match key x with Some _ => 1 | None => 0 end) l)
  = count_where (fun x => match key x with Some _ => true | None => false end)
      l.
Proof.
  induction l as [|x r IH]; [reflexivity|].
  rewrite count_where_cons, <- IH. unfold sum. cbn [map fold_right].
  destruct (key x); lia.
Qed.


(** ** The busiest repository *)

(** The head of the sorted entries is the first entry of the largest
    count: the sort is stable. *)
Lemma sort_head_first_max (l : list (string * Z)) :
  l <> [] ->
  exists l1 p l2,
    l = (l1 ++ p :: l2)%list
    /\ hd_error (sort_by count_desc l) = Some p
    /\ (forall q, In q l1 -> snd q < snd p)
    /\ (forall q, In q l2 -> snd q <= snd p).
Proof.
  induction l as [|x r IH]; [congruence|]. intros _.
  destruct r as [|y r'].
  - exists [], x, []. split; [reflexivity|]. split; [reflexivity|].
    split; intros q [].
  - destruct (IH ltac:(discriminate)) as (l1 & p & l2 & Hr & Hhd & H1 & H2).
    change (sort_by count_desc (x :: y :: r'))
      with (insert_by count_desc x (sort_by count_desc (y :: r'))).
    destruct (sort_by count_desc (y :: r')) as [|p' t] eqn:Es; [discriminate|].
    cbn [hd_error] in Hhd. inversion Hhd. subst p'.
    cbn [insert_by]. unfold count_desc at 1.
    destruct (Z.leb_spec (snd p - snd x) 0) as [Hle|Hgt].
    + exists [], x, (y :: r'). cbn [app hd_error].
      split; [reflexivity|]. split; [reflexivity|]. split.
      * intros q [].
      * intros q Hq. rewrite Hr in Hq. apply in_app_iff in Hq.
        destruct Hq as [Hq|[<-|Hq]].
        -- specialize (H1 q Hq). lia.
        -- lia.
        -- specialize (H2 q Hq). lia.
    + exists (x :: l1), p, l2. cbn [app hd_error]. rewrite Hr.
      split; [reflexivity|]. split; [reflexivity|]. split; [|assumption].
      intros q [<-|Hq]; [lia | now apply H1].
Qed.

Lemma tally_repo_entries (E : JsEngine) (events : list event) :
  t_repoActivity (tally_events events)
  = file_all (fun e => Some (repo_key e)) (fun _ => 1) events [].
Proof. unfold tally_events. now rewrite tally_repoActivity. Qed.

(** An entry of the repository tally holds the number of events of its
    repository, which is not zero. *)
Lemma repo_entry_count (E : JsEngine) (events : list event) (r : string)
  (c : Z) :
  In (r, c) (t_repoActivity (tally_events events)) ->
  c = count_where (in_repo r) events /\ 1 <= c.
Proof.
  intros Hin. rewrite tally_repo_entries in Hin.
  apply In_lookup in Hin; [|apply file_all_NoDup].
  rewrite file_all_entry in Hin.
  fold (in_repo r) in Hin.
  change (fun x : event => is_key r (Some (repo_key x))) with (in_repo r) in Hin.
  destruct (Z.eqb_spec (count_where (in_repo r) events) 0); [discriminate|].
  inversion Hin. pose proof (count_where_le (in_repo r) events). lia.
Qed.

Lemma repo_key_nonempty (e : event) : repo_key e <> "".
Proof.
  unfold repo_key. destruct (truthy (repo_name e)) as [n|] eqn:Et.
  - eapply truthy_nonempty. exact Et.
  - discriminate.
Qed.

Lemma repo_has_entry (E : JsEngine) (events : list event) (r : string) :
  1 <= count_where (in_repo r) events ->
  In (r, count_where (in_repo r) events) (t_repoActivity (tally_events events)).
Proof.
  intros Hpos. rewrite tally_repo_entries. apply lookup_In.
  rewrite file_all_entry.
  change (fun x : event => is_key r (Some (repo_key x))) with (in_repo r).
  destruct (Z.eqb_spec (count_where (in_repo r) events) 0); [lia | reflexivity].
Qed.

Lemma first_seen_app (a b : list (option string)) (seen : list string) :
  first_seen (a ++ b) seen
  = (first_seen a seen ++ first_seen b (first_seen a seen ++ seen))%list.
Proof.
  revert seen. induction a as [|[k|] a IH]; intros seen; simpl.
  - reflexivity.
  - destruct (existsb (String.eqb k) seen) eqn:Ex.
    + apply IH.
    + rewrite IH. simpl. do 2 f_equal. apply first_seen_ext.
      intros k'. rewrite !in_app_iff. simpl. rewrite in_app_iff. tauto.
  - apply IH.
Qed.

(** In a list without repetition, what lies in a prefix that misses [r]
    lies before [r]. *)
Lemma before_in_NoDup (A B C D : list string) (r r' : string) :
  NoDup (A ++ B) -> (A ++ B = C ++ r :: D)%list -> ~ In r A -> In r' A ->
  In r' C.
Proof.
  revert C. induction A as [|a A IH]; intros C Hnd Heq Hr Hr'; [contradiction|].
  destruct C as [|c C].
  - simpl in Heq. inversion Heq. subst. exfalso. apply Hr. now left.
  - simpl in Heq. inversion Heq. subst c.
    destruct Hr' as [->|Hr']; [now left|]. right.
    apply IH; try assumption.
    + now inversion Hnd.
    + intros H. apply Hr. now right.
Qed.


(** ** The five busiest repositories *)

Lemma count_desc_total (a b : string * Z) :
  count_desc a b = true \/ count_desc b a = true.
Proof. unfold count_desc. destruct (Z.leb_spec (snd b - snd a) 0); [auto|]. right. apply Z.leb_le. lia. Qed.

Lemma Sorted_weaken {A : Type} (R R' : A -> A -> Prop) (l : list A) :
  (forall a b, R a b -> R' a b) -> Sorted R l -> Sorted R' l.
Proof.
  intros Himp. induction 1 as [|a l Hs IH Hhd]; constructor; [assumption|].
  destruct Hhd; constructor. now apply Himp.
Qed.

Lemma sorted_repos_strongly (l : list (string * Z)) :
  StronglySorted count_ge (sort_by count_desc l).
Proof.
  apply Sorted_StronglySorted.
  - intros a b c. unfold count_ge. lia.
  - eapply Sorted_weaken; [|apply (sort_by_sorted count_desc count_desc_total)].
    intros a b. unfold count_ge, count_desc. cbv beta. rewrite Z.leb_le. lia.
Qed.

Lemma descending_sorted (l : list (string * Z)) :
  StronglySorted count_ge l -> descending (map snd l) = true.
Proof.
  induction 1 as [|a l Hs IH Hall]; [reflexivity|].
  destruct l as [|b l']; [reflexivity|].
  cbn [map descending] in *. rewrite IH, andb_true_r. apply Z.leb_le.
  inversion Hall. assumption.
Qed.

Lemma firstn_strongly {A : Type} (R : A -> A -> Prop) (n : nat) (l : list A) :
  StronglySorted R l ->
  StronglySorted R (firstn n l)
  /\ forall a b, In a (firstn n l) -> In b (skipn n l) -> R a b.
Proof.
  intros Hs. revert n. induction Hs as [|x l Hs IH Hall]; intros n.
  - rewrite firstn_nil, skipn_nil. split; [constructor | intros a b _ []].
  - destruct n as [|n]; cbn [firstn skipn].
    + split; [constructor | intros a b []].
    + destruct (IH n) as [H1 H2]. split.
      * constructor; [assumption|]. rewrite Forall_forall in *.
        intros y Hy. apply Hall. eapply In_of_firstn. exact Hy.
      * intros a b [<-|Ha] Hb.
        -- rewrite Forall_forall in Hall. apply Hall.
           rewrite <- (firstn_skipn n l). apply in_app_iff. now right.
        -- now apply H2.
Qed.


(** ** Bounds on the streak *)

Lemma streak_loop_bounds (E : JsEngine) (rest : list string) :
  forall prev cur mx, 0 <= cur ->
    Z.max mx cur <= streak_loop prev rest cur mx
    /\ streak_loop prev rest cur mx
       <= Z.max mx (cur + Z.of_nat (List.length rest)).
Proof.
  induction rest as [|c rest IH]; intros prev cur mx Hcur; cbn [streak_loop].
  - cbn [List.length]. lia.
  - cbn [List.length]. destruct (is_one (diffDays prev c)).
    + destruct (IH c (cur + 1) mx ltac:(lia)). lia.
    + destruct (IH c 1 (Z.max mx cur) ltac:(lia)). lia.
Qed.

Lemma sort_by_length {A : Type} (le : A -> A -> bool) (l : list A) :
  List.length (sort_by le l) = List.length l.
Proof. apply Permutation_length, sort_by_perm. Qed.


(** ** The schedule pattern *)

Lemma peakHour_range (E : JsEngine) (events : list event) :
  0 <= peakHour (analyzeEvents events) < 24.
Proof.
  assert (Hne : t_hourlyActivity (tally_events events) <> []).
  { intros H. pose proof (hourly_length events) as Hl. rewrite H in Hl.
    discriminate. }
  destruct (peak_of_spec _ Hne) as (n & Hp & Hn & _).
  rewrite hourly_length in Hn.
  change (peakHour (analyzeEvents events))
    with (peak_of (t_hourlyActivity (tally_events events))).
  lia.
Qed.

Lemma peakHour_none (E : JsEngine) (events : list event) :
  (forall e, In e events -> event_hour e = None) ->
  peakHour (analyzeEvents events) = 0.
Proof.
  intros Hnone.
  assert (Hrep : t_hourlyActivity (tally_events events) = repeat 0 24).
  { unfold tally_events.
    assert (Hgen : forall t, t_hourlyActivity (fold_left tally_step events t)
                             = t_hourlyActivity t).
    { induction events as [|e r IH]; intros t; [reflexivity|].
      cbn [fold_left]. rewrite IH.
      - cbn [tally_step t_hourlyActivity]. rewrite (Hnone e); [reflexivity | now left].
      - intros e' He'. apply Hnone. now right. }
    now rewrite Hgen. }
  change (peakHour (analyzeEvents events))
    with (peak_of (t_hourlyActivity (tally_events events))).
  now rewrite Hrep.
Qed.

(** X5: the summary holds exactly one pattern of type [schedule], without
    severity, and its description is chosen by the band of the peak hour:
    the night owl below 6, the early bird from 6 up to 12, the afternoon
    from 12 up to 18 and the evening coder from 18 on.  When no event has a
    readable hour the peak hour is 0 and the developer is called a night
    owl. *)
Theorem schedule_pattern_by_band (E : JsEngine) (p : profile)
  (events : list event) (repos : list repo) :
  let sd := generateActivitySummary (activity_of p events repos) in
  let h := peakHour (analyzeEvents events) in
  exists d,
    filter is_schedule (notablePatterns sd)
    = [ {| p_type := schedule; severity := None; description := d |} ]
    /\ (d = "a night owl, most active in the early morning hours" <-> h < 6)
    /\ (d = "an early bird, most productive in the morning" <-> 6 <= h < 12)
    /\ (d = "most active during afternoon hours" <-> 12 <= h < 18)
    /\ (d = "an evening coder, most active in the late hours" <-> 18 <= h)
    /\ ((forall e, In e events -> event_hour e = None) ->
        d = "a night owl, most active in the early morning hours").
Proof.
  intros sd h.
  pose proof (peakHour_range E events) as Hr. fold h in Hr.
  exists (timeDescription h). split.
  { unfold sd. cbn [generateActivitySummary notablePatterns].
    rewrite filter_app. unfold streak_patterns.
    destruct (7 <=? activityStreak (ad_eventAnalysis (activity_of p events repos)));
      reflexivity. }
  assert (Hnone : (forall e, In e events -> event_hour e = None) ->
                  timeDescription h
                  = "a night owl, most active in the early morning hours").
  { intros Hn. unfold h. now rewrite (peakHour_none E events Hn). }
  unfold timeDescription in *.
  destruct (Z.leb_spec 0 h); [|lia]. cbn [andb] in *.
  destruct (Z.ltb_spec h 6).
  { repeat split; intros; try reflexivity; try lia; try discriminate. }
  destruct (Z.leb_spec 6 h); [|lia]. cbn [andb] in *.
  destruct (Z.ltb_spec h 12).
  { repeat split; intros; try reflexivity; try lia; try discriminate; auto. }
  destruct (Z.leb_spec 12 h); [|lia]. cbn [andb] in *.
  destruct (Z.ltb_spec h 18).
  { repeat split; intros; try reflexivity; try lia; try discriminate; auto. }
  repeat split; intros; try reflexivity; try lia; try discriminate; auto.
Qed.

(** ** The primary language *)


(** ** The short name of a repository *)

Lemma split_on_whole (c : N) (s : string) :
  free_of c s = true -> split_on c s = [s].
Proof.
  unfold free_of. induction s as [|a s IH]; [reflexivity|].
  cbn [all_chars split_on]. intros H. apply andb_true_iff in H.
  destruct H as [Ha Hs]. apply negb_true_iff in Ha. rewrite Ha.
  now rewrite (IH Hs).
Qed.

Lemma split_on_sep (c : N) (sep : ascii) (a b : string) :
  is_char sep c = true -> free_of c a = true ->
  split_on c (a ++ String sep b) = a :: split_on c b.
Proof.
  unfold free_of. intros Hsep Ha. induction a as [|x a IH].
  - cbn [append split_on]. now rewrite Hsep.
  - cbn [all_chars] in Ha. apply andb_true_iff in Ha. destruct Ha as [Hx Ha].
    apply negb_true_iff in Hx. cbn [append split_on]. rewrite Hx.
    now rewrite (IH Ha).
Qed.

Lemma split_on_nonempty (c : N) (s : string) : split_on c s <> [].
Proof.
  induction s as [|a s IH]; cbn [split_on]; [discriminate|].
  destruct (is_char a c); [discriminate|].
  destruct (split_on c s); [contradiction | discriminate].
Qed.

(** X7: the short name of a repository ([name.split('/')[1] || name]) is
    the segment between the first and the second slash when that segment
    is not empty, whatever follows it; a name without a slash and a name
    with nothing after its only slash are kept whole. *)
Theorem short_name_is_second_segment (owner nm rest : string) :
  free_of 47 owner = true -> free_of 47 nm = true -> nm <> "" ->
  short_name (owner ++ "/" ++ nm) = nm
  /\ short_name (owner ++ "/" ++ nm ++ "/" ++ rest) = nm
  /\ short_name owner = owner
  /\ short_name (owner ++ "/") = owner ++ "/".
Proof.
  intros Ho Hn Hne. unfold short_name.
  assert (Hnm : String.eqb nm "" = false) by now apply String.eqb_neq.
  split; [|split; [|split]].
  - change (owner ++ "/" ++ nm) with (owner ++ String "/" nm).
    rewrite (split_on_sep 47 "/" owner nm eq_refl Ho), (split_on_whole 47 nm Hn).
    cbn [nth]. now rewrite Hnm.
  - change (owner ++ "/" ++ nm ++ "/" ++ rest)
      with (owner ++ String "/" (nm ++ String "/" rest)).
    rewrite (split_on_sep 47 "/" owner _ eq_refl Ho),
            (split_on_sep 47 "/" nm rest eq_refl Hn).
    cbn [nth]. now rewrite Hnm.
  - rewrite (split_on_whole 47 owner Ho). reflexivity.
  - change (owner ++ "/") with (owner ++ String "/" "").
    rewrite (split_on_sep 47 "/" owner "" eq_refl Ho). reflexivity.
Qed.

(** X7, an instance: the short name of [octocat/hello-world]. *)
Lemma short_name_is_second_segment_witness :
  short_name ("octocat" ++ "/" ++ "hello-world") = "hello-world".
Proof.
  exact (proj1 (short_name_is_second_segment "octocat" "hello-world" ""
                  eq_refl eq_refl ltac:(discriminate))).
Defined.

(** ** The recent projects *)

Lemma has_project_names (k : string) (m : list project) :
  has_project k m = existsb (String.eqb k) (map pr_fullName m).
Proof.
  unfold has_project. induction m as [|p m IH]; [reflexivity|].
  cbn [existsb map]. rewrite IH. f_equal. apply String.eqb_sym.
Qed.

Lemma project_step_names (m : list project) (e : event) :
  map pr_fullName (project_step m e)
  = (map pr_fullName m
     ++ first_seen [truthy (repo_name e)] (map pr_fullName m))%list.
Proof.
  unfold project_step. destruct (truthy (repo_name e)) as [k|]; cbn [first_seen].
  - rewrite has_project_names.
    destruct (existsb (String.eqb k) (map pr_fullName m)).
    + now rewrite app_nil_r.
    + now rewrite map_app.
  - now rewrite app_nil_r.
Qed.

Lemma projects_invariant_step (done : list event) (m : list project)
  (e : event) :
  projects_invariant done m ->
  projects_invariant (done ++ [e]) (project_step m e).
Proof.
  intros [Hnames Hfirst]. split.
  - rewrite project_step_names, map_app, first_seen_app, Hnames.
    cbn [map]. f_equal. apply first_seen_ext. intros k.
    rewrite in_app_iff. simpl. tauto.
  - assert (Hold : forall p, In p m ->
              exists e0, first_event_of (pr_fullName p) e0 (done ++ [e])
                         /\ p = project_of (pr_fullName p) e0).
    { intros p Hp. destruct (Hfirst p Hp) as (e0 & (b & a & Hd & Hk & Hb) & Hpr).
      exists e0. split; [|assumption].
      exists b, (a ++ [e])%list. split; [|split; assumption].
      rewrite Hd, <- app_assoc. reflexivity. }
    unfold project_step. destruct (truthy (repo_name e)) as [k|] eqn:Ek;
      [|exact Hold].
    destruct (has_project k m) eqn:Eh; [exact Hold|].
    intros p Hp. apply in_app_iff in Hp. destruct Hp as [Hp|[<-|[]]];
      [now apply Hold|].
    exists e. cbn [pr_fullName]. split; [|reflexivity].
    exists done, []. split; [reflexivity|]. split; [assumption|].
    intros e' He' Hk'.
    rewrite has_project_names, Hnames in Eh.
    assert (Hin : In k (first_seen (map (fun e => truthy (repo_name e)) done) [])).
    { apply first_seen_In. split; [|tauto]. apply in_map_iff. eauto. }
    apply existsb_eqb_In in Hin. congruence.
Qed.

Lemma projects_invariant_fold (l done : list event) (m : list project) :
  projects_invariant done m ->
  projects_invariant (done ++ l) (fold_left project_step l m).
Proof.
  revert done m. induction l as [|e l IH]; intros done m Hinv.
  - now rewrite app_nil_r.
  - cbn [fold_left].
    replace (done ++ e :: l)%list with ((done ++ [e]) ++ l)%list
      by (rewrite <- app_assoc; reflexivity).
    apply IH. now apply projects_invariant_step.
Qed.

Lemma firstn_NoDup {A : Type} (n : nat) (l : list A) :
  NoDup l -> NoDup (firstn n l).
Proof.
  intros H. rewrite <- (firstn_skipn n l) in H.
  now apply NoDup_app_remove_r in H.
Qed.

(** X8: [extractRecentProjects] returns at most five projects, one for each
    of the first five distinct repositories in order of first appearance
    (events without a repository name are skipped), no repository twice;
    each project is built from the first event of its repository in the
    list.  No events give no project. *)
Theorem recentProjects_first_events (events : list event) :
  let ps := extractRecentProjects events in
  (List.length ps <= 5)%nat
  /\ map pr_fullName ps
     = firstn 5 (first_seen (map (fun e => truthy (repo_name e)) events) [])
  /\ NoDup (map pr_fullName ps)
  /\ (forall p, In p ps ->
        exists e, first_event_of (pr_fullName p) e events
                  /\ p = project_of (pr_fullName p) e)
  /\ extractRecentProjects [] = [].
Proof.
  intros ps.
  destruct (projects_invariant_fold events [] []) as [Hnames Hfirst].
  { split; [reflexivity | intros p []]. }
  cbn [app] in Hnames, Hfirst.
  assert (Hps : ps = firstn 5 (fold_left project_step events [])) by reflexivity.
  split; [rewrite Hps; apply length_firstn_le|].
  assert (Hmap : map pr_fullName ps
                 = firstn 5 (first_seen
                               (map (fun e => truthy (repo_name e)) events) [])).
  { rewrite Hps, <- Hnames. symmetry. apply firstn_map. }
  split; [exact Hmap|]. split.
  { rewrite Hmap. apply firstn_NoDup, first_seen_NoDup. }
  split; [|reflexivity].
  intros p Hp. apply Hfirst. rewrite Hps in Hp. eapply In_of_firstn. exact Hp.
Qed.

(** ** Achievements and highlights, from the raw data *)

Lemma kind_count (E : JsEngine) (events : list event) (k : string) :
  count_of k (analyzeEvents events) = count_where (of_kind k) events.
Proof. rewrite eventCounts_count. apply weight_count. Qed.

(** X9: the achievements of the summary, read off the raw data.  `Code
    Review Champion' is awarded exactly for more than five review events,
    `Earned N stars' exactly for N >= 100 stars over the repositories, the
    prolific creator exactly from 50 repositories on and the polyglot
    exactly from five languages on; there are never more than four
    achievements, and the champion comes with the highlight `Active code
    reviewer' and only with it. *)
Theorem achievements_thresholds (E : JsEngine) (p : profile)
  (events : list event) (repos : list repo) :
  let sd := generateActivitySummary (activity_of p events repos) in
  let reviews := count_where (of_kind "PullRequestReviewEvent") events in
  let stars := sum (map stargazers_count repos) in
  let langs := List.length (keys (languages (fetchContributionStats repos))) in
  (In "Code Review Champion" (achievements sd) <-> 5 < reviews)
  /\ (In ("Earned " ++ Number_toString stars ++ " stars") (achievements sd)
      <-> 100 <= stars)
  /\ (In "Prolific creator with 50+ repositories" (achievements sd)
      <-> (50 <= List.length repos)%nat)
  /\ (In ("Polyglot developer using " ++ Number_toString (Z.of_nat langs)
          ++ " languages") (achievements sd)
      <-> (5 <= langs)%nat)
  /\ (List.length (achievements sd) <= 4)%nat
  /\ (In "Code Review Champion" (achievements sd)
      <-> In "Active code reviewer" (activityHighlights sd)).
Proof.
  intros sd reviews stars langs.
  assert (Hach : achievements sd
                 = app (if 5 <? reviews then ["Code Review Champion"] else [])
                    (app (if 100 <=? stars
                          then ["Earned " ++ Number_toString stars ++ " stars"]
                          else [])
                    (app (if 50 <=? Z.of_nat (List.length repos)
                          then ["Prolific creator with 50+ repositories"]
                          else [])
                         (if (5 <=? langs)%nat
                          then ["Polyglot developer using "
                                  ++ Number_toString (Z.of_nat langs)
                                  ++ " languages"]
                          else [])))).
  { unfold sd. cbn [generateActivitySummary achievements activity_of
                    ad_eventAnalysis ad_contributionStats].
    unfold achievements_of. rewrite kind_count.
    cbn [fetchContributionStats totalStars totalRepos].
    rewrite fold_left_add. reflexivity. }
  assert (Hhl : In "Active code reviewer" (activityHighlights sd)
                <-> 5 < reviews).
  { unfold sd. cbn [generateActivitySummary activityHighlights activity_of
                    ad_eventAnalysis].
    unfold highlights. rewrite !kind_count. fold reviews.
    rewrite !in_app_iff.
    destruct (mostActiveRepo (analyzeEvents events)) as [r|];
      [destruct (String.eqb r "")|];
      destruct (negb (count_where (of_kind "PushEvent") events =? 0)
                && ratio_gt_half (count_where (of_kind "PushEvent") events)
                     (totalEvents (analyzeEvents events)));
      destruct (Z.ltb_spec 5 reviews) as [H5|H5];
      destruct (10 <? count_where (of_kind "IssuesEvent") events);
      cbn [In]; split; intros H; try lia; try tauto;
      repeat (destruct H as [H|H]; try discriminate H; try contradiction);
      try lia; auto. }
  rewrite Hach.
  destruct (Z.ltb_spec 5 reviews) as [H5|H5];
    destruct (Z.leb_spec 100 stars) as [H100|H100];
    destruct (Z.leb_spec 50 (Z.of_nat (List.length repos))) as [H50|H50];
    destruct (Nat.leb_spec 5 langs) as [Hl|Hl];
    cbn [app In List.length];
    (split; [|split; [|split; [|split; [|split]]]]);
    try lia;
    try (rewrite Hhl);
    try (split; intros H; try lia; try tauto;
         repeat (destruct H as [H|H]; try discriminate H; try contradiction);
         try lia; auto; fail).
Qed.

(** X10: the highlights of the summary, read off the raw data.  The push
    highlight appears exactly when push events are more than half of all
    events, the issue highlight exactly for more than ten issue events;
    when there is a most active repository the first highlight names it by
    its short name; no events give no highlight, and there are never more
    than four. *)
Theorem highlights_thresholds (E : JsEngine) (p : profile)
  (events : list event) (repos : list repo) :
  let hs := activityHighlights
              (generateActivitySummary (activity_of p events repos)) in
  let pushes := count_where (of_kind "PushEvent") events in
  let issues := count_where (of_kind "IssuesEvent") events in
  (In "Primarily focused on pushing code" hs
   <-> Z.of_nat (List.length events) < 2 * pushes)
  /\ (In "Active issue tracker" hs <-> 10 < issues)
  /\ (forall r, mostActiveRepo (analyzeEvents events) = Some r ->
        hd_error hs
        = Some ("Heavily focused on " ++ dq ++ short_name r ++ dq))
  /\ (events = [] -> hs = [])
  /\ (List.length hs <= 4)%nat.
Proof.
  intros hs pushes issues.
  assert (Hhs : hs = highlights (analyzeEvents events)) by reflexivity.
  unfold highlights in Hhs. rewrite !kind_count in Hhs.
  fold pushes in Hhs. fold issues in Hhs.
  change (totalEvents (analyzeEvents events))
    with (Z.of_nat (List.length events)) in Hhs.
  pose proof (count_where_le (of_kind "PushEvent") events) as Hp.
  fold pushes in Hp.
  assert (Hratio : negb (pushes =? 0)
                   && ratio_gt_half pushes (Z.of_nat (List.length events))
                   = (Z.of_nat (List.length events) <? 2 * pushes)).
  { unfold ratio_gt_half.
    destruct (Z.eqb_spec pushes 0) as [H0|H0]; cbn [negb andb].
    - symmetry. apply Z.ltb_ge. lia.
    - destruct (Z.ltb_spec 0 (Z.of_nat (List.length events))); [reflexivity|].
      lia. }
  rewrite Hratio in Hhs.
  assert (Hempty : events = [] -> hs = []).
  { intros ->. reflexivity. }
  assert (Hmain :
    (In "Primarily focused on pushing code" hs
     <-> Z.of_nat (List.length events) < 2 * pushes)
    /\ (In "Active issue tracker" hs <-> 10 < issues)
    /\ (forall r, mostActiveRepo (analyzeEvents events) = Some r ->
          hd_error hs
          = Some ("Heavily focused on " ++ dq ++ short_name r ++ dq))
    /\ (List.length hs <= 4)%nat).
  { rewrite Hhs. clear Hhs Hempty.
    destruct (mostActiveRepo (analyzeEvents events)) as [r|] eqn:Er.
    - assert (Hr : String.eqb r "" = false).
      { apply String.eqb_neq. intros ->.
        unfold analyzeEvents in Er. cbn [mostActiveRepo] in Er.
        destruct (sort_by count_desc (t_repoActivity (tally_events events)))
          as [|[nm c] t]; [discriminate|].
        destruct (String.eqb_spec nm ""); [discriminate|].
        inversion Er. contradiction. }
      rewrite Hr.
      destruct (Z.ltb_spec (Z.of_nat (List.length events)) (2 * pushes))
        as [H2|H2];
        destruct (5 <? count_where (of_kind "PullRequestReviewEvent") events);
        destruct (Z.ltb_spec 10 issues) as [H10|H10];
        cbn [app In List.length hd_error];
        (split; [|split; [|split]]);
        try lia;
        try (intros r' Hr'; inversion Hr'; subst; reflexivity);
        try (split; intros H; try lia; try tauto;
             repeat (destruct H as [H|H]; try discriminate H;
                     try contradiction);
             try lia; auto; fail).
    - destruct (Z.ltb_spec (Z.of_nat (List.length events)) (2 * pushes))
        as [H2|H2];
        destruct (5 <? count_where (of_kind "PullRequestReviewEvent") events);
        destruct (Z.ltb_spec 10 issues) as [H10|H10];
        cbn [app In List.length hd_error];
        (split; [|split; [|split]]);
        try lia;
        try (intros r' Hr'; discriminate Hr');
        try (split; intros H; try lia; try tauto;
             repeat (destruct H as [H|H]; try discriminate H;
                     try contradiction);
             try lia; auto; fail). }
  destruct Hmain as (H1 & H2 & H3 & H4).
  split; [exact H1|]. split; [exact H2|]. split; [exact H3|].
  split; [exact Hempty | exact H4].
Qed.

(** ** Wrapping text *)

Lemma split_on_free (c : N) (s : string) :
  Forall (fun w => free_of c w = true) (split_on c s).
Proof.
  induction s as [|a s IH]; cbn [split_on].
  - repeat constructor.
  - destruct (is_char a c) eqn:Ea.
    + constructor; [reflexivity | assumption].
    + destruct (split_on c s) as [|h t]; inversion IH; subst.
      * repeat constructor. unfold free_of. cbn [all_chars]. now rewrite Ea.
      * constructor; [|assumption]. unfold free_of in *. cbn [all_chars].
        now rewrite Ea.
Qed.

Lemma wrap_step_fits (maxChars : nat) (st : list string * string)
  (word : string) :
  free_of 32 word = true ->
  Forall (fun l => l <> "" /\ fits maxChars l) (fst st) ->
  fits maxChars (snd st) ->
  Forall (fun l => l <> "" /\ fits maxChars l)
         (fst (wrap_step maxChars st word))
  /\ fits maxChars (snd (wrap_step maxChars st word)).
Proof.
  intros Hw Hl Hc. unfold wrap_step.
  destruct (Nat.leb_spec (String.length (trim (snd st ++ " " ++ word)))
              maxChars) as [Hle|Hgt]; cbn [fst snd].
  - split; [assumption | now left].
  - split; [|now right].
    destruct (String.eqb_spec (snd st) "") as [|Hne]; [assumption|].
    apply Forall_app. split; [assumption|].
    constructor; [split; assumption | constructor].
Qed.

Lemma wrap_fold_fits (maxChars : nat) (words : list string) :
  forall st,
    Forall (fun w => free_of 32 w = true) words ->
    Forall (fun l => l <> "" /\ fits maxChars l) (fst st) ->
    fits maxChars (snd st) ->
    Forall (fun l => l <> "" /\ fits maxChars l)
           (fst (fold_left (wrap_step maxChars) words st))
    /\ fits maxChars (snd (fold_left (wrap_step maxChars) words st)).
Proof.
  induction words as [|w r IH]; intros st Hw Hl Hc; cbn [fold_left].
  - auto.
  - inversion Hw as [|? ? Hw1 Hw2]; subst.
    destruct (wrap_step_fits maxChars st w) as [Hs1 Hs2]; try assumption.
    now apply IH.
Qed.

(** X11: [wrapText] never returns an empty line, and every line it
    returns is at most [maxChars] characters long unless it is a single
    word (it holds no space), which is never broken.  The empty text
    wraps to no line at all. *)
Theorem wrapText_lines_fit (text : string) (maxChars : nat) :
  wrapText "" maxChars = []
  /\ forall line, In line (wrapText text maxChars) ->
       line <> "" /\ fits maxChars line.
Proof.
  split; [reflexivity|].
  unfold wrapText. destruct (String.eqb text ""); [intros line []|].
  destruct (wrap_fold_fits maxChars (split_on 32 text) ([], ""))
    as [H1 H2].
  - apply split_on_free.
  - constructor.
  - left. simpl. lia.
  - set (st := fold_left (wrap_step maxChars) (split_on 32 text) ([], "")) in *.
    assert (Hall : Forall (fun l => l <> "" /\ fits maxChars l)
                     (if String.eqb (snd st) "" then fst st
                      else app (fst st) [snd st])).
    { destruct (String.eqb_spec (snd st) "") as [|Hne]; [assumption|].
      apply Forall_app. split; [assumption|].
    constructor; [split; assumption | constructor]. }
    rewrite Forall_forall in Hall. exact Hall.
Qed.

(** *** Trimming *)

Lemma all_chars_app (f : ascii -> bool) (a b : string) :
  all_chars f (a ++ b) = all_chars f a && all_chars f b.
Proof.
  induction a as [|c a IH]; cbn [append all_chars]; [reflexivity|].
  now rewrite IH, andb_assoc.
Qed.

Lemma all_chars_rev (f : ascii -> bool) (s : string) :
  all_chars f (string_rev s) = all_chars f s.
Proof.
  induction s as [|c s IH]; [reflexivity|].
  rewrite string_rev_cons, all_chars_app, IH. cbn [all_chars].
  rewrite andb_true_r. apply andb_comm.
Qed.

Lemma drop_blank (a s : string) :
  blank a = true -> drop_space (a ++ s) = drop_space s.
Proof.
  unfold blank. induction a as [|c a IH]; cbn [append all_chars]; [reflexivity|].
  intros H. apply andb_true_iff in H. destruct H as [Hc Ha].
  cbn [drop_space]. rewrite Hc. now apply IH.
Qed.

Lemma trim_blank (a : string) : blank a = true -> trim a = "".
Proof.
  intros Ha. unfold trim.
  rewrite <- (append_nil_r a), (drop_blank a "" Ha). reflexivity.
Qed.

(** Trimming removes the white space around a text that starts and ends
    with other characters, and nothing else. *)
Lemma trim_tight (a s b : string) :
  blank a = true -> blank b = true -> tight s -> trim (a ++ s ++ b) = s.
Proof.
  intros Ha Hb [(c & r & Hs & Hc) (t & e & Ht & He)]. unfold trim.
  rewrite (drop_blank a _ Ha).
  assert (H1 : drop_space (s ++ b) = s ++ b).
  { rewrite Hs. cbn [append drop_space]. now rewrite Hc. }
  rewrite H1, string_rev_app, drop_blank
    by (unfold blank; now rewrite all_chars_rev).
  assert (H2 : drop_space (string_rev s) = string_rev s).
  { rewrite Ht, string_rev_app. cbn [string_rev string_rev_onto append drop_space].
    change (string_rev (String e "")) with (String e "").
    cbn [append drop_space]. now rewrite He. }
  rewrite H2. apply string_rev_involutive.
Qed.

Lemma solid_last (c : ascii) (r : string) :
  solid (String c r) = true -> last_char_plain (String c r).
Proof.
  revert c. induction r as [|d r IH]; intros c H; unfold solid in *;
    cbn [all_chars] in H; apply andb_true_iff in H; destruct H as [Hc Hr].
  - exists "", c. split; [reflexivity | now apply negb_true_iff].
  - destruct (IH d Hr) as (t & e & Ht & He).
    exists (String c t), e. split; [|assumption]. cbn [append]. now rewrite <- Ht.
Qed.

Lemma word_tight (w : string) : is_word w = true -> tight w.
Proof.
  unfold is_word. intros H. apply andb_true_iff in H. destruct H as [Hne Hs].
  destruct w as [|c r]; [discriminate|]. split.
  - exists c, r. split; [reflexivity|]. unfold solid in Hs. cbn [all_chars] in Hs.
    apply andb_true_iff in Hs. now apply negb_true_iff.
  - now apply solid_last.
Qed.

Lemma tight_app (a m b : string) : tight a -> tight b -> tight (a ++ m ++ b).
Proof.
  intros [(c & r & -> & Hc) _] [_ Hb]. split.
  - exists c, (r ++ m ++ b). split; [reflexivity | assumption].
  - now apply last_char_plain_app, last_char_plain_app.
Qed.

Lemma tight_nonempty (s : string) : tight s -> s <> "".
Proof. intros [(c & r & -> & _) _]. discriminate. Qed.

(** *** Words joined by single spaces *)

Lemma concat_cons (w : string) (g : list string) :
  g <> [] -> String.concat " " (w :: g) = w ++ " " ++ String.concat " " g.
Proof. destruct g; [congruence | reflexivity]. Qed.

Lemma concat_snoc (g : list string) (w : string) :
  g <> [] ->
  String.concat " " (g ++ [w]) = String.concat " " g ++ " " ++ w.
Proof.
  induction g as [|x g IH]; [congruence|]. intros _.
  destruct g as [|y g].
  - reflexivity.
  - change ((x :: y :: g) ++ [w])%list with (x :: ((y :: g) ++ [w]))%list.
    rewrite concat_cons by (destruct g; discriminate).
    rewrite IH by discriminate.
    rewrite (concat_cons x (y :: g)) by discriminate.
    now rewrite !append_assoc.
Qed.

Lemma joined_tight (g : list string) :
  g <> [] -> forallb is_word g = true -> tight (String.concat " " g).
Proof.
  induction g as [|x g IH]; [congruence|]. intros _ H.
  cbn [forallb] in H. apply andb_true_iff in H. destruct H as [Hx Hg].
  destruct g as [|y g].
  - now apply word_tight.
  - rewrite concat_cons by discriminate.
    apply tight_app; [now apply word_tight | apply IH; [discriminate | assumption]].
Qed.

Lemma space_is_space (c : ascii) : is_char c 32 = true -> is_space c = true.
Proof.
  unfold is_char, is_space. intros H. rewrite H. now rewrite orb_true_r.
Qed.

Lemma solid_free (w : string) : solid w = true -> free_of 32 w = true.
Proof.
  unfold solid, free_of. induction w as [|c w IH]; [reflexivity|].
  cbn [all_chars]. intros H. apply andb_true_iff in H. destruct H as [Hc Hw].
  rewrite (IH Hw), andb_true_r.
  destruct (is_char c 32) eqn:E; [|reflexivity].
  rewrite (space_is_space c E) in Hc. discriminate.
Qed.

Lemma word_free (w : string) : is_word w = true -> free_of 32 w = true.
Proof.
  unfold is_word. intros H. apply andb_true_iff in H. now apply solid_free.
Qed.

Lemma split_joined (g : list string) :
  g <> [] -> forallb is_word g = true ->
  split_on 32 (String.concat " " g) = g.
Proof.
  induction g as [|x g IH]; [congruence|]. intros _ H.
  cbn [forallb] in H. apply andb_true_iff in H. destruct H as [Hx Hg].
  destruct g as [|y g].
  - apply split_on_whole. now apply word_free.
  - rewrite concat_cons by discriminate.
    change (x ++ " " ++ String.concat " " (y :: g))
      with (x ++ String " " (String.concat " " (y :: g))).
    rewrite (split_on_sep 32 " " x _ eq_refl (word_free x Hx)).
    now rewrite IH by (discriminate || assumption).
Qed.

Lemma flat_map_joined (groups : list (list string)) :
  Forall (fun gr => gr <> [] /\ forallb is_word gr = true) groups ->
  flat_map (split_on 32) (map (String.concat " ") groups) = List.concat groups.
Proof.
  induction 1 as [|gr r [Hne Hw] _ IH]; [reflexivity|].
  cbn [map flat_map List.concat]. now rewrite IH, split_joined.
Qed.

(** *** The words of a text *)

Lemma split_on_chars (f : ascii -> bool) (c : N) (s : string) :
  all_chars f s = true -> Forall (fun w => all_chars f w = true) (split_on c s).
Proof.
  induction s as [|a s IH]; cbn [split_on all_chars]; intros H.
  - repeat constructor.
  - apply andb_true_iff in H. destruct H as [Ha Hs]. specialize (IH Hs).
    destruct (is_char a c).
    + constructor; [reflexivity | assumption].
    + destruct (split_on c s) as [|h t]; inversion IH; subst.
      * constructor; [|constructor]. cbn [all_chars]. now rewrite Ha.
      * constructor; [|assumption]. cbn [all_chars]. now rewrite Ha.
Qed.

Lemma plain_free_solid (w : string) :
  plain_blank w = true -> free_of 32 w = true -> solid w = true.
Proof.
  unfold plain_blank, free_of, solid. induction w as [|c w IH]; [reflexivity|].
  cbn [all_chars]. intros H1 H2.
  apply andb_true_iff in H1. destruct H1 as [Hc1 Hw1].
  apply andb_true_iff in H2. destruct H2 as [Hc2 Hw2].
  rewrite (IH Hw1 Hw2), andb_true_r.
  apply negb_true_iff in Hc2. rewrite Hc2, orb_false_r in Hc1. exact Hc1.
Qed.

Lemma words_of_plain (text : string) :
  plain_blank text = true ->
  Forall (fun w => w = "" \/ is_word w = true) (split_on 32 text).
Proof.
  intros Hp.
  pose proof (split_on_free 32 text) as Hf.
  pose proof (split_on_chars _ 32 text Hp) as Hc.
  rewrite Forall_forall in *. intros w Hw.
  destruct (String.eqb_spec w "") as [|Hne]; [now left|]. right.
  unfold is_word. apply andb_true_iff. split.
  - apply negb_true_iff. now apply String.eqb_neq.
  - apply plain_free_solid; [apply Hc | apply Hf]; assumption.
Qed.

(** *** The loop of [wrapText] keeps the words *)

Lemma candidate_joined (g : list string) (w : string) :
  forallb is_word g = true -> w = "" \/ is_word w = true ->
  trim (String.concat " " g ++ " " ++ w)
  = String.concat " " (g ++ filter is_word [w]).
Proof.
  intros Hg Hw.
  destruct g as [|x g'] eqn:Eg.
  - destruct Hw as [->|Hw]; [reflexivity|].
    cbn [filter app]. rewrite Hw. cbn [String.concat append].
    rewrite <- (append_nil_r w) at 1.
    apply (trim_tight " " w ""); [reflexivity | reflexivity | now apply word_tight].
  - rewrite <- Eg in *.
    assert (Hne : g <> []) by (rewrite Eg; discriminate).
    pose proof (joined_tight g Hne Hg) as Ht.
    destruct Hw as [->|Hw].
    + cbn [filter]. rewrite app_nil_r.
      change (String.concat " " g ++ " " ++ "")
        with ("" ++ String.concat " " g ++ " ").
      now apply trim_tight.
    + cbn [filter]. rewrite Hw, concat_snoc by assumption.
      rewrite <- (append_nil_r (String.concat " " g ++ " " ++ w)) at 1.
      change ((String.concat " " g ++ " " ++ w) ++ "")
        with ("" ++ (String.concat " " g ++ " " ++ w) ++ "").
      apply trim_tight; [reflexivity | reflexivity|].
      apply tight_app; [assumption | now apply word_tight].
Qed.

Lemma joined_empty (g : list string) :
  forallb is_word g = true -> (String.concat " " g = "" <-> g = []).
Proof.
  intros Hg. split; [|now intros ->].
  destruct g as [|x g']; [reflexivity|]. intros H. exfalso.
  apply (tight_nonempty _ (joined_tight (x :: g') ltac:(discriminate) Hg) H).
Qed.

Lemma wrap_invariant_step (maxChars : nat) (done : list string)
  (st : list string * string) (w : string) :
  w = "" \/ is_word w = true ->
  wrap_invariant done st ->
  wrap_invariant (done ++ [w]) (wrap_step maxChars st w).
Proof.
  intros Hw (groups & g & Hl & Hgr & Hg & Hc & Hall).
  assert (Hfw : forallb is_word (filter is_word [w]) = true).
  { cbn [filter]. destruct (is_word w) eqn:E; cbn [forallb]; [now rewrite E | reflexivity]. }
  unfold wrap_step. rewrite Hc, (candidate_joined g w Hg Hw).
  destruct (Nat.leb (String.length (String.concat " " (g ++ filter is_word [w])))
              maxChars).
  - exists groups, (g ++ filter is_word [w])%list. cbn [fst snd].
    split; [assumption|]. split; [assumption|].
    split; [rewrite forallb_app; now rewrite Hg, Hfw|].
    split; [reflexivity|].
    now rewrite filter_app, <- Hall, app_assoc.
  - destruct (String.eqb_spec (String.concat " " g) "") as [He|Hne].
    + apply (joined_empty g Hg) in He. subst g.
      exists groups, (filter is_word [w]). cbn [fst snd].
      split; [assumption|]. split; [assumption|]. split; [assumption|].
      split.
      * destruct Hw as [->|Hw]; [reflexivity|]. cbn [filter]. now rewrite Hw.
      * rewrite filter_app, <- Hall. now rewrite app_nil_r.
    + assert (Hgne : g <> []).
      { intros ->. now apply Hne. }
      exists (groups ++ [g])%list, (filter is_word [w]). cbn [fst snd].
      split; [rewrite Hl, map_app; reflexivity|].
      split; [apply Forall_app; split; [assumption|]; constructor; [split; assumption | constructor]|].
      split; [assumption|].
      split.
      * destruct Hw as [->|Hw]; [reflexivity|]. cbn [filter]. now rewrite Hw.
      * rewrite filter_app, <- Hall, concat_app. cbn [List.concat].
        now rewrite app_nil_r.
Qed.

Lemma wrap_invariant_fold (maxChars : nat) (words : list string) :
  forall done st,
    Forall (fun w => w = "" \/ is_word w = true) words ->
    wrap_invariant done st ->
    wrap_invariant (done ++ words) (fold_left (wrap_step maxChars) words st).
Proof.
  induction words as [|w r IH]; intros done st Hw Hinv; cbn [fold_left].
  - now rewrite app_nil_r.
  - inversion Hw as [|? ? Hw1 Hw2]; subst.
    replace (done ++ w :: r)%list with ((done ++ [w]) ++ r)%list
      by (rewrite <- app_assoc; reflexivity).
    apply IH; [assumption|]. now apply wrap_invariant_step.
Qed.

(** X12: wrapping loses and reorders nothing.  For a text whose only
    white space is the space character, the words of the lines of
    [wrapText], read line after line, are the words of the text in their
    order (runs of spaces give no word). *)
Theorem wrapText_keeps_words (text : string) (maxChars : nat) :
  plain_blank text = true ->
  flat_map (split_on 32) (wrapText text maxChars)
  = filter is_word (split_on 32 text).
Proof.
  intros Hp. unfold wrapText.
  destruct (String.eqb_spec text "") as [->|Hne]; [reflexivity|].
  destruct (wrap_invariant_fold maxChars (split_on 32 text) [] ([], ""))
    as (groups & g & Hl & Hgr & Hg & Hc & Hall).
  - now apply words_of_plain.
  - exists [], []. repeat split; constructor.
  - cbn [app] in Hall.
    set (st := fold_left (wrap_step maxChars) (split_on 32 text) ([], "")) in *.
    rewrite <- Hall.
    destruct (String.eqb_spec (snd st) "") as [He|Hne'].
    + rewrite Hc in He. apply (joined_empty g Hg) in He. subst g.
      rewrite Hl, app_nil_r. now apply flat_map_joined.
    + assert (Hgne : g <> []).
      { intros ->. now apply Hne'. }
      rewrite flat_map_app, Hl, Hc, (flat_map_joined groups Hgr).
      cbn [flat_map]. now rewrite app_nil_r, split_joined.
Qed.

(** X12, an instance: a sentence with a double space, wrapped at nine
    characters. *)
Lemma wrapText_keeps_words_witness :
  flat_map (split_on 32) (wrapText "to be  or not to be" 9)
  = filter is_word (split_on 32 "to be  or not to be").
Proof. exact (wrapText_keeps_words "to be  or not to be" 9 eq_refl). Defined.

(** ** Escaping, character by character *)

Lemma length_append (a b : string) :
  String.length (a ++ b) = (String.length a + String.length b)%nat.
Proof. induction a as [|c a IH]; cbn [append String.length]; [reflexivity | now rewrite IH]. Qed.

Lemma esc_char_length (c : ascii) :
  (if escaped_char c then 4 <= String.length (esc_char c)
   else String.length (esc_char c) = 1)%nat.
Proof.
  unfold escaped_char.
  destruct (esc_char_cases c)
    as [[-> ->]|[[-> ->]|[[-> ->]|[[-> ->]|[[-> ->]|(H38 & Hs & ->)]]]]];
    try (cbn; lia).
  rewrite H38, Hs. reflexivity.
Qed.

Lemma escape_each_length (s : string) :
  (String.length s <= String.length (escape_each s))%nat
  /\ (String.length (escape_each s) = String.length s ->
      all_chars (fun c => negb (escaped_char c)) s = true).
Proof.
  induction s as [|c s [IH1 IH2]]; [split; [simpl; lia | reflexivity]|].
  cbn [escape_each String.length all_chars]. rewrite length_append.
  pose proof (esc_char_length c) as Hc.
  destruct (escaped_char c); cbn [negb andb].
  - split; [lia|]. intros H. lia.
  - split; [lia|]. intros H. apply IH2. lia.
Qed.

Lemma escape_each_id (s : string) :
  all_chars (fun c => negb (escaped_char c)) s = true -> escape_each s = s.
Proof.
  induction s as [|c s IH]; [reflexivity|].
  cbn [all_chars escape_each]. intros H. apply andb_true_iff in H.
  destruct H as [Hc Hs]. rewrite (IH Hs).
  apply negb_true_iff in Hc. unfold escaped_char in Hc.
  apply orb_false_iff in Hc. destruct Hc as [H38 Hsp].
  destruct (esc_char_cases c)
    as [[-> _]|[[-> _]|[[-> _]|[[-> _]|[[-> _]|(_ & _ & ->)]]]]];
    try discriminate.
  reflexivity.
Qed.

(** Two characters whose escaped forms start two equal strings are the
    same character. *)
Lemma esc_char_inj (c1 c2 : ascii) (r1 r2 : string) :
  esc_char c1 ++ r1 = esc_char c2 ++ r2 -> c1 = c2 /\ r1 = r2.
Proof.
  destruct (esc_char_cases c1)
    as [[-> ->]|[[-> ->]|[[-> ->]|[[-> ->]|[[-> ->]|(H1 & S1 & ->)]]]]];
  destruct (esc_char_cases c2)
    as [[-> ->]|[[-> ->]|[[-> ->]|[[-> ->]|[[-> ->]|(H2 & S2 & ->)]]]]];
  cbn [append]; intros H;
    try (inversion H; subst; try discriminate; split; reflexivity; fail);
    try (inversion H; subst; discriminate).
Qed.

Lemma escape_each_inj (s1 s2 : string) :
  escape_each s1 = escape_each s2 -> s1 = s2.
Proof.
  revert s2. induction s1 as [|c1 s1 IH]; intros [|c2 s2] H.
  - reflexivity.
  - exfalso. cbn [escape_each] in H.
    pose proof (f_equal String.length H) as Hl. rewrite length_append in Hl.
    pose proof (esc_char_length c2). cbn [String.length] in Hl.
    destruct (escaped_char c2); lia.
  - exfalso. cbn [escape_each] in H.
    pose proof (f_equal String.length H) as Hl. rewrite length_append in Hl.
    pose proof (esc_char_length c1). cbn [String.length] in Hl.
    destruct (escaped_char c1); lia.
  - cbn [escape_each] in H. apply esc_char_inj in H. destruct H as [-> H].
    now rewrite (IH s2 H).
Qed.

(** X13: [escapeHtml] leaves a string unchanged exactly when it holds none
    of the five characters it replaces (the ampersand, the two angle
    brackets, the double and the single quote), never shortens a string,
    is injective (two different strings have different escapes) and
    distributes over concatenation. *)
Theorem escapeHtml_faithful (s t : string) :
  (escapeHtml s = s <-> all_chars (fun c => negb (escaped_char c)) s = true)
  /\ (String.length s <= String.length (escapeHtml s))%nat
  /\ (escapeHtml s = escapeHtml t -> s = t)
  /\ escapeHtml (s ++ t) = escapeHtml s ++ escapeHtml t.
Proof.
  rewrite !escapeHtml_each. destruct (escape_each_length s) as [H1 H2].
  split; [|split; [|split]].
  - split; [intros H; apply H2; now rewrite H | apply escape_each_id].
  - exact H1.
  - apply escape_each_inj.
  - apply escape_each_app.
Qed.

(** ** The frame of the cards *)

Lemma opens_svg_app (p x : string) : opens_svg p -> opens_svg (p ++ x).
Proof.
  intros (rest & ->). exists (rest ++ x). now rewrite !append_assoc.
Qed.

Lemma closes_svg_app (x y : string) : closes_svg y -> closes_svg (x ++ y).
Proof.
  intros (body & ->). exists (x ++ body). now rewrite !append_assoc.
Qed.

Lemma svg_tight (body : string) : tight ("<svg width=" ++ body ++ "</svg>").
Proof.
  split.
  - eexists _, _. split; [reflexivity | reflexivity].
  - exists ("<svg width=" ++ body ++ "</svg"), ">"%char.
    split; [|reflexivity]. rewrite !append_assoc. reflexivity.
Qed.

(** Trimming a card that is assembled piece by piece: the line break
    before [<svg] goes. *)
Lemma trim_assembled (p m : string) :
  opens_svg p ->
  exists body, trim (p ++ m ++ nl ++ "</svg>")
               = "<svg width=" ++ body ++ "</svg>".
Proof.
  intros (rest & ->). exists (rest ++ m ++ nl).
  assert (E1 : (nl ++ "<svg width=" ++ rest) ++ m ++ nl ++ "</svg>"
               = nl ++ ("<svg width=" ++ (rest ++ m ++ nl) ++ "</svg>") ++ "").
  { now rewrite !append_assoc, append_nil_r. }
  rewrite E1. apply trim_tight; [reflexivity | reflexivity | apply svg_tight].
Qed.

(** Trimming a card that is one template: the line breaks before [<svg]
    and after [</svg>] go. *)
Lemma trim_template (rest : string) :
  closes_svg rest ->
  exists body, trim (nl ++ "<svg width=" ++ rest)
               = "<svg width=" ++ body ++ "</svg>".
Proof.
  intros (body & ->). exists body.
  assert (E1 : nl ++ "<svg width=" ++ body ++ "</svg>" ++ nl
               = nl ++ ("<svg width=" ++ body ++ "</svg>") ++ nl).
  { now rewrite !append_assoc. }
  rewrite E1. apply trim_tight; [reflexivity | reflexivity | apply svg_tight].
Qed.

Lemma Some_eq {A : Type} (a b : A) : Some a = Some b -> a = b.
Proof. congruence. Qed.

Ltac closes :=
  repeat match goal with
         | |- closes_svg (append _ (append _ _)) => apply closes_svg_app
         end;
  exists ""; reflexivity.

(** X14: each of the three cards, and the error card of the serverless
    function, is one [svg] element: the markup starts with [<svg width=]
    and ends with [</svg>], with no white space around it. *)
Theorem cards_are_svg_elements (E : JsEngine) (sd : summaryData)
  (options : cardOptions) (message : string) :
  (exists body, generateActivityCard sd options
                = "<svg width=" ++ body ++ "</svg>")
  /\ (exists body, generateCompactCard sd options
                   = "<svg width=" ++ body ++ "</svg>")
  /\ (forall svg, generateLanguagesCard sd options = Some svg ->
        exists body, svg = "<svg width=" ++ body ++ "</svg>")
  /\ (exists body, generateErrorCard message
                   = "<svg width=" ++ body ++ "</svg>").
Proof.
  split; [|split; [|split]].
  - unfold generateActivityCard. cbv zeta. apply trim_assembled.
    unfold activity_open. eexists. reflexivity.
  - unfold generateCompactCard. cbv zeta. apply trim_template. closes.
  - intros svg. unfold generateLanguagesCard. cbv zeta.
    destruct (labels_svg 0 15 60 (languageData (sd_languages sd)))
      as [labels|]; [|discriminate].
    intros H. apply Some_eq in H. rewrite <- H. apply trim_assembled.
    do 3 apply opens_svg_app. unfold languages_open. eexists. reflexivity.
  - unfold generateErrorCard. cbv zeta. apply trim_template. closes.
Qed.

(** ** The other cards hold no script tag *)

Section OtherCards.
Context {E : JsEngine} {HE : PlainFractions E}.

Lemma compact_language_Clean (sd : summaryData) : Clean (compact_language sd).
Proof.
  unfold compact_language. destruct (nonempty (primaryLanguage sd)); clean.
Qed.

Lemma compact_card_Clean (sd : summaryData) (options : cardOptions) :
  ~ Contains script_tag (generateCompactCard sd options).
Proof.
  intros Hc. unfold generateCompactCard in Hc. cbv zeta in Hc.
  apply Contains_of_trim in Hc. revert Hc. apply Clean_no_tag.
  pose proof (theme_config_plain (or_default "default" (o_theme options)))
    as Hth.
  pose proof (border_style_Clean (or_default true (o_showBorder options))
                _ Hth) as Hb.
  pose proof (compact_language_Clean sd) as Hl.
  with_theme Hth. clean.
Qed.

Lemma toFixed1_plain (x : jsnum) : no_lt (toFixed1 x) = true.
Proof.
  destruct x as [| | |q]; try reflexivity. unfold toFixed1.
  destruct (Qle_bool (inject_Z (10 ^ 21)) (Qabs q)).
  - now apply show_num_plain.
  - rewrite !no_lt_app, Number_toString_plain.
    assert (Hd : no_lt (String (digit_char
                  (Qfloor (Qabs q * inject_Z 10 + (1 # 2)) mod 10)) "") = true).
    { apply digit_cons_plain. reflexivity. }
    rewrite Hd. now destruct (Qle_bool 0 q).
Qed.

Lemma language_color_plain (l : option string) :
  no_lt (language_color l) = true.
Proof.
  unfold language_color.
  destruct (lookup match l with Some l0 => l0 | None => "undefined" end
              languageColors) as [c|] eqn:El; [|reflexivity].
  apply lookup_In in El.
  assert (Hall : forallb (fun kv => no_lt (snd kv)) languageColors = true)
    by (vm_compute; reflexivity).
  rewrite forallb_forall in Hall. exact (Hall _ El).
Qed.

Lemma languageData_plain (langs : list langEntry) :
  Forall (fun d => datum_plain d = true) (languageData langs).
Proof.
  unfold languageData. apply Forall_forall. intros d Hd.
  apply in_map_iff in Hd. destruct Hd as (e & <- & _).
  unfold datum_plain. cbn [ld_percentage ld_color].
  now rewrite toFixed1_plain, language_color_plain.
Qed.

Lemma bar_svg_Clean (data : list languageDatum) (barX : jsnum) (w : Z) :
  Forall (fun d => datum_plain d = true) data -> Clean (bar_svg barX w data).
Proof.
  intros Hall. revert barX. induction Hall as [|d r Hd _ IH]; intros barX;
    cbn [bar_svg].
  - apply Clean_nil.
  - unfold datum_plain in Hd. apply andb_true_iff in Hd. destruct Hd as [_ Hc].
    apply no_lt_Clean in Hc.
    destruct (jsnum_pos _); [|apply IH].
    apply Clean_app; [|apply IH]. unfold bar_segment. clean.
Qed.

Lemma labels_svg_Clean (data : list languageDatum) :
  Forall (fun d => datum_plain d = true) data ->
  forall i x y labels, labels_svg i x y data = Some labels -> Clean labels.
Proof.
  induction 1 as [|d r Hd _ IH]; intros i x y labels; cbn [labels_svg].
  - intros H. apply Some_eq in H. subst. apply Clean_nil.
  - unfold language_label.
    destruct (ld_name d) as [name|]; [|discriminate].
    destruct (labels_svg (S i) _ _ r) as [rest|] eqn:Er; [|discriminate].
    intros H. apply Some_eq in H. subst labels.
    unfold datum_plain in Hd. apply andb_true_iff in Hd. destruct Hd as [Hp Hc].
    apply no_lt_Clean in Hp. apply no_lt_Clean in Hc.
    apply Clean_app; [|eapply IH; exact Er].
    unfold label_open, label_texts, label_close. clean.
Qed.

Lemma languages_card_Clean (sd : summaryData) (options : cardOptions)
  (svg : string) :
  generateLanguagesCard sd options = Some svg -> ~ Contains script_tag svg.
Proof.
  unfold generateLanguagesCard. cbv zeta.
  destruct (labels_svg 0 15 60 (languageData (sd_languages sd)))
    as [labels|] eqn:El; [|discriminate].
  intros H. apply Some_eq in H. rewrite <- H. clear H. intros Hc.
  apply Contains_of_trim in Hc. revert Hc. apply Clean_no_tag.
  pose proof (theme_config_plain (or_default "default" (o_theme options)))
    as Hth.
  pose proof (border_style_Clean (or_default true (o_showBorder options))
                _ Hth) as Hb.
  pose proof (labels_svg_Clean _ (languageData_plain (sd_languages sd))
                _ _ _ _ El) as Hl.
  pose proof (bar_svg_Clean _ (of_Z 15) (or_default 300 (o_width options) - 30)
                (languageData_plain (sd_languages sd))) as Hbar.
  with_theme Hth. unfold languages_open. clean.
Qed.

End OtherCards.

(** X15: on an engine that prints fractions plainly, neither the compact
    card nor the languages card (when it is drawn) holds the tag
    [<script>], whatever strings the summary carries; the compact card
    shows the display name escaped. *)
Theorem other_cards_hold_no_script (E : JsEngine) (HE : PlainFractions E)
  (sd : summaryData) (options : cardOptions) :
  ~ Contains "<script>" (generateCompactCard sd options)
  /\ (forall svg, generateLanguagesCard sd options = Some svg ->
        ~ Contains "<script>" svg)
  /\ Contains (">" ++ escapeHtml (displayName sd) ++ "</text>")
       (generateCompactCard sd options).
Proof.
  split; [apply compact_card_Clean|]. split; [apply languages_card_Clean|].
  unfold generateCompactCard. cbv zeta.
  eapply Contains_trim; [reflexivity | reflexivity | |].
  - exists (">" ++ escapeHtml (displayName sd) ++ "</text"), ">"%char.
    split; [|reflexivity]. rewrite !append_assoc. reflexivity.
  - repeat match goal with
           | |- Contains _ (append _ (append ?x _)) =>
               lazymatch x with
               | escapeHtml _ => fail
               | _ => apply Contains_app_r
               end
           end.
    match goal with
    | |- Contains _ (">" ++ escapeHtml ?d ++ "</text>" ++ ?r) =>
        exists "", r;
        rewrite (append_assoc ">" (escapeHtml d ++ "</text>") r),
                (append_assoc (escapeHtml d) "</text>" r)
    end.
    reflexivity.
Qed.

(** X15, an instance: the reference engine and a summary whose strings
    carry markup. *)
Lemma other_cards_hold_no_script_witness :
  ~ Contains "<script>" (@generateCompactCard utc_engine xss_summary no_options)
  /\ Contains (">" ++ escapeHtml (displayName xss_summary) ++ "</text>")
       (@generateCompactCard utc_engine xss_summary no_options).
Proof.
  destruct (other_cards_hold_no_script utc_engine utc_engine_plain
              xss_summary no_options) as (H1 & _ & H3).
  split; assumption.
Defined.

(** ** The height of the activity card *)

Lemma height_attribute (W H rest : string) :
  Contains ("height=" ++ dq ++ H ++ dq)
    (nl ++ "<svg width=" ++ dq ++ W ++ dq ++ " height=" ++ dq ++ H ++ dq
     ++ rest).
Proof.
  exists (nl ++ "<svg width=" ++ dq ++ W ++ dq ++ " "), rest.
  rewrite !append_assoc. reflexivity.
Qed.

(** X16: the height of the activity card.  The [height] attribute of the
    card is the height that the layout computes; it is at least 195 and
    exceeds by at least 40 the value that [yOffset] has after the header,
    the language, the summary, the statistics, the projects and the
    achievements, so that no section starts below the card.  Hiding the
    statistics never makes the card taller and saves at most 50 units. *)
Theorem activity_card_layout (E : JsEngine) (sd : summaryData)
  (options : cardOptions) :
  let hideStats := or_default false (o_hideStats options) in
  let hideProjects := or_default false (o_hideProjects options) in
  let lines := wrapText (summary sd) 55 in
  let th := theme_config (or_default "default" (o_theme options)) in
  let h := activity_height lines hideStats hideProjects sd in
  195 <= h
  /\ Contains ("height=" ++ dq ++ Number_toString h ++ dq)
       (generateActivityCard sd options)
  /\ end_offset
       [ header_stretch sd; language_stretch th sd; summary_stretch lines;
         stats_stretch hideStats sd; projects_stretch hideProjects sd;
         achievements_stretch th sd ] 35 + 40 <= h
  /\ activity_height lines true hideProjects sd
     <= activity_height lines false hideProjects sd
     <= activity_height lines true hideProjects sd + 50.
Proof.
  intros hideStats hideProjects lines th h.
  split; [unfold h, activity_height; lia|]. split.
  { unfold generateActivityCard. cbv zeta.
    fold hideStats. fold hideProjects. fold lines. fold h.
    eapply Contains_trim; [reflexivity | reflexivity | |].
    - exists ("height=" ++ dq ++ Number_toString h), (ascii_of_N 34).
      split; [|reflexivity]. rewrite !append_assoc. reflexivity.
    - apply Contains_app_l. unfold activity_open. apply height_attribute. }
  split.
  { unfold h, activity_height. cbn [end_offset].
    unfold header_stretch, language_stretch, summary_stretch, stats_stretch,
      projects_stretch, achievements_stretch.
    cbn [snd].
    destruct (nonempty (primaryLanguage sd)); cbn [snd];
      destruct hideStats; cbn [negb snd];
      destruct (negb hideProjects && has_any (recentProjects sd)); cbn [snd];
      destruct (has_any (achievements sd)); cbn [snd];
      cbv beta iota zeta; rewrite ?length_firstn; lia. }
  unfold activity_height. cbv beta iota zeta.
  destruct (negb hideProjects && has_any (recentProjects sd));
    destruct (has_any (achievements sd)); lia.
Qed.

(** ** The serverless handler, branch by branch *)

Section Handler.
Context {E : JsEngine}.

Lemma handler_valid (env : environment) (req : request) (w : world)
  (u : string) :
  valid_request req u ->
  handler env req w
  = match (summaryData <- getCachedData env u (token_of env req) ;;
           svg <- render_card (or_default "activity" (q_type req)) summaryData
                    (handler_options req (or_default "default" (q_theme req))) ;;
           ret (success_response req svg)) w with
    | (Returned res, w') => (res, w')
    | (Thrown message, w') => (failure_response message, w')
    end.
Proof.
  intros (Hu & Hre & Hth). unfold handler. rewrite Hu, Hre. cbn [negb].
  destruct (lookup (or_default "default" (q_theme req)) themes);
    [reflexivity | contradiction].
Qed.

Lemma render_card_of (type : string) (sd : summaryData)
  (options : cardOptions) (w : world) :
  render_card type sd options w
  = match card_of type sd options with
    | Some svg => (Returned svg, w)
    | None => (Thrown undefined_length_message, w)
    end.
Proof.
  unfold render_card, card_of.
  destruct (String.eqb type "compact"); [reflexivity|].
  destruct (String.eqb type "languages"); [|reflexivity].
  destruct (generateLanguagesCard sd options); reflexivity.
Qed.

Lemma fetch_ok (env : environment) (u : string) (token : option string)
  (w : world) (p : profile) (events : list event) (repos : list repo) :
  get_user (env_upstream env) u token = Ok p ->
  get_events (env_upstream env) u token = Ok events ->
  get_repos (env_upstream env) u token = Ok repos ->
  fetchAllActivityData env u token w
  = (Returned (activity_of p events repos), after_calls u token w).
Proof.
  intros H1 H2 H3. unfold fetchAllActivityData, bind, send.
  now rewrite H1, H2, H3.
Qed.

Lemma fetch_failed (env : environment) (u : string) (token : option string)
  (w : world) (m : string) (rest : list string) :
  failures env u token = m :: rest ->
  fetchAllActivityData env u token w = (Thrown m, after_calls u token w).
Proof.
  unfold failures, fetchAllActivityData, bind, send. intros H.
  destruct (get_user (env_upstream env) u token) as [p|st1 m1];
    destruct (get_events (env_upstream env) u token) as [ev|st2 m2];
    destruct (get_repos (env_upstream env) u token) as [rp|st3 m3];
    cbn [failure_of app] in H; inversion H; reflexivity.
Qed.

Lemma fetch_outcome (env : environment) (u : string) (token : option string)
  (w : world) :
  (exists a, fetchAllActivityData env u token w
             = (Returned a, after_calls u token w)
             /\ exists p events repos, a = activity_of p events repos)
  \/ (exists m, fetchAllActivityData env u token w
                = (Thrown m, after_calls u token w)).
Proof.
  unfold fetchAllActivityData, bind, send.
  destruct (get_user (env_upstream env) u token) as [p|st1 m1];
    destruct (get_events (env_upstream env) u token) as [ev|st2 m2];
    destruct (get_repos (env_upstream env) u token) as [rp|st3 m3];
    try (right; eexists; reflexivity).
  left. eexists. split; [reflexivity | eauto].
Qed.

Lemma cached_hit (env : environment) (u : string) (token : option string)
  (w : world) (data : summaryData) :
  cached_fresh env u w = Some data ->
  getCachedData env u token w = (Returned data, w).
Proof.
  unfold cached_fresh, getCachedData, bind, get_cache. cbn [fst snd].
  destruct (lookup ("user:" ++ u) (w_cache w)) as [[d ts]|]; [|discriminate].
  destruct (env_now env - ts <? CACHE_TTL); [|discriminate].
  intros H. apply Some_eq in H. now subst.
Qed.

Lemma cached_miss (env : environment) (u : string) (token : option string)
  (w : world) :
  cached_fresh env u w = None ->
  getCachedData env u token w
  = match fetchAllActivityData env u token w with
    | (Returned a, w') =>
        (Returned (generateActivitySummary a),
         {| w_cache := cache_put ("user:" ++ u) (generateActivitySummary a)
                         (env_later env) (w_cache w');
            w_calls := w_calls w' |})
    | (Thrown m, w') => (Thrown m, w')
    end.
Proof.
  unfold cached_fresh, getCachedData, cache_put.
  unfold bind at 1. unfold get_cache at 1.
  destruct (lookup ("user:" ++ u) (w_cache w)) as [[d ts]|].
  - destruct (env_now env - ts <? CACHE_TTL); [discriminate|]. intros _.
    unfold bind, get_cache, set_cache, ret.
    destruct (fetchAllActivityData env u token w) as [[a|m] w']; reflexivity.
  - intros _. unfold bind, get_cache, set_cache, ret.
    destruct (fetchAllActivityData env u token w) as [[a|m] w']; reflexivity.
Qed.

End Handler.

(** ** Every card that the pipeline caches can be drawn *)

Lemma summary_names (a : activityData) :
  sd_languages (generateActivitySummary a)
  = map LName (firstn 5 (keys (languages (ad_contributionStats a)))).
Proof. reflexivity. Qed.

Lemma pipeline_renders (E : JsEngine) (type : string) (p : profile)
  (events : list event) (repos : list repo) (options : cardOptions) :
  exists svg,
    card_of type (generateActivitySummary (activity_of p events repos))
      options = Some svg.
Proof.
  unfold card_of.
  destruct (String.eqb type "compact"); [eexists; reflexivity|].
  destruct (String.eqb type "languages"); [|eexists; reflexivity].
  unfold generateLanguagesCard. cbv zeta.
  destruct (labels_svg_total
              (languageData
                 (sd_languages
                    (generateActivitySummary (activity_of p events repos))))
              0 15 60) as (labels & Hl & _).
  - unfold languageData. apply Forall_forall. intros d Hd.
    apply in_map_iff in Hd. destruct Hd as (e & <- & He).
    apply In_of_firstn in He. rewrite summary_names in He.
    apply in_map_iff in He. destruct He as (n & <- & Hn).
    apply In_of_firstn in Hn.
    apply (language_names_nonempty repos) in Hn.
    destruct n as [|c n]; [contradiction | discriminate].
  - rewrite Hl. eexists. reflexivity.
Qed.

(** ** The error card *)

Lemma substring_chars (f : ascii -> bool) (n m : nat) (s : string) :
  all_chars f s = true -> all_chars f (substring n m s) = true.
Proof.
  revert n m. induction s as [|c s IH]; intros n m H.
  - destruct n, m; reflexivity.
  - cbn [all_chars] in H. apply andb_true_iff in H. destruct H as [Hc Hs].
    destruct n as [|n]; destruct m as [|m]; cbn [substring]; try reflexivity.
    + cbn [all_chars]. now rewrite Hc, IH.
    + now apply IH.
    + now apply IH.
Qed.

Lemma replace_lt_plain (s : string) : no_lt (replace_char 60 "&lt;" s) = true.
Proof.
  induction s as [|c s IH]; [reflexivity|]. cbn [replace_char].
  destruct (is_char c 60) eqn:Ec.
  - now rewrite no_lt_app, IH.
  - unfold no_lt in *. cbn [all_chars]. now rewrite Ec, IH.
Qed.

Lemma replace_keeps_plain (c : N) (r s : string) :
  no_lt r = true -> no_lt s = true -> no_lt (replace_char c r s) = true.
Proof.
  intros Hr. induction s as [|a s IH]; [reflexivity|].
  unfold no_lt at 1. cbn [all_chars replace_char]. intros H.
  apply andb_true_iff in H. destruct H as [Ha Hs].
  destruct (is_char a c).
  - rewrite no_lt_app, Hr. now apply IH.
  - unfold no_lt in *. cbn [all_chars]. now rewrite Ha, IH.
Qed.

Lemma error_card_Clean (message : string) :
  ~ Contains script_tag (generateErrorCard message).
Proof.
  intros Hc. unfold generateErrorCard in Hc. cbv zeta in Hc.
  apply Contains_of_trim in Hc. revert Hc. apply Clean_no_tag.
  assert (Hm : Clean (substring 0 100
                        (replace_char 62 "&gt;"
                           (replace_char 60 "&lt;"
                              (replace_char 38 "&amp;" message))))).
  { apply no_lt_Clean. apply (substring_chars _ 0 100).
    apply replace_keeps_plain; [reflexivity | apply replace_lt_plain]. }
  clean.
Qed.

Lemma activity_card_no_tag (E : JsEngine) (HE : PlainFractions E)
  (sd : summaryData) (options : cardOptions) :
  ~ Contains script_tag (generateActivityCard sd options).
Proof.
  intros Hc. unfold generateActivityCard in Hc.
  apply Contains_of_trim in Hc. revert Hc. apply Clean_no_tag.
  apply activity_card_Clean. apply theme_config_plain.
Qed.

Lemma card_of_no_tag (E : JsEngine) (HE : PlainFractions E) (type : string)
  (sd : summaryData) (options : cardOptions) (svg : string) :
  card_of type sd options = Some svg -> ~ Contains script_tag svg.
Proof.
  unfold card_of. destruct (String.eqb type "compact").
  { intros H. apply Some_eq in H. rewrite <- H. apply compact_card_Clean. }
  destruct (String.eqb type "languages").
  { apply languages_card_Clean. }
  intros H. apply Some_eq in H. rewrite <- H. now apply activity_card_no_tag.
Qed.

(** ** What the handler answers *)

Lemma handler_valid_cases (E : JsEngine) (env : environment) (req : request)
  (w : world) (u : string) :
  valid_request req u ->
  (exists sd svg,
     card_of (or_default "activity" (q_type req)) sd
       (handler_options req (or_default "default" (q_theme req))) = Some svg
     /\ fst (handler env req w) = success_response req svg)
  \/ (exists m, fst (handler env req w) = failure_response m).
Proof.
  intros Hv. rewrite (handler_valid env req w u Hv). unfold bind.
  destruct (getCachedData env u (token_of env req) w) as [[sd|m] w'].
  - rewrite render_card_of.
    destruct (card_of _ sd _) as [svg|] eqn:Ec.
    + left. exists sd, svg. split; [exact Ec | reflexivity].
    + right. eexists. reflexivity.
  - right. eexists. reflexivity.
Qed.

Lemma failure_status (m : string) :
  status (failure_response m) = 404 \/ status (failure_response m) = 500.
Proof.
  unfold failure_response. cbn [status].
  destruct (includes "not found" m); auto.
Qed.

Lemma request_cases (req : request) :
  nonempty (q_username req) = None
  \/ (exists u, nonempty (q_username req) = Some u
                /\ login_regex_test u = false)
  \/ (exists u, nonempty (q_username req) = Some u
                /\ login_regex_test u = true
                /\ lookup (or_default "default" (q_theme req)) themes = None)
  \/ (exists u, valid_request req u).
Proof.
  destruct (nonempty (q_username req)) as [u|] eqn:Eu; [|now left].
  right. destruct (login_regex_test u) eqn:Er; [|left; eauto].
  right. destruct (lookup (or_default "default" (q_theme req)) themes) eqn:El.
  - right. exists u. unfold valid_request. rewrite Eu, El.
    repeat split; [assumption | discriminate].
  - left. eauto.
Qed.

(** X17: for a theme that is not the name of a member of
    [Object.prototype], the serverless handler answers 400 exactly when
    the user name is missing or empty, or violates the login grammar, or
    the theme is not in the table.  A 400 response is JSON and leaves the
    cache and the upstream untouched; a missing user name is answered
    with the usage note, an unknown theme with its name and the twenty
    themes of the table. *)
Theorem handler_rejects_bad_requests (E : JsEngine) (env : environment)
  (req : request) (w : world) :
  let theme := or_default "default" (q_theme req) in
  let res := fst (handler env req w) in
  ~ In theme Object_prototype_names ->
  (status res = 400 <->
     nonempty (q_username req) = None
     \/ (exists u, nonempty (q_username req) = Some u
                   /\ login_regex_test u = false)
     \/ lookup theme themes = None)
  /\ (status res = 400 ->
      snd (handler env req w) = w
      /\ headers res = [("Content-Type", "application/json")])
  /\ (nonempty (q_username req) = None ->
      res_body res
      = Json [("error", JString "Missing required parameter: username");
              ("usage", JString "/?username=YOUR_GITHUB_USERNAME")])
  /\ (forall u, nonempty (q_username req) = Some u ->
        login_regex_test u = true -> lookup theme themes = None ->
        res_body res
        = Json [("error", JString ("Invalid theme: " ++ theme));
                ("available_themes", JArray (keys themes))])
  /\ List.length (keys themes) = 20%nat.
Proof.
  intros theme res _.
  destruct (request_cases req) as [Hu|[(u & Hu & Hr)|[(u & Hu & Hr & Hl)|(u & Hv)]]].
  - unfold res, handler. rewrite Hu. cbn [fst snd bad_request status headers res_body].
    repeat split; auto; intros; congruence.
  - unfold res, handler. rewrite Hu, Hr.
    cbn [negb fst snd bad_request status headers res_body].
    repeat split; auto; intros; try congruence.
    right. left. eauto.
  - unfold res, handler. fold theme in Hl |- *. rewrite Hu, Hr, Hl.
    cbn [negb fst snd bad_request status headers res_body].
    repeat split; auto; intros; congruence.
  - assert (Hnot : status res <> 400).
    { unfold res.
      destruct (handler_valid_cases E env req w u Hv) as [(sd & svg & _ & ->)|(m & ->)].
      - discriminate.
      - destruct (failure_status m) as [-> | ->]; discriminate. }
    destruct Hv as (Hu & Hr & Hl). fold theme in Hl.
    split; [|split; [|split; [|split]]].
    + split; [contradiction|]. intros [H|[(u' & Hu' & Hr')|H]]; congruence.
    + contradiction.
    + congruence.
    + intros u' _ _ H. contradiction.
    + reflexivity.
Qed.

(** X17, an instance: a theme that the table does not hold. *)
Lemma handler_rejects_bad_requests_witness :
  status (fst (@handler utc_engine sample_environment
                 {| q_username := Some "octocat"; q_theme := Some "neon";
                    q_type := None; q_border := None;
                    q_border_radius := None; q_hide_stats := None;
                    q_hide_projects := None; q_cache_seconds := None;
                    h_x_github_token := None |} empty_world)) = 400.
Proof.
  refine (proj2 (proj1 (handler_rejects_bad_requests utc_engine
                          sample_environment _ empty_world _)) _).
  - cbn. intuition discriminate.
  - right. right. reflexivity.
Defined.

(** X18: a valid request for a user whose summary is in the cache and
    younger than four hours is answered from the cache: nothing is
    fetched and the cache is unchanged; the response is the card of the
    cached summary, or, when the renderer throws, the error response for
    the message of its [TypeError]. *)
Theorem handler_serves_from_cache (E : JsEngine) (env : environment)
  (req : request) (w : world) (u : string) (data : summaryData) (ts : Z) :
  valid_request req u ->
  lookup ("user:" ++ u) (w_cache w) = Some (data, ts) ->
  env_now env - ts < CACHE_TTL ->
  let type := or_default "activity" (q_type req) in
  let options := handler_options req (or_default "default" (q_theme req)) in
  snd (handler env req w) = w
  /\ (forall svg, card_of type data options = Some svg ->
        fst (handler env req w) = success_response req svg)
  /\ (card_of type data options = None ->
      fst (handler env req w) = failure_response undefined_length_message).
Proof.
  intros Hv Hl Hts type options.
  assert (Hf : cached_fresh env u w = Some data).
  { unfold cached_fresh. rewrite Hl.
    destruct (Z.ltb_spec (env_now env - ts) CACHE_TTL); [reflexivity | lia]. }
  rewrite (handler_valid env req w u Hv). unfold bind.
  rewrite (cached_hit env u _ w data Hf), render_card_of.
  fold type. fold options.
  destruct (card_of type data options) as [svg|].
  - split; [reflexivity|]. split; [|discriminate].
    intros svg' H. apply Some_eq in H. now subst.
  - split; [reflexivity|]. split; [discriminate | reflexivity].
Qed.

(** X18, an instance: a cache entry one second old. *)
Lemma handler_serves_from_cache_witness :
  snd (@handler utc_engine sample_environment (request_for "octocat")
         warm_world) = warm_world.
Proof.
  refine (proj1 (handler_serves_from_cache utc_engine sample_environment
                   (request_for "octocat") warm_world "octocat" xss_summary
                   1699999999000 _ eq_refl eq_refl)).
  repeat split. discriminate.
Defined.

(** ** The cache *)

Lemma length_store {V : Type} (k : string) (v : V) (d : dict V) :
  (List.length (store k v d) <= S (List.length d))%nat
  /\ (In k (keys d) -> List.length (store k v d) = List.length d)
  /\ (~ In k (keys d) -> store k v d = (d ++ [(k, v)])%list).
Proof.
  induction d as [|[k' v'] d (IH1 & IH2 & IH3)]; cbn [store List.length keys map].
  - split; [lia|]. split; [intros [] | reflexivity].
  - destruct (String.eqb_spec k k') as [->|Hne]; cbn [List.length].
    + split; [lia|]. split; [reflexivity|]. intros H. exfalso. apply H. now left.
    + split; [lia|]. split.
      * intros [H|H]; [simpl in H; congruence|]. now rewrite IH2.
      * intros H. cbn [app]. f_equal. apply IH3. intros Hin. apply H. now right.
Qed.

(** The entry just stored survives the clean-up of a cache that was
    within its bound. *)
Lemma cache_put_lookup (key : string) (sd : summaryData) (now : Z)
  (cache : dict (summaryData * Z)) :
  (List.length cache <= 1000)%nat ->
  lookup key (cache_put key sd now cache) = Some (sd, now)
  /\ (List.length (cache_put key sd now cache) <= 1000)%nat.
Proof.
  intros Hlen. unfold cache_put. cbv zeta.
  destruct (length_store key (sd, now) cache) as (H1 & H2 & H3).
  destruct (Nat.ltb_spec 1000 (List.length (store key (sd, now) cache)))
    as [Hbig|Hsmall].
  - assert (Hnew : ~ In key (keys cache)).
    { intros Hin. rewrite (H2 Hin) in Hbig. lia. }
    rewrite (H3 Hnew) in *. rewrite length_app in Hbig. cbn [List.length] in Hbig.
    destruct cache as [|[k0 v0] rest]; [cbn [List.length] in *; lia|].
    cbn [app tl]. split.
    + assert (Hk : lookup key rest = None).
      { apply lookup_None_keys. intros Hin. apply Hnew. now right. }
      clear - Hk. induction rest as [|[k1 v1] rest IH]; cbn [app lookup].
      * now rewrite String.eqb_refl.
      * cbn [lookup] in Hk. destruct (String.eqb key k1); [discriminate|].
        now apply IH.
    + rewrite length_app. cbn [List.length] in *. lia.
  - split; [apply lookup_store_same | lia].
Qed.

Lemma cache_put_keys (key : string) (sd : summaryData) (now : Z)
  (cache : dict (summaryData * Z)) (k : string) :
  In k (keys (cache_put key sd now cache)) -> In k (keys cache) \/ k = key.
Proof.
  unfold cache_put. cbv zeta.
  assert (Hst : forall k, In k (keys (store key (sd, now) cache)) ->
                          In k (keys cache) \/ k = key).
  { intros k0. destruct (in_dec string_dec key (keys cache)) as [Hin|Hnin].
    - rewrite keys_store_old by assumption. auto.
    - rewrite keys_store_new by assumption. rewrite in_app_iff.
      intros [H|[H|[]]]; auto. }
  destruct (1000 <? List.length (store key (sd, now) cache))%nat;
    [|apply Hst].
  intros Hin. apply Hst.
  destruct (store key (sd, now) cache) as [|x r]; [contradiction|].
  cbn [tl] in Hin. cbn [keys map]. right. exact Hin.
Qed.

(** X19: a valid request for a user without a fresh cache entry, when the
    three upstream requests succeed, sends exactly these three requests,
    answers with the card of the synthesized summary and stores the
    summary under [user:<name>] with the time of the store.  The same
    request repeated within four hours of that time is answered from the
    cache with the same response and changes nothing. *)
Theorem handler_caches_fresh_summary (E : JsEngine) (env env2 : environment)
  (req : request) (w : world) (u : string) (p : profile)
  (events : list event) (repos : list repo) :
  valid_request req u ->
  cached_fresh env u w = None ->
  (List.length (w_cache w) <= 1000)%nat ->
  get_user (env_upstream env) u (token_of env req) = Ok p ->
  get_events (env_upstream env) u (token_of env req) = Ok events ->
  get_repos (env_upstream env) u (token_of env req) = Ok repos ->
  env_now env2 - env_later env < CACHE_TTL ->
  let sd := generateActivitySummary (activity_of p events repos) in
  let w' := snd (handler env req w) in
  (exists svg,
     card_of (or_default "activity" (q_type req)) sd
       (handler_options req (or_default "default" (q_theme req))) = Some svg
     /\ fst (handler env req w) = success_response req svg)
  /\ w_calls w' = app (w_calls w) (calls_for u (token_of env req))
  /\ lookup ("user:" ++ u) (w_cache w') = Some (sd, env_later env)
  /\ snd (handler env2 req w') = w'
  /\ fst (handler env2 req w') = fst (handler env req w).
Proof.
  intros Hv Hmiss Hlen Hp Hev Hrp Hnow sd w'.
  destruct (pipeline_renders E (or_default "activity" (q_type req)) p events
              repos (handler_options req (or_default "default" (q_theme req))))
    as (svg & Hsvg).
  fold sd in Hsvg.
  assert (Hh : handler env req w
               = (success_response req svg,
                  {| w_cache := cache_put ("user:" ++ u) sd (env_later env)
                                  (w_cache w);
                     w_calls := app (w_calls w)
                                  (calls_for u (token_of env req)) |})).
  { rewrite (handler_valid env req w u Hv). unfold bind.
    rewrite (cached_miss env u _ w Hmiss),
            (fetch_ok env u _ w p events repos Hp Hev Hrp).
    fold sd. rewrite render_card_of, Hsvg. reflexivity. }
  destruct (cache_put_lookup ("user:" ++ u) sd (env_later env) (w_cache w) Hlen)
    as [Hlook _].
  assert (Hw' : w' = {| w_cache := cache_put ("user:" ++ u) sd (env_later env)
                                     (w_cache w);
                        w_calls := app (w_calls w)
                                     (calls_for u (token_of env req)) |}).
  { unfold w'. now rewrite Hh. }
  assert (Hfresh : cached_fresh env2 u w' = Some sd).
  { unfold cached_fresh. rewrite Hw'. cbn [w_cache]. rewrite Hlook.
    destruct (Z.ltb_spec (env_now env2 - env_later env) CACHE_TTL);
      [reflexivity | lia]. }
  assert (Hh2 : handler env2 req w' = (success_response req svg, w')).
  { rewrite (handler_valid env2 req w' u Hv). unfold bind.
    rewrite (cached_hit env2 u _ w' sd Hfresh), render_card_of, Hsvg.
    reflexivity. }
  split; [exists svg; split; [exact Hsvg | now rewrite Hh]|].
  split; [now rewrite Hw'|]. split; [now rewrite Hw'|].
  rewrite Hh2, Hh. split; reflexivity.
Qed.

(** X19, an instance: the first request for a user, on an empty cache. *)
Lemma handler_caches_fresh_summary_witness :
  w_calls (snd (@handler utc_engine sample_environment
                  (request_for "octocat") empty_world))
  = app (w_calls empty_world)
      (calls_for "octocat"
         (token_of sample_environment (request_for "octocat"))).
Proof.
  refine (proj1 (proj2 (handler_caches_fresh_summary utc_engine
                          sample_environment sample_environment
                          (request_for "octocat") empty_world "octocat"
                          sample_profile streak_sample two_language_repos
                          _ eq_refl _ eq_refl eq_refl eq_refl eq_refl))).
  - repeat split. discriminate.
  - cbn. lia.
Defined.

(** X20: the cache never grows beyond 1000 entries: if it holds at most
    1000 entries before a request it holds at most 1000 after it.  A
    request adds no key but [user:<name>] for its own user name, and a
    request that is not answered with 200 leaves the cache as it was. *)
Theorem handler_cache_bounded (E : JsEngine) (env : environment)
  (req : request) (w : world) :
  (List.length (w_cache w) <= 1000)%nat ->
  let w' := snd (handler env req w) in
  (List.length (w_cache w') <= 1000)%nat
  /\ (forall k, In k (keys (w_cache w')) ->
        In k (keys (w_cache w))
        \/ exists u, nonempty (q_username req) = Some u /\ k = "user:" ++ u)
  /\ (status (fst (handler env req w)) <> 200 -> w_cache w' = w_cache w).
Proof.
  intros Hlen w'.
  destruct (request_cases req)
    as [Hu|[(u & Hu & Hr)|[(u & Hu & Hr & Hl)|(u & Hv)]]].
  - assert (Hw : w' = w) by (unfold w', handler; now rewrite Hu).
    rewrite Hw. auto.
  - assert (Hw : w' = w) by (unfold w', handler; now rewrite Hu, Hr).
    rewrite Hw. auto.
  - assert (Hw : w' = w) by (unfold w', handler; now rewrite Hu, Hr, Hl).
    rewrite Hw. auto.
  - unfold w'. rewrite (handler_valid env req w u Hv). unfold bind.
    destruct (cached_fresh env u w) as [data|] eqn:Ef.
    + rewrite (cached_hit env u _ w data Ef), render_card_of.
      destruct (card_of _ data _); cbn [fst snd]; auto.
    + rewrite (cached_miss env u _ w Ef).
      destruct (fetch_outcome env u (token_of env req) w)
        as [(a & -> & pr & ev & rp & ->)|(m & ->)].
      * rewrite render_card_of.
        destruct (pipeline_renders E (or_default "activity" (q_type req)) pr ev
                    rp (handler_options req
                          (or_default "default" (q_theme req)))) as (svg & ->).
        cbn [fst snd w_cache after_calls status success_response ret].
        destruct (cache_put_lookup ("user:" ++ u)
                    (generateActivitySummary (activity_of pr ev rp))
                    (env_later env) (w_cache w) Hlen) as [_ Hb].
        split; [exact Hb|]. split; [|congruence].
        intros k Hk. apply cache_put_keys in Hk. destruct Hk as [Hk|Hk]; [now left|].
        right. exists u. split; [apply Hv | exact Hk].
      * cbn [fst snd w_cache after_calls]. auto.
Qed.

(** X20, an instance: the empty cache. *)
Lemma handler_cache_bounded_witness :
  (List.length
     (w_cache (snd (@handler utc_engine sample_environment
                      (request_for "octocat") empty_world))) <= 1000)%nat.
Proof.
  refine (proj1 (handler_cache_bounded utc_engine sample_environment
                   (request_for "octocat") empty_world _)).
  cbn. lia.
Defined.

(** ** Failures upstream *)

Lemma all_chars_impl (f g : ascii -> bool) (s : string) :
  (forall c, f c = true -> g c = true) ->
  all_chars f s = true -> all_chars g s = true.
Proof.
  intros Himp. induction s as [|c s IH]; [reflexivity|].
  cbn [all_chars]. intros H. apply andb_true_iff in H. destruct H as [Hc Hs].
  now rewrite (Himp c Hc), IH.
Qed.

Lemma login_char_other (c : ascii) (k : N) :
  alnum c || is_hyphen c = true ->
  alnum (ascii_of_N k) || is_hyphen (ascii_of_N k) = false ->
  (k < 256)%N ->
  negb (is_char c k) = true.
Proof.
  intros Hc Hk Hlt. apply negb_true_iff. unfold is_char.
  apply N.eqb_neq. intros Heq.
  assert (Hck : c = ascii_of_N k) by (rewrite <- Heq; now rewrite ascii_N_embedding).
  rewrite Hck in Hc. congruence.
Qed.

Lemma valid_login_plain (u : string) :
  login_regex_test u = true ->
  free_of 38 u = true /\ free_of 60 u = true /\ free_of 62 u = true
  /\ (String.length u <= 39)%nat.
Proof.
  intros Hu. rewrite login_regex_exact in Hu.
  apply andb_true_iff in Hu. destruct Hu as [_ Hv].
  apply negb_true_iff in Hv. unfold violates_login_grammar in Hv.
  apply orb_false_iff in Hv. destruct Hv as [Hv Hlen].
  apply orb_false_iff in Hv. destruct Hv as [Hv _].
  apply orb_false_iff in Hv. destruct Hv as [Hv _].
  apply orb_false_iff in Hv. destruct Hv as [Hall _].
  apply negb_false_iff in Hall. apply Nat.ltb_ge in Hlen.
  unfold free_of.
  repeat split; try assumption;
    (eapply all_chars_impl; [|exact Hall]; intros c Hc;
     apply (login_char_other c _ Hc); [reflexivity | reflexivity]).
Qed.

Lemma replace_char_free (c : N) (r s : string) :
  free_of c s = true -> replace_char c r s = s.
Proof.
  unfold free_of. induction s as [|a s IH]; [reflexivity|].
  cbn [all_chars replace_char]. intros H. apply andb_true_iff in H.
  destruct H as [Ha Hs]. apply negb_true_iff in Ha. rewrite Ha.
  now rewrite (IH Hs).
Qed.

Lemma substring_whole (n : nat) (s : string) :
  (String.length s <= n)%nat -> substring 0 n s = s.
Proof.
  revert n. induction s as [|c s IH]; intros n H.
  - destruct n; reflexivity.
  - destruct n as [|n]; [simpl in H; lia|]. cbn [substring]. f_equal.
    apply IH. simpl in H. lia.
Qed.

Lemma free_of_app (c : N) (a b : string) :
  free_of c (a ++ b) = free_of c a && free_of c b.
Proof. apply all_chars_app. Qed.

Lemma starts_with_app (p s : string) : starts_with p (p ++ s) = true.
Proof.
  induction p as [|c p IH]; [reflexivity|]. cbn [append starts_with].
  now rewrite Ascii.eqb_refl, IH.
Qed.

Lemma includes_here (pat s : string) :
  starts_with pat s = true -> includes pat s = true.
Proof. intros H. destruct s; cbn [includes]; now rewrite H. Qed.

Lemma includes_app (pat a b : string) : includes pat (a ++ pat ++ b) = true.
Proof.
  induction a as [|c a IH].
  - cbn [append]. apply includes_here, starts_with_app.
  - cbn [append]. cbn [includes]. rewrite IH.
    now destruct (starts_with pat (String c (a ++ pat ++ b))).
Qed.

Lemma not_found_message (u : string) :
  includes "not found" ("User " ++ dq ++ u ++ dq ++ " not found") = true.
Proof.
  assert (E1 : "User " ++ dq ++ u ++ dq ++ " not found"
               = ("User " ++ dq ++ u ++ dq ++ " ") ++ "not found" ++ "").
  { now rewrite !append_assoc. }
  rewrite E1. apply includes_app.
Qed.

Lemma error_card_shows (m : string) :
  free_of 38 m = true -> free_of 60 m = true -> free_of 62 m = true ->
  (String.length m <= 100)%nat -> m <> "" ->
  (exists c r, m = String c r /\ is_space c = false) -> last_char_plain m ->
  Contains m (generateErrorCard m).
Proof.
  intros H38 H60 H62 Hlen Hne (c & r & Hm & Hc) Hlast.
  unfold generateErrorCard. cbv zeta.
  rewrite (replace_char_free 38 _ m H38), (replace_char_free 60 _ m H60),
          (replace_char_free 62 _ m H62), (substring_whole 100 m Hlen).
  eapply Contains_trim; [exact Hm | exact Hc | exact Hlast|].
  repeat match goal with
         | |- Contains ?p (append ?x (append _ _)) =>
             lazymatch x with
             | p => fail
             | _ => apply Contains_app_r
             end
         end.
  apply Contains_app_l, Contains_refl.
Qed.

(** X21: when at least one of the three upstream requests of a valid,
    uncached request fails, and the failed requests all lead to the same
    error message, the handler answers with the error card of that
    message, with status 404 if the message holds `not found' and 500
    otherwise, and stores nothing.  An upstream 404 becomes the message
    that the user, named in double quotes, was not found, which the error
    card shows and which is answered with 404; an upstream 403 is
    answered with 500. *)
Theorem handler_reports_upstream_failure (E : JsEngine) (env : environment)
  (req : request) (w : world) (u msg : string) :
  valid_request req u ->
  cached_fresh env u w = None ->
  failures env u (token_of env req) <> [] ->
  (forall m, In m (failures env u (token_of env req)) -> m = msg) ->
  let notFound := "User " ++ dq ++ u ++ dq ++ " not found" in
  fst (handler env req w) = failure_response msg
  /\ snd (handler env req w) = after_calls u (token_of env req) w
  /\ (forall m0, upstream_error u (Some 404) m0 = notFound)
  /\ status (failure_response notFound) = 404
  /\ Contains notFound (generateErrorCard notFound)
  /\ (forall m0, status (failure_response (upstream_error u (Some 403) m0))
                 = 500).
Proof.
  intros Hv Hmiss Hne Hall notFound.
  destruct (failures env u (token_of env req)) as [|m rest] eqn:Ef;
    [contradiction|].
  assert (Hm : m = msg) by (apply Hall; now left). subst m.
  assert (Hh : handler env req w
               = (failure_response msg, after_calls u (token_of env req) w)).
  { rewrite (handler_valid env req w u Hv). unfold bind.
    rewrite (cached_miss env u _ w Hmiss),
            (fetch_failed env u _ w msg rest Ef). reflexivity. }
  rewrite Hh. split; [reflexivity|]. split; [reflexivity|].
  split; [reflexivity|]. split.
  { unfold failure_response. cbn [status]. unfold notFound.
    now rewrite not_found_message. }
  split; [|reflexivity].
  destruct Hv as (_ & Hre & _).
  destruct (valid_login_plain u Hre) as (H38 & H60 & H62 & Hlen).
  unfold notFound. apply error_card_shows.
  - rewrite !free_of_app, H38. reflexivity.
  - rewrite !free_of_app, H60. reflexivity.
  - rewrite !free_of_app, H62. reflexivity.
  - rewrite !length_append. cbn [String.length dq]. lia.
  - discriminate.
  - eexists _, _. split; reflexivity.
  - exists ("User " ++ dq ++ u ++ dq ++ " not foun"), "d"%char.
    split; [|reflexivity]. rewrite !append_assoc. reflexivity.
Qed.

(** X21, an instance: a user that the upstream does not know. *)
Lemma handler_reports_upstream_failure_witness :
  fst (@handler utc_engine sample_environment (request_for "nobody")
         empty_world)
  = failure_response ("User " ++ dq ++ "nobody" ++ dq ++ " not found").
Proof.
  refine (proj1 (handler_reports_upstream_failure utc_engine
                   sample_environment (request_for "nobody") empty_world
                   "nobody" _ _ eq_refl _ _)).
  - repeat split. discriminate.
  - discriminate.
  - intros m [<-|[<-|[<-|[]]]]; reflexivity.
Defined.

(** ** No response holds a script tag *)

(** X22: on an engine that prints fractions plainly, no textual response
    of the serverless handler (a card or an error card) holds the tag
    [<script>], whatever the request, the cache and the upstream
    replies. *)
Theorem handler_never_emits_script (E : JsEngine) (HE : PlainFractions E)
  (env : environment) (req : request) (w : world) (s : string) :
  res_body (fst (handler env req w)) = Text s -> ~ Contains "<script>" s.
Proof.
  destruct (request_cases req)
    as [Hu|[(u & Hu & Hr)|[(u & Hu & Hr & Hl)|(u & Hv)]]].
  - unfold handler. rewrite Hu. discriminate.
  - unfold handler. rewrite Hu, Hr. discriminate.
  - unfold handler. rewrite Hu, Hr, Hl. discriminate.
  - destruct (handler_valid_cases E env req w u Hv)
      as [(sd & svg & Hc & ->)|(m & ->)].
    + cbn [res_body success_response]. intros H. inversion H. subst s.
      now apply (card_of_no_tag E HE _ _ _ _ Hc).
    + cbn [res_body failure_response]. intros H. inversion H.
      apply error_card_Clean.
Qed.

(** X22, an instance: a cached summary whose strings carry markup, on the
    reference engine. *)
Lemma handler_never_emits_script_witness :
  res_body (fst (@handler utc_engine sample_environment
                   (request_for "octocat") warm_world))
  = Text (@generateActivityCard utc_engine xss_summary
            (@handler_options utc_engine (request_for "octocat") "default"))
  /\ ~ Contains "<script>"
        (@generateActivityCard utc_engine xss_summary
           (@handler_options utc_engine (request_for "octocat") "default")).
Proof.
  split; [reflexivity|].
  apply (handler_never_emits_script utc_engine utc_engine_plain
           sample_environment (request_for "octocat") warm_world).
  reflexivity.
Defined.

(** X23: the serverless handler answers with 200, 400, 404 or 500 and
    nothing else.  A 200 response is SVG text with the [Cache-Control] of
    the request; a 404 or 500 response is an error card that must not be
    cached; a 400 response is JSON.  The [Cache-Control] is four hours
    without [cache_seconds], and otherwise the requested number of
    seconds capped at one day. *)
Theorem handler_response_shape (E : JsEngine) (env : environment)
  (req : request) (w : world) :
  let res := fst (handler env req w) in
  (status res = 200 \/ status res = 400 \/ status res = 404
   \/ status res = 500)
  /\ (status res = 200 ->
      headers res = [("Cache-Control", cache_control req);
                     ("Content-Type", "image/svg+xml")]
      /\ exists svg, res_body res = Text svg)
  /\ (status res = 404 \/ status res = 500 ->
      headers res = [("Content-Type", "image/svg+xml");
                     ("Cache-Control", "no-cache, no-store, must-revalidate")]
      /\ exists m, res_body res = Text (generateErrorCard m))
  /\ (status res = 400 ->
      headers res = [("Content-Type", "application/json")]
      /\ exists fields, res_body res = Json fields)
  /\ (nonempty (q_cache_seconds req) = None ->
      cache_control req = "public, max-age=14400")
  /\ (forall cs n, nonempty (q_cache_seconds req) = Some cs ->
        parseInt cs = Some n ->
        cache_control req
        = "public, max-age=" ++ Number_toString (Z.min n 86400)).
Proof.
  intros res.
  assert (Hcc1 : nonempty (q_cache_seconds req) = None ->
                 cache_control req = "public, max-age=14400").
  { intros H. unfold cache_control. rewrite H. reflexivity. }
  assert (Hcc2 : forall cs n, nonempty (q_cache_seconds req) = Some cs ->
                   parseInt cs = Some n ->
                   cache_control req
                   = "public, max-age=" ++ Number_toString (Z.min n 86400)).
  { intros cs n H1 H2. unfold cache_control. rewrite H1, H2. reflexivity. }
  assert (Hbad : forall fields, res = bad_request fields ->
            (status res = 200 \/ status res = 400 \/ status res = 404
             \/ status res = 500)
            /\ (status res = 200 ->
                headers res = [("Cache-Control", cache_control req);
                               ("Content-Type", "image/svg+xml")]
                /\ exists svg, res_body res = Text svg)
            /\ (status res = 404 \/ status res = 500 ->
                headers res
                = [("Content-Type", "image/svg+xml");
                   ("Cache-Control", "no-cache, no-store, must-revalidate")]
                /\ exists m, res_body res = Text (generateErrorCard m))
            /\ (status res = 400 ->
                headers res = [("Content-Type", "application/json")]
                /\ exists fields, res_body res = Json fields)).
  { intros fields ->. cbn [bad_request status headers res_body].
    split; [auto|]. split; [discriminate|].
    split; [intros [H|H]; discriminate|]. intros _. eauto. }
  destruct (request_cases req)
    as [Hu|[(u & Hu & Hr)|[(u & Hu & Hr & Hl)|(u & Hv)]]].
  - destruct (Hbad _ ltac:(unfold res, handler; rewrite Hu; reflexivity))
      as (H1 & H2 & H3 & H4). auto 10.
  - destruct (Hbad _ ltac:(unfold res, handler; rewrite Hu, Hr; reflexivity))
      as (H1 & H2 & H3 & H4). auto 10.
  - destruct (Hbad _ ltac:(unfold res, handler; rewrite Hu, Hr, Hl; reflexivity))
      as (H1 & H2 & H3 & H4). auto 10.
  - unfold res.
    destruct (handler_valid_cases E env req w u Hv)
      as [(sd & svg & Hc & ->)|(m & ->)].
    + cbn [success_response status headers res_body].
      split; [auto|]. split; [eauto|].
      split; [intros [H|H]; discriminate|].
      split; [discriminate|]. auto.
    + pose proof (failure_status m) as Hs.
      unfold failure_response in *. cbn [status headers res_body] in *.
      split; [tauto|]. split; [intros H; destruct Hs; congruence|].
      split; [eauto|].
      split; [intros H; destruct Hs; congruence|]. auto.
Qed.

(** ** The development server *)

Section DevServer.
Context {E : JsEngine}.

Lemma dev_valid_unfold (env : environment) (req : dev_request) (w : world)
  (u : string) :
  dev_valid req u ->
  handleRequest env req w
  = match (summaryData <- dev_getCachedData env u (env_GITHUB_TOKEN env) ;;
           svg <- render_card
                    (or_default "activity" (nonempty (q_type (d_query req))))
                    summaryData
                    (dev_options (d_query req)
                       (or_default "default"
                          (nonempty (q_theme (d_query req))))) ;;
           ret {| status := 200;
                  headers := [("Content-Type", "image/svg+xml");
                              ("Cache-Control", "public, max-age=14400")];
                  res_body := Text svg |}) w with
    | (Returned res, w') => (res, w')
    | (Thrown message, w') =>
        (json_response (if includes "not found" message then 404 else 500)
           [("error", JString message)], w')
    end.
Proof.
  intros (Hh & Hapi & Hu & Hth). unfold handleRequest. cbv zeta.
  apply String.eqb_neq in Hh. rewrite Hh, Hapi, Hu.
  destruct (lookup _ themes); [reflexivity | contradiction].
Qed.

Lemma dev_cached_hit (env : environment) (u : string) (token : option string)
  (w : world) (data : summaryData) :
  cached_fresh env u w = Some data ->
  dev_getCachedData env u token w = (Returned data, w).
Proof.
  unfold cached_fresh, dev_getCachedData, bind, get_cache. cbn [fst snd].
  destruct (lookup ("user:" ++ u) (w_cache w)) as [[d ts]|]; [|discriminate].
  destruct (env_now env - ts <? CACHE_TTL); [|discriminate].
  intros H. apply Some_eq in H. now subst.
Qed.

Lemma dev_cached_miss (env : environment) (u : string)
  (token : option string) (w : world) :
  cached_fresh env u w = None ->
  dev_getCachedData env u token w
  = match fetchAllActivityData env u token w with
    | (Returned a, w') =>
        (Returned (generateActivitySummary a),
         {| w_cache := store ("user:" ++ u)
                         (generateActivitySummary a, env_later env)
                         (w_cache w');
            w_calls := w_calls w' |})
    | (Thrown m, w') => (Thrown m, w')
    end.
Proof.
  unfold cached_fresh, dev_getCachedData.
  unfold bind at 1. unfold get_cache at 1.
  destruct (lookup ("user:" ++ u) (w_cache w)) as [[d ts]|].
  - destruct (env_now env - ts <? CACHE_TTL); [discriminate|]. intros _.
    unfold bind, get_cache, set_cache, ret.
    destruct (fetchAllActivityData env u token w) as [[a|m] w']; reflexivity.
  - intros _. unfold bind, get_cache, set_cache, ret.
    destruct (fetchAllActivityData env u token w) as [[a|m] w']; reflexivity.
Qed.

End DevServer.

Lemma dev_request_cases (req : dev_request) :
  d_pathname req = "/health"
  \/ (d_pathname req <> "/health" /\ is_api_path (d_pathname req) = false)
  \/ (d_pathname req <> "/health" /\ is_api_path (d_pathname req) = true
      /\ nonempty (q_username (d_query req)) = None)
  \/ (exists u, d_pathname req <> "/health"
                /\ is_api_path (d_pathname req) = true
                /\ nonempty (q_username (d_query req)) = Some u
                /\ lookup (or_default "default"
                             (nonempty (q_theme (d_query req)))) themes = None)
  \/ (exists u, dev_valid req u).
Proof.
  destruct (String.eqb_spec (d_pathname req) "/health") as [|Hh]; [now left|].
  right. destruct (is_api_path (d_pathname req)) eqn:Ea; [|now left].
  right. destruct (nonempty (q_username (d_query req))) as [u|] eqn:Eu;
    [|now left].
  right.
  destruct (lookup (or_default "default" (nonempty (q_theme (d_query req))))
              themes) eqn:El.
  - right. exists u. unfold dev_valid. rewrite Eu, El.
    split; [assumption|]. split; [assumption|].
    split; [reflexivity | discriminate].
  - left. exists u. auto.
Qed.

Lemma dev_valid_cases (E : JsEngine) (env : environment) (req : dev_request)
  (w : world) (u : string) :
  dev_valid req u ->
  (exists svg,
     fst (handleRequest env req w)
     = {| status := 200;
          headers := [("Content-Type", "image/svg+xml");
                      ("Cache-Control", "public, max-age=14400")];
          res_body := Text svg |})
  \/ (exists m,
        fst (handleRequest env req w)
        = json_response (if includes "not found" m then 404 else 500)
            [("error", JString m)]).
Proof.
  intros Hv. rewrite (dev_valid_unfold env req w u Hv). unfold bind.
  destruct (dev_getCachedData env u (env_GITHUB_TOKEN env) w) as [[sd|m] w'].
  - rewrite render_card_of. destruct (card_of _ sd _) as [svg|].
    + left. eexists. reflexivity.
    + right. eexists. reflexivity.
  - right. eexists. reflexivity.
Qed.

(** X24: the routes of the development server.  [/health] is answered with
    [{status: ok}] and any path other than [/health], [/] and [/api] with a
    JSON 404, both without touching the cache or the upstream.  For a theme
    that is not the name of a member of [Object.prototype], the card
    endpoint answers 400 exactly when the user name is missing or empty or
    the theme is unknown; the usage note then also lists the themes and
    the card types.  Every response that is not a 200 is JSON. *)
Theorem dev_server_routes (E : JsEngine) (env : environment)
  (req : dev_request) (w : world) :
  let q := d_query req in
  let theme := or_default "default" (nonempty (q_theme q)) in
  let res := fst (handleRequest env req w) in
  ~ In theme Object_prototype_names ->
  (d_pathname req = "/health" ->
   handleRequest env req w
   = (json_response 200 [("status", JString "ok")], w))
  /\ (d_pathname req <> "/health" -> is_api_path (d_pathname req) = false ->
      handleRequest env req w
      = (json_response 404 [("error", JString "Not found")], w))
  /\ (status res = 400 <->
      d_pathname req <> "/health" /\ is_api_path (d_pathname req) = true
      /\ (nonempty (q_username q) = None \/ lookup theme themes = None))
  /\ (status res = 400 -> snd (handleRequest env req w) = w)
  /\ (d_pathname req <> "/health" -> is_api_path (d_pathname req) = true ->
      nonempty (q_username q) = None ->
      res_body res
      = Json [("error", JString "Missing required parameter: username");
              ("usage", JString "/?username=YOUR_GITHUB_USERNAME");
              ("available_themes", JArray (keys themes));
              ("available_types",
               JArray ["activity"; "compact"; "languages"])])
  /\ (status res = 200
      \/ headers res = [("Content-Type", "application/json")]).
Proof.
  intros q theme res _.
  destruct (dev_request_cases req)
    as [Hh|[(Hh & Ha)|[(Hh & Ha & Hu)|[(u & Hh & Ha & Hu & Hl)|(u & Hv)]]]].
  - assert (Hr : handleRequest env req w
                 = (json_response 200 [("status", JString "ok")], w)).
    { unfold handleRequest. cbv zeta. now rewrite Hh. }
    unfold res. rewrite Hr. cbn [fst snd json_response status headers res_body].
    repeat split; auto; try congruence; try discriminate.
    intros (H & _). contradiction.
  - assert (Hr : handleRequest env req w
                 = (json_response 404 [("error", JString "Not found")], w)).
    { unfold handleRequest. cbv zeta. apply String.eqb_neq in Hh.
      now rewrite Hh, Ha. }
    unfold res. rewrite Hr. cbn [fst snd json_response status headers res_body].
    repeat split; auto; try congruence; try discriminate.
    intros (_ & H & _). congruence.
  - assert (Hr : handleRequest env req w
                 = (json_response 400
                      [("error", JString "Missing required parameter: username");
                       ("usage", JString "/?username=YOUR_GITHUB_USERNAME");
                       ("available_themes", JArray (keys themes));
                       ("available_types",
                        JArray ["activity"; "compact"; "languages"])], w)).
    { unfold handleRequest. cbv zeta. pose proof Hh as Hh'.
      apply String.eqb_neq in Hh'. fold q. fold q in Hu.
      now rewrite Hh', Ha, Hu. }
    unfold res. rewrite Hr. cbn [fst snd json_response status headers res_body].
    repeat split; auto; try congruence; try discriminate.
  - assert (Hr : handleRequest env req w
                 = (json_response 400
                      [("error", JString ("Invalid theme: " ++ theme));
                       ("available_themes", JArray (keys themes))], w)).
    { unfold handleRequest. cbv zeta. pose proof Hh as Hh'.
      apply String.eqb_neq in Hh'. fold q. fold q in Hu, Hl. fold theme.
      fold theme in Hl. now rewrite Hh', Ha, Hu, Hl. }
    unfold res. rewrite Hr. cbn [fst snd json_response status headers res_body].
    repeat split; auto; try congruence; try discriminate.
    intros _ _ H. fold q in Hu. congruence.
  - pose proof Hv as (Hh & Ha & Hu & Hl). fold q in Hu, Hl. fold theme in Hl.
    assert (Hst : status res <> 400
                  /\ (status res = 200
                      \/ headers res = [("Content-Type", "application/json")])).
    { unfold res.
      destruct (dev_valid_cases E env req w u Hv) as [(svg & ->)|(m & ->)].
      - split; [discriminate | now left].
      - cbn [json_response status headers]. split; [|now right].
        destruct (includes "not found" m); discriminate. }
    destruct Hst as [Hn Hc].
    split; [congruence|]. split; [congruence|].
    split; [split; [contradiction|]; intros (_ & _ & [H|H]); congruence|].
    split; [contradiction|]. split; [congruence | exact Hc].
Qed.

(** X24, an instance: the health check. *)
Lemma dev_server_routes_witness :
  @handleRequest utc_engine sample_environment
    {| d_pathname := "/health"; d_query := request_for "octocat" |}
    empty_world
  = (json_response 200 [("status", JString "ok")], empty_world).
Proof.
  refine (proj1 (dev_server_routes utc_engine sample_environment
                   {| d_pathname := "/health";
                      d_query := request_for "octocat" |} empty_world _)
            eq_refl).
  cbn. intuition discriminate.
Defined.

(** X25: the development server does not check the format of the user
    name: any non-empty name is sent upstream, also one that the
    serverless handler rejects with 400 without a request.  Upstream
    failures are reported as JSON with the error message, with status 404
    if the message holds `not found' and 500 otherwise. *)
Theorem dev_server_forwards_any_username (E : JsEngine) (env : environment)
  (req : dev_request) (w : world) (u msg : string) :
  dev_valid req u ->
  cached_fresh env u w = None ->
  let token := env_GITHUB_TOKEN env in
  w_calls (snd (handleRequest env req w))
  = app (w_calls w) (calls_for u token)
  /\ (violates_login_grammar u = true ->
      status (fst (handler env (d_query req) w)) = 400
      /\ snd (handler env (d_query req) w) = w)
  /\ (failures env u token <> [] ->
      (forall m, In m (failures env u token) -> m = msg) ->
      handleRequest env req w
      = (json_response (if includes "not found" msg then 404 else 500)
           [("error", JString msg)],
         after_calls u token w)).
Proof.
  intros Hv Hmiss token.
  rewrite (dev_valid_unfold env req w u Hv). unfold bind.
  rewrite (dev_cached_miss env u _ w Hmiss). fold token.
  split; [|split].
  - destruct (fetch_outcome env u token w) as [(a & -> & _)|(m & ->)].
    + rewrite render_card_of. destruct (card_of _ _ _); reflexivity.
    + reflexivity.
  - intros Hbad. destruct Hv as (_ & _ & Hu & _).
    unfold handler. rewrite Hu, (login_regex_rejects u Hbad). split; reflexivity.
  - intros Hne Hall.
    destruct (failures env u token) as [|m rest] eqn:Ef; [contradiction|].
    assert (Hm : m = msg) by (apply Hall; now left). subst m.
    now rewrite (fetch_failed env u token w msg rest Ef).
Qed.

(** X25, an instance: a name that starts and ends with a hyphen. *)
Lemma dev_server_forwards_any_username_witness :
  w_calls (snd (@handleRequest utc_engine sample_environment
                  (dev_request_for "-octocat-") empty_world))
  = app (w_calls empty_world)
      (calls_for "-octocat-" (env_GITHUB_TOKEN sample_environment)).
Proof.
  refine (proj1 (dev_server_forwards_any_username utc_engine
                   sample_environment (dev_request_for "-octocat-")
                   empty_world "-octocat-" "" _ eq_refl)).
  repeat split; discriminate.
Defined.

(** ** The two entry points on the same request *)

Lemma render_card_default (E : JsEngine) (q : request) (sd : summaryData)
  (options : cardOptions) :
  render_card (or_default "activity" (nonempty (q_type q))) sd options
  = render_card (or_default "activity" (q_type q)) sd options.
Proof.
  unfold nonempty. destruct (q_type q) as [t|]; [|reflexivity].
  destruct (String.eqb_spec t "") as [->|_]; reflexivity.
Qed.

Lemma options_agree (E : JsEngine) (q : request) (theme r : string) :
  q_border_radius q = Some r -> r <> "" ->
  jsnum_truthy (parseFloat r) = true ->
  dev_options q theme = handler_options q theme.
Proof.
  intros Hr Hne Ht. unfold dev_options, handler_options.
  rewrite Hr. cbn [nonempty]. apply String.eqb_neq in Hne. rewrite Hne, Ht.
  f_equal. destruct (q_border q); reflexivity.
Qed.

Lemma token_agrees (env : environment) (q : request) :
  h_x_github_token q = None -> env_GITHUB_TOKEN env <> Some "" ->
  token_of env q = env_GITHUB_TOKEN env.
Proof.
  intros Hh Hne. unfold token_of, or_else, nonempty. rewrite Hh.
  destruct (env_GITHUB_TOKEN env) as [t|]; [|reflexivity].
  destruct (String.eqb_spec t "") as [->|_]; [congruence | reflexivity].
Qed.

Lemma cache_put_small (key : string) (sd : summaryData) (now : Z)
  (cache : dict (summaryData * Z)) :
  (List.length cache < 1000)%nat ->
  cache_put key sd now cache = store key (sd, now) cache.
Proof.
  intros Hlen. unfold cache_put. cbv zeta.
  destruct (length_store key (sd, now) cache) as (H1 & _).
  destruct (Nat.ltb_spec 1000 (List.length (store key (sd, now) cache)));
    [lia | reflexivity].
Qed.

Lemma getCachedData_agree (E : JsEngine) (env : environment) (u : string)
  (token : option string) (w : world) :
  (List.length (w_cache w) < 1000)%nat ->
  dev_getCachedData env u token w = getCachedData env u token w.
Proof.
  intros Hlen. destruct (cached_fresh env u w) as [data|] eqn:Ef.
  - now rewrite (dev_cached_hit env u token w data Ef),
                (cached_hit env u token w data Ef).
  - rewrite (dev_cached_miss env u token w Ef), (cached_miss env u token w Ef).
    destruct (fetch_outcome env u token w) as [(a & -> & _)|(m & ->)];
      [|reflexivity].
    cbn [after_calls w_cache]. now rewrite cache_put_small.
Qed.

(** X26: the two entry points agree.  On a card request that passes the
    checks of the serverless handler, carries no token header and a
    border radius that is a number other than zero, with an environment
    token that is not empty and a cache below its limit, the development
    server and the serverless handler leave the same cache and the same
    upstream requests, succeed together and then send the same card; when
    they fail, they fail with the same status and the same message, the
    one as JSON and the other as an error card. *)
Theorem entry_points_agree (E : JsEngine) (env : environment)
  (req : dev_request) (w : world) (u r : string) :
  d_pathname req <> "/health" ->
  is_api_path (d_pathname req) = true ->
  valid_request (d_query req) u ->
  h_x_github_token (d_query req) = None ->
  env_GITHUB_TOKEN env <> Some "" ->
  q_border_radius (d_query req) = Some r -> r <> "" ->
  jsnum_truthy (parseFloat r) = true ->
  (List.length (w_cache w) < 1000)%nat ->
  let dev := handleRequest env req w in
  let prod := handler env (d_query req) w in
  snd dev = snd prod
  /\ (status (fst prod) = 200 <-> status (fst dev) = 200)
  /\ (status (fst prod) = 200 -> res_body (fst dev) = res_body (fst prod))
  /\ (status (fst prod) <> 200 ->
      exists m, fst prod = failure_response m
                /\ fst dev = json_response (status (fst prod))
                               [("error", JString m)]).
Proof.
  intros Hh Ha Hv Htok Henv Hr Hne Htr Hlen dev prod.
  assert (Hdv : dev_valid req u).
  { destruct Hv as (Hu & _ & Hth). unfold dev_valid.
    split; [assumption|]. split; [assumption|]. split; [assumption|].
    unfold nonempty. destruct (q_theme (d_query req)) as [t|] eqn:Et;
      [|exact Hth].
    destruct (String.eqb_spec t "") as [->|_]; [|exact Hth].
    exfalso. apply Hth. reflexivity. }
  assert (Hth : or_default "default" (nonempty (q_theme (d_query req)))
                = or_default "default" (q_theme (d_query req))).
  { destruct Hv as (_ & _ & Hth). unfold nonempty.
    destruct (q_theme (d_query req)) as [t|]; [|reflexivity].
    destruct (String.eqb_spec t "") as [->|_]; [|reflexivity].
    exfalso. apply Hth. reflexivity. }
  unfold dev, prod.
  rewrite (dev_valid_unfold env req w u Hdv), (handler_valid env _ w u Hv).
  rewrite (token_agrees env _ Htok Henv), Hth.
  rewrite (options_agree E _ _ r Hr Hne Htr).
  unfold bind. rewrite (getCachedData_agree E env u _ w Hlen).
  destruct (getCachedData env u (env_GITHUB_TOKEN env) w) as [[sd|m] w'].
  - rewrite render_card_default, render_card_of.
    destruct (card_of _ sd _) as [svg|].
    + cbn [fst snd ret success_response status res_body].
      split; [reflexivity|]. split; [tauto|]. split; [reflexivity|].
      intros H. contradiction.
    + cbn [fst snd]. split; [reflexivity|].
      pose proof (failure_status undefined_length_message) as Hs.
      unfold failure_response in *. cbn [json_response status res_body] in *.
      split; [split; intros H; destruct Hs; congruence|].
      split; [intros H; destruct Hs; congruence|].
      intros _. eexists. split; reflexivity.
  - cbn [fst snd]. split; [reflexivity|].
    pose proof (failure_status m) as Hs.
    unfold failure_response in *. cbn [json_response status res_body] in *.
    split; [split; intros H; destruct Hs; congruence|].
    split; [intros H; destruct Hs; congruence|].
    intros _. eexists. split; reflexivity.
Qed.

(** X26, an instance: the compact card in the theme [dark]. *)
Lemma entry_points_agree_witness :
  snd (@handleRequest utc_engine sample_environment compact_request
         empty_world)
  = snd (@handler utc_engine sample_environment (d_query compact_request)
           empty_world).
Proof.
  refine (proj1 (entry_points_agree utc_engine sample_environment
                   compact_request empty_world "octocat" "10" _ eq_refl _
                   eq_refl _ eq_refl _ eq_refl _)).
  - discriminate.
  - repeat split. discriminate.
  - discriminate.
  - discriminate.
  - cbn. lia.
Defined.

(** ** The narrative *)

Lemma concat_length_cons (sep x : string) (l : list string) :
  (String.length x <= String.length (String.concat sep (x :: l)))%nat.
Proof.
  destruct l as [|y l]; cbn [String.concat]; [lia|].
  rewrite length_append. lia.
Qed.

Lemma concat_two (sep x y : string) (l : list string) :
  (String.length x + String.length sep + String.length y
   <= String.length (String.concat sep (x :: y :: l)))%nat.
Proof.
  cbn [String.concat]. rewrite !length_append.
  pose proof (concat_length_cons sep y l) as H. cbn [String.concat] in H.
  destruct l; cbn [String.concat] in *; rewrite ?length_append in *; lia.
Qed.

Lemma timeDescription_length (h : Z) :
  (34 <= String.length (timeDescription h))%nat.
Proof.
  unfold timeDescription.
  destruct ((0 <=? h) && (h <? 6)); [cbn; lia|].
  destruct ((6 <=? h) && (h <? 12)); [cbn; lia|].
  destruct ((12 <=? h) && (h <? 18)); cbn; lia.
Qed.

(** X27: the narrative of the summary is a sequence of sentences joined by
    single spaces: the opening sentence, which names the primary language
    when there is one, the sentence about the schedule, the sentence about
    the streak when it is at least seven days (worded differently from
    thirty days on), and then at most three sentences, each about the
    recent projects, the achievements or the statistics.  It is always
    longer than fifty characters. *)
Theorem summary_sentences (a : activityData) :
  let sd := generateActivitySummary a in
  let days := activityStreak (ad_eventAnalysis a) in
  exists rest,
    summary sd
    = String.concat " "
        (opening_sentence (ad_profile a) (primaryLanguage sd)
         :: schedule_sentence (peakHour (ad_eventAnalysis a))
         :: app (streak_sentences days) rest)
    /\ (List.length rest <= 3)%nat
    /\ (forall s, In s rest ->
          starts_with "Recently active on: " s = true
          \/ starts_with "Notable: " s = true
          \/ starts_with "Stats: " s = true)
    /\ (50 < String.length (summary sd))%nat.
Proof.
  intros sd days.
  set (cs := ad_contributionStats a).
  set (rest :=
    app (match extractRecentProjects (ad_events a) with
         | [] => []
         | _ =>
             ["Recently active on: "
                ++ String.concat ", "
                     (map pr_name (firstn 3 (extractRecentProjects (ad_events a))))
                ++ "."]
         end)
    (app (match achievements_of (ad_eventAnalysis a) cs with
          | [] => []
          | _ => ["Notable: "
                    ++ String.concat ", "
                         (achievements_of (ad_eventAnalysis a) cs) ++ "."]
          end)
       (if (0 <? totalRepos cs) || (0 <? totalStars cs)
        then
          ["Stats: "
             ++ String.concat ", "
                  (app (if 0 <? totalRepos cs
                        then [Number_toString (totalRepos cs) ++ " repositories"]
                        else [])
                     (if 0 <? totalStars cs
                      then [Number_toString (totalStars cs) ++ " stars earned"]
                      else []))
             ++ "."]
        else []))).
  exists rest.
  assert (Hsum : summary sd
                 = String.concat " "
                     (opening_sentence (ad_profile a) (primaryLanguage sd)
                      :: schedule_sentence (peakHour (ad_eventAnalysis a))
                      :: app (streak_sentences days) rest)).
  { unfold sd. cbn [generateActivitySummary summary primaryLanguage].
    unfold generateHumanReadableSummary, summary_lines. f_equal.
    unfold opening_sentence. cbn [app]. f_equal.
    unfold streak_patterns, streak_sentences, schedule_sentence. fold days.
    destruct (Z.leb_spec 7 days) as [H7|H7].
    - cbn [app find is_schedule is_streak p_type schedule_pattern severity
             description].
      destruct (Z.leb_spec 30 days) as [H30|H30]; reflexivity.
    - cbn [app find is_schedule is_streak p_type schedule_pattern severity
             description].
      destruct (Z.leb_spec 30 days) as [H30|H30]; [lia | reflexivity]. }
  split; [exact Hsum|]. split.
  { unfold rest. rewrite !length_app.
    destruct (extractRecentProjects (ad_events a));
      destruct (achievements_of (ad_eventAnalysis a) cs);
      destruct ((0 <? totalRepos cs) || (0 <? totalStars cs));
      cbn [List.length]; lia. }
  split.
  { intros s Hs. unfold rest in Hs. rewrite !in_app_iff in Hs.
    destruct Hs as [Hs|[Hs|Hs]].
    - destruct (extractRecentProjects (ad_events a)); [contradiction|].
      destruct Hs as [<-|[]]. left. apply starts_with_app.
    - destruct (achievements_of (ad_eventAnalysis a) cs); [contradiction|].
      destruct Hs as [<-|[]]. right. left. apply starts_with_app.
    - destruct ((0 <? totalRepos cs) || (0 <? totalStars cs)); [|contradiction].
      destruct Hs as [<-|[]]. right. right. apply starts_with_app. }
  rewrite Hsum.
  pose proof (concat_two " "
                (opening_sentence (ad_profile a) (primaryLanguage sd))
                (schedule_sentence (peakHour (ad_eventAnalysis a)))
                (app (streak_sentences days) rest)) as Hlen.
  assert (H1 : (String.length (schedule_sentence (peakHour (ad_eventAnalysis a)))
                >= 44)%nat).
  { unfold schedule_sentence. rewrite !length_append.
    pose proof (timeDescription_length (peakHour (ad_eventAnalysis a))).
    cbn [String.length]. lia. }
  assert (H2 : (String.length (opening_sentence (ad_profile a) (primaryLanguage sd))
                >= 33)%nat).
  { unfold opening_sentence.
    destruct (nonempty (primaryLanguage sd)); rewrite !length_append;
      cbn [String.length]; lia. }
  cbn [String.length] in Hlen. lia.
Qed.

(** ** The totals on the compact card *)

Lemma compact_stat_edges (label value unit : string) :
  (exists p', compact_stat label value unit = String ">" p')
  /\ last_char_plain (compact_stat label value unit).
Proof.
  split; [eexists; reflexivity|].
  exists (">" ++ label ++ ": <tspan class=" ++ dq ++ "value" ++ dq ++ ">"
          ++ value ++ unit ++ "</tspan></text"), ">"%char.
  split; [|reflexivity]. unfold compact_stat. rewrite !append_assoc.
  reflexivity.
Qed.

Lemma Contains_head (a b c d e f g rest : string) :
  Contains (a ++ b ++ c ++ d ++ e ++ f ++ g)
    (a ++ b ++ c ++ d ++ e ++ f ++ g ++ rest).
Proof. exists "", rest. now rewrite !append_assoc. Qed.

Ltac find_stat lit :=
  repeat match goal with
         | |- Contains _ (append ?x (append _ _)) =>
             lazymatch x with
             | lit => fail
             | _ => apply Contains_app_r
             end
         end;
  match goal with
  | |- Contains _ (?a ++ ?b ++ ?c ++ ?d ++ ?e ++ ?f ++ ?g ++ ?rest) =>
      exact (Contains_head a b c d e f g rest)
  end.

Lemma compact_card_stat (E : JsEngine) (sd : summaryData)
  (options : cardOptions) :
  let st := sd_stats sd in
  let card := generateCompactCard sd options in
  Contains (compact_stat "Repos" (Number_toString (s_totalRepos st)) "") card
  /\ Contains (compact_stat "Stars" (Number_toString (s_totalStars st)) "")
       card
  /\ Contains (compact_stat "Streak" (Number_toString (s_activityStreak st))
                 "d") card
  /\ Contains (compact_stat "Events" (Number_toString (s_totalEvents st)) "")
       card.
Proof.
  intros st card. unfold card, generateCompactCard. cbv zeta. fold st.
  repeat split.
  - destruct (compact_stat_edges "Repos" (Number_toString (s_totalRepos st)) "")
      as [[p' Hp] Hl].
    eapply Contains_trim; [exact Hp | reflexivity | exact Hl|].
    find_stat ">Repos: <tspan class=".
  - destruct (compact_stat_edges "Stars" (Number_toString (s_totalStars st)) "")
      as [[p' Hp] Hl].
    eapply Contains_trim; [exact Hp | reflexivity | exact Hl|].
    find_stat ">Stars: <tspan class=".
  - destruct (compact_stat_edges "Streak"
                (Number_toString (s_activityStreak st)) "d") as [[p' Hp] Hl].
    eapply Contains_trim; [exact Hp | reflexivity | exact Hl|].
    find_stat ">Streak: <tspan class=".
  - destruct (compact_stat_edges "Events" (Number_toString (s_totalEvents st)) "")
      as [[p' Hp] Hl].
    eapply Contains_trim; [exact Hp | reflexivity | exact Hl|].
    find_stat ">Events: <tspan class=".
Qed.

(** X28: the compact card of a synthesized summary shows the number of
    repositories, the sum of their stars, the streak of the events (with
    the unit [d]) and the number of events, each under its label. *)
Theorem compact_card_shows_totals (E : JsEngine) (p : profile)
  (events : list event) (repos : list repo) (options : cardOptions) :
  let card := generateCompactCard
                (generateActivitySummary (activity_of p events repos))
                options in
  Contains (compact_stat "Repos"
              (Number_toString (Z.of_nat (List.length repos))) "") card
  /\ Contains (compact_stat "Stars"
                 (Number_toString (sum (map stargazers_count repos))) "") card
  /\ Contains (compact_stat "Streak"
                 (Number_toString (activityStreak (analyzeEvents events))) "d")
       card
  /\ Contains (compact_stat "Events"
                 (Number_toString (Z.of_nat (List.length events))) "") card.
Proof.
  intros card.
  destruct (compact_card_stat E
              (generateActivitySummary (activity_of p events repos)) options)
    as (H1 & H2 & H3 & H4).
  cbn [generateActivitySummary sd_stats s_totalRepos s_totalStars
       s_activityStreak s_totalEvents activity_of ad_eventAnalysis
       ad_contributionStats] in H1, H2, H3, H4.
  assert (Hstars : totalStars (fetchContributionStats repos)
                   = sum (map stargazers_count repos)).
  { cbn [fetchContributionStats totalStars]. rewrite fold_left_add. lia. }
  rewrite Hstars in H2.
  repeat split; assumption.
Qed.

(** ** When the languages card throws *)

Lemma labels_svg_None (data : list languageDatum) :
  forall i x y,
    labels_svg i x y data = None <-> Exists (fun d => ld_name d = None) data.
Proof.
  induction data as [|d r IH]; intros i x y; cbn [labels_svg].
  - split; [discriminate | intros H; inversion H].
  - unfold language_label. destruct (ld_name d) as [n|] eqn:En.
    + destruct (labels_svg (S i) _ _ r) as [rest|] eqn:Er.
      * split; [discriminate|]. intros H.
        inversion H as [? ? Hd|? ? Hr]; subst; [congruence|].
        match type of Er with
        | labels_svg ?i' ?x' ?y' r = _ =>
            apply (proj2 (IH i' x' y')) in Hr
        end.
        rewrite Er in Hr. discriminate.
      * split; [|reflexivity]. intros _. apply Exists_cons_tl.
        apply (proj1 (IH (S i) _ _) Er).
    + split; [|reflexivity]. intros _. now apply Exists_cons_hd.
Qed.

(** X29: [generateLanguagesCard] throws exactly when one of the first five
    languages of the summary is the empty name; in particular it draws a
    card for a summary without languages.  When it throws, the renderer
    of the entry points throws the [TypeError] message and leaves the
    cache and the upstream untouched. *)
Theorem languages_card_throws_iff (E : JsEngine) (sd : summaryData)
  (options : cardOptions) :
  (generateLanguagesCard sd options = None
   <-> In (LName "") (firstn 5 (sd_languages sd)))
  /\ (sd_languages sd = [] -> generateLanguagesCard sd options <> None)
  /\ (forall w, In (LName "") (firstn 5 (sd_languages sd)) ->
        render_card "languages" sd options w
        = (Thrown undefined_length_message, w)).
Proof.
  assert (Hiff : generateLanguagesCard sd options = None
                 <-> In (LName "") (firstn 5 (sd_languages sd))).
  { unfold generateLanguagesCard. cbv zeta.
    destruct (labels_svg 0 15 60 (languageData (sd_languages sd)))
      as [labels|] eqn:El.
    - split; [discriminate|]. intros Hin. exfalso.
      assert (Hn : labels_svg 0 15 60 (languageData (sd_languages sd)) = None).
      { apply labels_svg_None. apply Exists_exists.
        eexists. split; [unfold languageData; apply in_map; exact Hin|].
        reflexivity. }
      congruence.
    - split; [|reflexivity]. intros _.
      apply labels_svg_None in El. apply Exists_exists in El.
      destruct El as (d & Hd & Hn). unfold languageData in Hd.
      apply in_map_iff in Hd. destruct Hd as (e & <- & He).
      cbn [ld_name] in Hn. destruct e as [[|c n]|n sz]; try discriminate.
      exact He. }
  split; [exact Hiff|]. split.
  - intros Hnil H. apply Hiff in H. rewrite Hnil in H. destruct H.
  - intros w Hin. apply Hiff in Hin. unfold render_card.
    cbn [String.eqb Ascii.eqb Bool.eqb]. now rewrite Hin.
Qed.
